(** * The code folding API of pyqode.core ([pyqode/core/api/folding.py])

    A shallow embedding of the fold detector ([FoldDetector.process_block],
    [IndentFoldDetector]), of the fold scopes ([FoldScope]) and of
    [print_tree], with the properties of the fold tree they maintain. *)

From Stdlib Require Import ZArith Lia Bool Ascii String.
From stdpp Require Import base tactics option list numbers pretty.

Local Open Scope string_scope.
Local Open Scope Z_scope.

(** ** Text: [str.strip], [str.lstrip] and [len] *)

(** The characters of a line are code points below 256; the white space
    characters among them are the ones [str.isspace] accepts. *)
Definition is_space (c : ascii) : bool :=
  let n := nat_of_ascii c in
  ((9 <=? n) && (n <=? 13) || (28 <=? n) && (n <=? 32)
   || (n =? 133) || (n =? 160))%nat.

Fixpoint lstrip (s : string) : string :=
  match s with
  | EmptyString => EmptyString
  | String c r => if is_space c then lstrip r else s
  end.

Fixpoint rstrip (s : string) : string :=
  match s with
  | EmptyString => EmptyString
  | String c r =>
      match rstrip r with
      | EmptyString => if is_space c then EmptyString else String c EmptyString
      | r' => String c r'
    end
  end.

Definition strip (s : string) : string := rstrip (lstrip s).

(** [text.strip() == ''] *)
Definition is_blank (s : string) : bool :=
  match strip s with EmptyString => true | _ => false end.

Definition len (s : string) : Z := Z.of_nat (String.length s).

(** ** The line store *)

(** One text block of the document with the state the folding API keeps on
    it: the fold level, the fold trigger flag, the fold trigger state (set
    when the trigger is collapsed) and the visibility of the block. *)
Record Line := mkLine {
  text : string;
  fold_level : Z;
  is_trigger : bool;
  trigger_collapsed : bool;
  visible : bool
}.

Abbreviation document := (list Line).

(** A line as the document holds it before any processing. *)
Definition new_line (s : string) : Line := mkLine s 0 false false true.

Definition new_document (texts : list string) : document :=
  new_line <$> texts.

Definition with_fold_level (v : Z) (l : Line) : Line :=
  mkLine (text l) v (is_trigger l) (trigger_collapsed l) (visible l).
Definition with_trigger (v : bool) (l : Line) : Line :=
  mkLine (text l) (fold_level l) v (trigger_collapsed l) (visible l).
Definition with_collapsed (v : bool) (l : Line) : Line :=
  mkLine (text l) (fold_level l) (is_trigger l) v (visible l).
Definition with_visible (v : bool) (l : Line) : Line :=
  mkLine (text l) (fold_level l) (is_trigger l) (trigger_collapsed l) v.

(** ** Text blocks

    The blocks are those of the host document ([QTextBlock] of Qt), which
    the folding API navigates.  A block is a position in the document;
    [EndBlk] is the invalid block a document hands out at its boundaries:
    [next] of the last block, [previous] of the first one,
    [findBlockByNumber] out of range. *)
Inductive block : Set :=
| Blk (n : nat)
| EndBlk.

#[global] Instance block_eq_dec : EqDecision block.
Proof. solve_decision. Defined.

Module QTextBlock.

Definition line (d : document) (b : block) : option Line :=
  match b with Blk n => d !! n | EndBlk => None end.

Definition isValid (d : document) (b : block) : bool :=
  match line d b with Some _ => true | None => false end.

(** [-1] for an invalid block. *)
Definition blockNumber (d : document) (b : block) : Z :=
  match b with
  | Blk n => if isValid d b then Z.of_nat n else -1
  | EndBlk => -1
  end.

(** The empty string for an invalid block. *)
Definition text (d : document) (b : block) : string :=
  match line d b with Some l => text l | None => "" end.

Definition isVisible (d : document) (b : block) : bool :=
  match line d b with Some l => visible l | None => true end.

Definition update (f : Line -> Line) (d : document) (b : block) : document :=
  match b with Blk n => alter f n d | EndBlk => d end.

Definition setVisible (d : document) (b : block) (v : bool) : document :=
  update (with_visible v) d b.

Definition next (d : document) (b : block) : block :=
  match b with
  | Blk n => if isValid d (Blk (S n)) then Blk (S n) else EndBlk
  | EndBlk => EndBlk
  end.

(** [QTextBlock.previous] on the invalid block of a document returns the
    last block of the document: the block map steps back from its end. *)
Definition previous (d : document) (b : block) : block :=
  match b with
  | Blk (S n) => if isValid d b then Blk n else EndBlk
  | Blk O => EndBlk
  | EndBlk => match length d with S n => Blk n | O => EndBlk end
  end.

Definition findBlockByNumber (d : document) (n : Z) : block :=
  if (0 <=? n) && (n <? Z.of_nat (length d)) then Blk (Z.to_nat n) else EndBlk.

Definition firstBlock (d : document) : block := findBlockByNumber d 0.

End QTextBlock.

(** Modelled from the spec: [pyqode.core.api.utils.TextBlockHelper], the
    accessors of the per-line state, is not part of the sources at hand.
    The spec gives every line a fold level (default 0), a trigger flag, a
    trigger-collapsed flag; each accessor reads or writes that one field.
    No block at all ([None]) and an invalid block read as the defaults and
    ignore writes. *)
Module TextBlockHelper.

Definition get_fold_lvl (d : document) (b : option block) : Z :=
  match b ≫= QTextBlock.line d with Some l => fold_level l | None => 0 end.

Definition set_fold_lvl (d : document) (b : option block) (v : Z) : document :=
  match b with Some b => QTextBlock.update (with_fold_level v) d b | None => d end.

Definition is_fold_trigger (d : document) (b : option block) : bool :=
  match b ≫= QTextBlock.line d with Some l => is_trigger l | None => false end.

Definition set_fold_trigger (d : document) (b : option block) (v : bool) : document :=
  match b with Some b => QTextBlock.update (with_trigger v) d b | None => d end.

Definition get_fold_trigger_state (d : document) (b : option block) : bool :=
  match b ≫= QTextBlock.line d with Some l => trigger_collapsed l | None => false end.

Definition set_fold_trigger_state (d : document) (b : option block) (v : bool) : document :=
  match b with Some b => QTextBlock.update (with_collapsed v) d b | None => d end.

End TextBlockHelper.

(** ** Fold detectors *)

(** [sys.maxsize] *)
Definition sys_maxsize : Z := 2 ^ 63 - 1.

(** The interface of a fold detector: its level limit and the detection of
    the fold level of a block from the block and the previous non-blank
    block ([None] on the first line). *)
Class FoldDetector := {
  limit : Z;
  detect_fold_level : document -> option block -> block -> Z
}.

(** [IndentFoldDetector.detect_fold_level] with the editor's [tab_length]. *)
Definition indent_fold_level (tab_length : Z) (d : document)
  (prev_block : option block) (b : block) : Z :=
  let text := QTextBlock.text d b in
  (len text - len (lstrip text)) / tab_length.

Definition IndentFoldDetector (tab_length : Z) : FoldDetector :=
  {| limit := sys_maxsize; detect_fold_level := indent_fold_level tab_length |}.

Section ProcessBlock.

Context {detector : FoldDetector}.

(** The loop of [process_block] that applies the new level on the blank
    lines before the current block; [n] is the number of the block the
    walk comes from.  Returns the block the walk stops at. *)
Fixpoint apply_on_previous_blank_lines (d : document) (n : nat) (lvl : Z)
    : document * block :=
  match n with
  | O => (d, EndBlk)
  | S m =>
      if QTextBlock.isValid d (Blk m) && is_blank (QTextBlock.text d (Blk m))
      then apply_on_previous_blank_lines
             (TextBlockHelper.set_fold_lvl d (Some (Blk m)) lvl) m lvl
      else (d, if QTextBlock.isValid d (Blk m) then Blk m else EndBlk)
  end.

(** The fold level [process_block] computes for the current block before
    it repairs inconsistent levels. *)
Definition detected_level (d : document) (current : nat)
    (previous_block : option block) (txt : string) : Z :=
  let prev_fold_level := TextBlockHelper.get_fold_lvl d previous_block in
  if is_blank txt then prev_fold_level
  else
    let fold_level := detect_fold_level d previous_block (Blk current) in
    if fold_level >? limit then limit else fold_level.

(** The level after the repair of an inconsistent increase. *)
Definition fixed_level (fold_level prev_fold_level : Z) : Z :=
  let delta_abs := Z.abs (fold_level - prev_fold_level) in
  if (delta_abs >? 1) && (fold_level >? prev_fold_level)
  then prev_fold_level + 1 else fold_level.

(** [process_block] up to the update of the fold level of the current
    block. *)
Definition update_levels (d : document) (current : nat)
    (previous_block : option block) (txt : string) : document :=
  let prev_fold_level := TextBlockHelper.get_fold_lvl d previous_block in
  let fold_level := detected_level d current previous_block txt in
  let d :=
    if fold_level >? prev_fold_level then
      let '(d, b) := apply_on_previous_blank_lines d current fold_level in
      TextBlockHelper.set_fold_trigger d (Some b) true
    else d in
  let fold_level := fixed_level fold_level prev_fold_level in
  let d :=
    if negb (is_blank txt) then
      TextBlockHelper.set_fold_trigger d previous_block
        (fold_level >? prev_fold_level)
    else d in
  TextBlockHelper.set_fold_lvl d (Some (Blk current)) fold_level.

(** The end of [process_block]: the user pressed enter at the beginning
    of a fold trigger line. *)
Definition move_trigger_state (d : document) (current : nat) : document :=
  let prev := QTextBlock.previous d (Blk current) in
  if QTextBlock.isValid d prev && is_blank (QTextBlock.text d prev)
     && TextBlockHelper.is_fold_trigger d (Some prev)
  then
    let d := TextBlockHelper.set_fold_trigger_state d (Some (Blk current))
               (TextBlockHelper.get_fold_trigger_state d (Some prev)) in
    let d := TextBlockHelper.set_fold_trigger d (Some prev) false in
    TextBlockHelper.set_fold_trigger_state d (Some prev) false
  else d.

(** [FoldDetector.process_block] on the valid block number [current]. *)
Definition process_block (d : document) (current : nat)
    (previous_block : option block) (txt : string) : document :=
  move_trigger_state (update_levels d current previous_block txt) current.

(** Modelled from the spec: the caller of [process_block], the syntax
    highlighter, is not part of the sources at hand.  It processes every
    line once, in document order, and passes the previous non-blank line,
    or none, as the previous block. *)
Fixpoint find_prev_non_blank_block (d : document) (n : nat) : option block :=
  match n with
  | O => None
  | S m =>
      if is_blank (QTextBlock.text d (Blk m))
      then find_prev_non_blank_block d m
      else Some (Blk m)
  end.

Definition highlight_block (d : document) (n : nat) : document :=
  process_block d n (find_prev_non_blank_block d n) (QTextBlock.text d (Blk n)).

(** The blocks [0 .. n-1] processed in order. *)
Fixpoint highlight_upto (d : document) (n : nat) : document :=
  match n with
  | O => d
  | S m => highlight_block (highlight_upto d m) m
  end.

Definition rehighlight (d : document) : document :=
  highlight_upto d (length d).

End ProcessBlock.

(** ** Fold scopes *)

(** A scope is a view on its trigger block. *)
Record FoldScope := mkFoldScope { _trigger : block }.

Inductive exception : Set :=
| ValueError (msg : string).

Module Scope.

(** [FoldScope.__init__] *)
Definition init (d : document) (b : block) : exception + FoldScope :=
  if negb (TextBlockHelper.is_fold_trigger d (Some b))
  then inl (ValueError "Not a fold trigger")
  else inr (mkFoldScope b).

Definition trigger_level (d : document) (s : FoldScope) : Z :=
  TextBlockHelper.get_fold_lvl d (Some (_trigger s)).

Definition scope_level (d : document) (s : FoldScope) : Z :=
  TextBlockHelper.get_fold_lvl d (Some (QTextBlock.next d (_trigger s))).

Definition collapsed (d : document) (s : FoldScope) : bool :=
  TextBlockHelper.get_fold_trigger_state d (Some (_trigger s)).

(** The first loop of [get_range]: [b] is the block under test, [fuel]
    bounds the number of blocks left in the document. *)
Fixpoint scan (d : document) (ref_lvl : Z) (fuel : nat) (b : block)
    (last_line : Z) : block * Z :=
  match fuel with
  | O => (b, last_line)
  | S fuel =>
      if QTextBlock.isValid d b
         && (TextBlockHelper.get_fold_lvl d (Some b) >? ref_lvl)
      then scan d ref_lvl fuel (QTextBlock.next d b) (QTextBlock.blockNumber d b)
      else (b, last_line)
  end.

(** The second loop of [get_range], over the trailing blank lines. *)
Fixpoint trim (d : document) (fuel : nat) (b : block) (last_line : Z) : Z :=
  match fuel with
  | O => last_line
  | S fuel =>
      if negb (QTextBlock.blockNumber d b =? 0)
         && is_blank (QTextBlock.text d b)
      then trim d fuel (QTextBlock.previous d b)
             (QTextBlock.blockNumber d (QTextBlock.previous d b))
      else last_line
  end.

(** [FoldScope.get_range] *)
Definition get_range (d : document) (s : FoldScope) (ignore_blank_lines : bool)
    : Z * Z :=
  let ref_lvl := trigger_level d s in
  let first_line := QTextBlock.blockNumber d (_trigger s) in
  let b := QTextBlock.next d (_trigger s) in
  let last_line := QTextBlock.blockNumber d b in
  let lvl := scope_level d s in
  let ref_lvl := if ref_lvl =? lvl then ref_lvl - 1 else ref_lvl in
  let '(b, last_line) := scan d ref_lvl (length d) b last_line in
  let last_line :=
    if ignore_blank_lines && negb (last_line =? 0) then
      trim d (S (S (length d))) (QTextBlock.findBlockByNumber d last_line) last_line
    else last_line in
  (first_line, last_line).

(** The loop of [fold], [blocks] and [child_regions] over the blocks after
    the trigger up to line [end_line]; [visit] is the body of the loop. *)
Fixpoint walk {A : Type} (visit : A -> block -> A) (d : document)
    (end_line : Z) (fuel : nat) (b : block) (acc : A) : A :=
  match fuel with
  | O => acc
  | S fuel =>
      if (QTextBlock.blockNumber d b <=? end_line) && QTextBlock.isValid d b
      then walk visit d end_line fuel (QTextBlock.next d b) (visit acc b)
      else acc
  end.

(** [FoldScope.fold] *)
Definition fold (d : document) (s : FoldScope) : document :=
  let '(start, end_line) := get_range d s true in
  let d := TextBlockHelper.set_fold_trigger_state d (Some (_trigger s)) true in
  walk (fun d b => QTextBlock.setVisible d b false) d end_line (length d)
    (QTextBlock.next d (_trigger s)) d.

(** [FoldScope.blocks]: the blocks the generator yields, in order.  The
    generator reads the fold levels and the trigger flags only, which no
    consumer in this module writes while it iterates. *)
Definition blocks (d : document) (s : FoldScope) (ignore_blank_lines : bool)
    : list block :=
  let '(start, end_line) := get_range d s ignore_blank_lines in
  let ref_lvl := scope_level d s in
  walk (fun acc b =>
          let lvl := TextBlockHelper.get_fold_lvl d (Some b) in
          let trigger := TextBlockHelper.is_fold_trigger d (Some b) in
          if (lvl =? ref_lvl) && negb trigger then (acc ++ [b])%list else acc)
    d end_line (length d) (QTextBlock.next d (_trigger s)) [].

(** [FoldScope.child_regions]: the scopes the generator yields, in order. *)
Definition child_regions (d : document) (s : FoldScope) : list FoldScope :=
  let '(start, end_line) := get_range d s true in
  let ref_lvl := scope_level d s in
  walk (fun acc b =>
          let lvl := TextBlockHelper.get_fold_lvl d (Some b) in
          let trigger := TextBlockHelper.is_fold_trigger d (Some b) in
          if (lvl =? ref_lvl) && trigger then
            match init d b with
            | inr region => (acc ++ [region])%list
            | inl _ => acc
            end
          else acc)
    d end_line (length d) (QTextBlock.next d (_trigger s)) [].

(** The last loop of [unfold], on a collapsed child region: the blocks
    from [b] back to the line after [bstart] are shown. *)
Fixpoint show_back (d : document) (bstart : Z) (fuel : nat) (b : block)
    : document :=
  match fuel with
  | O => d
  | S fuel =>
      if QTextBlock.blockNumber d b >? bstart
      then show_back (QTextBlock.setVisible d b true) bstart fuel
             (QTextBlock.previous d b)
      else d
  end.

(** [unfold] leaves a collapsed child region closed but opens its trigger
    line and its last blank lines. *)
Definition open_closed_region (d : document) (region : FoldScope) : document :=
  let '(start, bstart) := get_range d region true in
  let '(_, bend) := get_range d region false in
  let b := QTextBlock.findBlockByNumber d start in
  let d := QTextBlock.setVisible d b true in
  let b := QTextBlock.findBlockByNumber d bend in
  show_back d bstart (S (length d)) b.

(** The loop of [unfold] over the child regions; [unfold] is the recursive
    call. *)
Fixpoint unfold_regions (unfold : document -> FoldScope -> option document)
    (d : document) (regions : list FoldScope) : option document :=
  match regions with
  | [] => Some d
  | region :: regions =>
      d ← (if negb (collapsed d region) then unfold d region
           else Some (open_closed_region d region));
      unfold_regions unfold d regions
  end.

(** [FoldScope.unfold], with the depth of the recursion bounded by [fuel]:
    [None] when the bound is hit. *)
Fixpoint unfold_rec (fuel : nat) (d : document) (s : FoldScope)
    : option document :=
  match fuel with
  | O => None
  | S fuel =>
      let d := QTextBlock.setVisible d (_trigger s) true in
      let d := TextBlockHelper.set_fold_trigger_state d (Some (_trigger s)) false in
      let d := foldl (fun d b => QTextBlock.setVisible d b true) d
                 (blocks d s false) in
      unfold_regions (unfold_rec fuel) d (child_regions d s)
  end.

(** A child region starts after its parent, so the recursion is never
    deeper than the document is long. *)
Definition unfold (d : document) (s : FoldScope) : option document :=
  unfold_rec (S (length d)) d s.

(** The loop of [parent] and the second loop of [find_parent_scope]: back
    to the first block that is block 0 or a trigger whose level is not above
    [ref_lvl]. *)
Fixpoint search_back (d : document) (ref_lvl : Z) (fuel : nat) (b : block)
    : block :=
  match fuel with
  | O => b
  | S fuel =>
      if negb (QTextBlock.blockNumber d b =? 0)
         && (negb (TextBlockHelper.is_fold_trigger d (Some b))
             || (TextBlockHelper.get_fold_lvl d (Some b) >? ref_lvl))
      then search_back d ref_lvl fuel (QTextBlock.previous d b)
      else b
  end.

(** [FoldScope.parent]: [None] is the [None] of the source. *)
Definition parent (d : document) (s : FoldScope) : option FoldScope :=
  if (TextBlockHelper.get_fold_lvl d (Some (_trigger s)) >? 0)
     && negb (QTextBlock.blockNumber d (_trigger s) =? 0)
  then
    let b := QTextBlock.previous d (_trigger s) in
    let ref_lvl := trigger_level d s - 1 in
    let b := search_back d ref_lvl (S (length d)) b in
    match init d b with
    | inr region => Some region
    | inl _ => None
    end
  else None.

(** The loop of [text], over the blocks after the trigger up to line
    [end_line], as long as fewer than [max_lines] texts are collected. *)
Fixpoint collect_text (d : document) (end_line max_lines : Z) (fuel : nat)
    (b : block) (ret_val : list string) : list string :=
  match fuel with
  | O => ret_val
  | S fuel =>
      if QTextBlock.isValid d b && (QTextBlock.blockNumber d b <=? end_line)
         && (Z.of_nat (length ret_val) <? max_lines)
      then collect_text d end_line max_lines fuel (QTextBlock.next d b)
             (ret_val ++ [QTextBlock.text d b])%list
      else ret_val
  end.

(** [FoldScope.text]; [max_lines] is [sys.maxsize] when the caller does not
    pass it. *)
Definition text (d : document) (s : FoldScope) (max_lines : Z) : string :=
  let b := QTextBlock.next d (_trigger s) in
  let '(_, end_line) := get_range d s true in
  String.concat (String (ascii_of_nat 10) "")
    (collect_text d end_line max_lines (length d) b []).

(** The first loop of [find_parent_scope]: forward to the first valid block
    that is not blank, or to the invalid block. *)
Fixpoint skip_blank (d : document) (fuel : nat) (b : block) : block :=
  match fuel with
  | O => b
  | S fuel =>
      if is_blank (QTextBlock.text d b) && QTextBlock.isValid d b
      then skip_blank d fuel (QTextBlock.next d b)
      else b
  end.

(** [FoldScope.find_parent_scope] *)
Definition find_parent_scope (d : document) (b : block) : block :=
  let original := b in
  if negb (TextBlockHelper.is_fold_trigger d (Some b)) then
    let b := skip_blank d (S (length d)) b in
    let ref_lvl := TextBlockHelper.get_fold_lvl d (Some b) - 1 in
    let b := original in
    search_back d ref_lvl (S (S (length d))) b
  else b.

End Scope.

(** ** The debug dump *)

(** The loop of [print_tree]; the printed lines, in order. *)
Fixpoint print_tree_from (d : document) (print_blocks : bool) (fuel : nat)
    (b : block) : list string :=
  match fuel with
  | O => []
  | S fuel =>
      if QTextBlock.isValid d b then
        let trigger := TextBlockHelper.is_fold_trigger d (Some b) in
        let trigger_state := TextBlockHelper.get_fold_trigger_state d (Some b) in
        let lvl := TextBlockHelper.get_fold_lvl d (Some b) in
        let visible := if QTextBlock.isVisible d b then "V" else "I" in
        ((if trigger then
            let trigger := if trigger_state then "+" else "-" in
            ["l" +:+ pretty (QTextBlock.blockNumber d b + 1) +:+ ":"
               +:+ pretty lvl +:+ trigger +:+ visible]
          else if print_blocks then
            ["l" +:+ pretty (QTextBlock.blockNumber d b + 1) +:+ ":"
               +:+ pretty lvl +:+ visible]
          else [])
         ++ print_tree_from d print_blocks fuel (QTextBlock.next d b))%list
      else []
  end.

(** [print_tree]; [print_blocks] is off when the caller does not pass it. *)
Definition print_tree (d : document) (print_blocks : bool) : list string :=
  print_tree_from d print_blocks (length d) (QTextBlock.firstBlock d).

(** ** Text decorations ([pyqode/core/frontend/decoration.py])

    The functions that keep the decorations of an editor, the list
    [editor._extra_selections].  A decoration is an object of its own: two
    decorations are the same when they are the same object, which [name]
    stands for, and a decoration has a draw order. *)
Record TextDecoration := mkDecoration { name : nat; draw_order : Z }.

#[global] Instance decoration_eq_dec : EqDecision TextDecoration.
Proof. solve_decision. Defined.

Module Decoration.

(** One step of [sorted]: [x] goes before the first decoration of a greater
    draw order, after the ones of the same draw order. *)
Fixpoint insert_last (x : TextDecoration) (l : list TextDecoration)
    : list TextDecoration :=
  match l with
  | [] => [x]
  | y :: l =>
      if draw_order y <=? draw_order x then y :: insert_last x l
      else x :: y :: l
  end.

(** [sorted(selections, key=lambda sel: sel.draw_order)]: a stable sort,
    the decorations of one draw order stay in the order they are in. *)
Definition sorted (l : list TextDecoration) : list TextDecoration :=
  foldl (fun acc x => insert_last x acc) [] l.

(** [decoration in selections] *)
Definition contains (l : list TextDecoration) (x : TextDecoration) : bool :=
  bool_decide (x ∈ l).

(** [add_decoration]: the decorations of the editor afterwards and the
    result. *)
Definition add_decoration (selections : list TextDecoration)
    (decoration : TextDecoration) : list TextDecoration * bool :=
  if negb (contains selections decoration) then
    let selections := (selections ++ [decoration])%list in
    let selections := sorted selections in
    (selections, true)
  else (selections, false).

(** [list.remove]: the list without the first decoration equal to [x], or
    [None] for the [ValueError] of a list without any. *)
Fixpoint list_remove (x : TextDecoration) (l : list TextDecoration)
    : option (list TextDecoration) :=
  match l with
  | [] => None
  | y :: l =>
      if decide (y = x) then Some l
      else (fun l' => y :: l') <$> list_remove x l
  end.

(** [remove_decoration] *)
Definition remove_decoration (selections : list TextDecoration)
    (decoration : TextDecoration) : list TextDecoration * bool :=
  match list_remove decoration selections with
  | Some selections => (selections, true)
  | None => (selections, false)
  end.

(** [clear_decorations] *)
Definition clear_decorations (selections : list TextDecoration)
    : list TextDecoration := [].

End Decoration.

(** ** Notions the properties are stated with *)

(** The per-line readers, on line numbers. *)
Definition text_of (d : document) (n : nat) : string :=
  QTextBlock.text d (Blk n).
Definition level_of (d : document) (n : nat) : Z :=
  TextBlockHelper.get_fold_lvl d (Some (Blk n)).
Definition trigger_of (d : document) (n : nat) : bool :=
  TextBlockHelper.is_fold_trigger d (Some (Blk n)).
Definition collapsed_of (d : document) (n : nat) : bool :=
  TextBlockHelper.get_fold_trigger_state d (Some (Blk n)).
Definition visible_of (d : document) (n : nat) : bool :=
  QTextBlock.isVisible d (Blk n).

Definition texts (d : document) : list string := text <$> d.

(** Line [j] is one of the blank lines right before line [n]. *)
Fixpoint in_blank_run (d : document) (j n : nat) : bool :=
  match n with
  | O => false
  | S m => is_blank (text_of d m) && ((j =? m)%nat || in_blank_run d j m)
  end.

(** The first non-blank line among [ls], the lines from number [n] on. *)
Fixpoint first_non_blank (ls : list Line) (n : nat) : option nat :=
  match ls with
  | [] => None
  | l :: ls => if is_blank (text l) then first_non_blank ls (S n) else Some n
  end.

(** The next non-blank line after line [j]. *)
Definition next_non_blank (d : document) (j : nat) : option nat :=
  first_non_blank (drop (S j) d) (S j).

(** The fold level of the previous non-blank line of line [n], 0 without. *)
Definition prev_level (d : document) (n : nat) : Z :=
  TextBlockHelper.get_fold_lvl d (find_prev_non_blank_block d n).

(** The documents of the scenarios. *)
Definition scenario1 : document :=
  new_document ["def f():"; "    x = 1"; "    y = 2"; "z = 3"].

Definition scenario1_folding : document :=
  @rehighlight (IndentFoldDetector 4) scenario1.

(** What [update_levels] does to line [j]. *)
Definition update_levels_line `{FoldDetector} (d : document) (n : nat)
    (previous_block : option block) (txt : string) (j : nat) (l : Line) : Line :=
  let prev := TextBlockHelper.get_fold_lvl d previous_block in
  let raw := detected_level d n previous_block txt in
  let l := if (raw >? prev) && in_blank_run d j n
           then with_fold_level raw l else l in
  let l := if (raw >? prev)
              && bool_decide (find_prev_non_blank_block d n = Some (Blk j))
           then with_trigger true l else l in
  let l := if negb (is_blank txt) && bool_decide (previous_block = Some (Blk j))
           then with_trigger (fixed_level raw prev >? prev) l else l in
  if bool_decide (j = n) then with_fold_level (fixed_level raw prev) l else l.

(** What [move_trigger_state] does to line [j], when line [m] is the blank
trigger right before the current line [n]. *)
Definition move_trigger_state_line (d : document) (m n j : nat) (l : Line) : Line :=
  let l := if bool_decide (j = n)
           then with_collapsed (collapsed_of d m) l else l in
  if bool_decide (j = m) then with_collapsed false (with_trigger false l) else l.

(** The level [process_block] detects for line [n] when the pass reaches
it, before the repair. *)
Definition detected_at `{FoldDetector} (d : document) (n : nat) : Z :=
  let dn := highlight_upto d n in
  detected_level dn n (find_prev_non_blank_block dn n) (text_of dn n).

(** Every line strictly between lines [j] and [m] is blank. *)
Definition blank_between (d : document) (j m : nat) : Prop :=
  forall i, (j < i < m)%nat -> is_blank (text_of d i) = true.

(** The fold levels of neighbouring non-blank lines differ by one at most,
in both directions. *)
Definition contiguous (d : document) : Prop :=
  forall n, is_blank (text_of d n) = false -> is_blank (text_of d (S n)) = false ->
    -1 <= level_of d (S n) - level_of d n <= 1.

(** Every blank line has the fold level of the previous non-blank line, or
level 0 without such a line. *)
Definition blank_lines_inherit (d : document) : Prop :=
  forall j, (j < length d)%nat -> is_blank (text_of d j) = true ->
    level_of d j = prev_level d j.

(** A line is a trigger if and only if the next non-blank line is deeper. *)
Definition triggers_as_claimed (d : document) : Prop :=
  forall j, trigger_of d j = true
    <-> exists m, next_non_blank d j = Some m /\ level_of d m > level_of d j.

(** A line that holds a trigger flag from an earlier pass, before a blank
line only: the lines of its body are gone. *)
Definition stale_trigger : document :=
  [ mkLine "def f():" 0 true false true;
    mkLine "" 0 false false true ].

(** A line that closes two scopes at once. *)
Definition dedent_by_two : document :=
  new_document ["a"; "    b"; "        c"; "d"].

(** A blank line between a line and its indented body. *)
Definition blank_gap : document :=
  new_document ["a"; ""; "    b"].

(** The first scope of the first scenario. *)
Definition scope0 : FoldScope := mkFoldScope (Blk 0).

(** A collapsed trigger line after the user pressed enter at its beginning:
the blank line 1 still holds the trigger flag and the collapsed state, the
text of the trigger is on line 2. *)
Definition enter_pressed : document :=
  [ mkLine "a" 0 false false true;
    mkLine "" 0 true true true;
    mkLine "b:" 0 false false true;
    mkLine "    c" 1 false false false ].

(** A blank line that holds a trigger flag, before blank lines only. *)
Definition blank_trigger : document :=
  [ mkLine "a" 0 false false true;
    mkLine "" 0 true false true;
    mkLine "" 0 false false true ].

(** The record of line number [n] in the dump: the line number counted
from 1, the fold level, a mark on a trigger ([+] when it is collapsed, [-]
when it is expanded) and the visibility. *)
Definition record (n : nat) (l : Line) : string :=
  "l" +:+ pretty (Z.of_nat n + 1) +:+ ":" +:+ pretty (fold_level l)
  +:+ (if is_trigger l then if trigger_collapsed l then "+" else "-" else "")
  +:+ (if visible l then "V" else "I").

(** The record [print_tree] prints for a line, if any: a line that is not
a trigger has a record when [print_blocks] is set only. *)
Definition printed_record (print_blocks : bool) (n : nat) (l : Line)
    : option string :=
  if is_trigger l || print_blocks then Some (record n l) else None.

(** The record of a line as the claim has it, with the marks of the
triggers the other way round: [+] on an expanded trigger, [-] on a
collapsed one. *)
Definition record_as_claimed (n : nat) (l : Line) : string :=
  "l" +:+ pretty (Z.of_nat n + 1) +:+ ":" +:+ pretty (fold_level l)
  +:+ (if is_trigger l then if trigger_collapsed l then "-" else "+" else "")
  +:+ (if visible l then "V" else "I").

(** The valid block number [k], or the invalid block. *)
Definition block_at (d : document) (k : nat) : block :=
  if QTextBlock.isValid d (Blk k) then Blk k else EndBlk.

(** What [fold] does to line [j] of the scope of line [t], whose range ends
on line [last]: the trigger is marked as collapsed and the lines after it up
to [last] are hidden. *)
Definition fold_line (t : nat) (last : Z) (j : nat) (l : Line) : Line :=
  let l := if bool_decide (j = t) then with_collapsed true l else l in
  if bool_decide (t < j)%nat && (Z.of_nat j <=? last)
  then with_visible false l else l.

(** What the ranges and the children of the scopes are computed from: the
text, the fold level and the trigger flag of every line. *)
Definition structure (d : document) : list (string * Z * bool) :=
  (fun l => (text l, fold_level l, is_trigger l)) <$> d.

(** A document is well nested when the fold level rises by one at most from
a line to the next, the triggers are the lines right before a deeper line,
and no blank line is a trigger. *)
Definition well_nested_at (d : document) (j : nat) : bool :=
  ((length d <=? S j)%nat || (level_of d (S j) <=? level_of d j + 1))
  && eqb (trigger_of d j)
       ((S j <? length d)%nat && (level_of d (S j) >? level_of d j))
  && (negb (trigger_of d j) || negb (is_blank (text_of d j))).

Definition well_nested (d : document) : bool :=
  forallb (well_nested_at d) (seq 0 (length d)).

(** Line [j] is in the scope of line [t]: every line after [t] up to [j] is
deeper than [t]. *)
Definition in_scope (d : document) (t j : nat) : Prop :=
  (t < j < length d)%nat
  /\ forall i, (t < i <= j)%nat -> level_of d i > level_of d t.

(** From [d] to [d'] the lines in [S] have been shown, and nothing else has
changed but collapsed states that have been cleared. *)
Definition shows (S : nat -> Prop) (d d' : document) : Prop :=
  structure d' = structure d
  /\ (forall j, S j -> visible_of d' j = true)
  /\ (forall j, ~ S j -> visible_of d' j = visible_of d j)
  /\ (forall j, visible_of d j = true -> visible_of d' j = true)
  /\ (forall j, collapsed_of d j = false -> collapsed_of d' j = false).

(** A line under a blank line and indented by two levels at once: the
pass brings its level down to 1 and leaves the blank line at 2. *)
Definition steep_indent : document :=
  @rehighlight (IndentFoldDetector 4) (new_document ["a"; ""; "        b"]).

(** A scope in a scope: line 1 opens a scope in the scope of line 0. *)
Definition nested_folding : document :=
  @rehighlight (IndentFoldDetector 4) dedent_by_two.

(** The lines number [k] to number [last] of the document. *)
Definition lines_between (d : document) (k : nat) (last : Z) : list string :=
  text_of d <$> seq k (Z.to_nat (Z.min (last + 1) (Z.of_nat (length d)) - Z.of_nat k)).

(** The decorations are in the order of their draw orders. *)
Fixpoint by_draw_order (l : list TextDecoration) : Prop :=
  match l with
  | [] => True
  | x :: l => Forall (fun y => draw_order x <= draw_order y) l /\ by_draw_order l
  end.

(** [d'] is [d] with lines shown that were hidden, and nothing else has
changed. *)
Definition reveals (d d' : document) : Prop :=
  structure d' = structure d
  /\ (forall j, collapsed_of d' j = collapsed_of d j)
  /\ (forall j, visible_of d j = true -> visible_of d' j = true).

(** Line [j] is closed in the scope of line [t]: a collapsed trigger of the
scope has it in its range without the trailing blank lines. *)
Definition closed_in (d : document) (t j : nat) : Prop :=
  exists c, in_scope d t c /\ trigger_of d c = true /\ collapsed_of d c = true
    /\ (c < j)%nat
    /\ Z.of_nat j <= (Scope.get_range d (mkFoldScope (Blk c)) true).2.

(** Line [j] is kept closed under line [c]: [c] is collapsed and has [j] in
its range without the trailing blank lines, or [j] is closed in the scope of
[c]. *)
Definition closed_from (d : document) (c j : nat) : Prop :=
  (collapsed_of d c = true /\ (c < j)%nat
   /\ Z.of_nat j <= (Scope.get_range d (mkFoldScope (Blk c)) true).2)
  \/ closed_in d c j.

(** The lines that opening line [c] shows: [c] and the lines of its scope
that are not kept closed. *)
Definition shown_by (d : document) (c j : nat) : Prop :=
  j = c \/ (in_scope d c j /\ ~ closed_from d c j).

(** From [d] to [d'] line [c] has been opened. *)
Definition opened (d : document) (c : nat) (d' : document) : Prop :=
  reveals d d'
  /\ (forall j, shown_by d c j -> visible_of d' j = true)
  /\ (forall j, ~ shown_by d c j -> visible_of d' j = visible_of d j).

(** The scope of line 1 folded in the folded scope of line 0. *)
Definition closed_child : document :=
  Scope.fold (Scope.fold nested_folding (mkFoldScope (Blk 1))) scope0.

(** * Properties *)

(** ** Blocks and line state *)

Lemma update_length f d b : length (QTextBlock.update f d b) = length d.
Proof. destruct b; simpl; [apply length_alter | done]. Qed.

Lemma update_lookup f (d : document) b j :
  QTextBlock.update f d b !! j
  = if decide (b = Blk j) then f <$> d !! j else d !! j.
Proof.
  destruct b as [n|]; cbn [QTextBlock.update].
  - destruct (decide (Blk n = Blk j)) as [E|E].
    + inversion E; subst. apply list_lookup_alter_eq.
    + apply list_lookup_alter_ne. congruence.
  - by destruct (decide (EndBlk = Blk j)).
Qed.

Lemma update_texts f d b :
  (forall l, text (f l) = text l) -> texts (QTextBlock.update f d b) = texts d.
Proof.
  intros Hf. apply list_eq. intros j. unfold texts.
  rewrite !list_lookup_fmap, update_lookup.
  case_decide; [|done]. destruct (d !! j); simpl; [by rewrite Hf | done].
Qed.

Lemma texts_length d d' : texts d = texts d' -> length d = length d'.
Proof.
  intros H. apply (f_equal length) in H. unfold texts in H.
  by rewrite !length_fmap in H.
Qed.

Lemma texts_text_of d d' n : texts d = texts d' -> text_of d n = text_of d' n.
Proof.
  intros H. apply (f_equal (fun l => l !! n)) in H. unfold texts in H.
  rewrite !list_lookup_fmap in H.
  unfold text_of, QTextBlock.text; simpl.
  destruct (d !! n), (d' !! n); simpl in *; congruence.
Qed.

Lemma texts_isValid d d' b :
  texts d = texts d' -> QTextBlock.isValid d b = QTextBlock.isValid d' b.
Proof.
  intros H. apply (f_equal (fun l => l !! match b with Blk n => n | _ => 0%nat end)) in H.
  unfold texts in H. rewrite !list_lookup_fmap in H.
  unfold QTextBlock.isValid. destruct b as [n|]; simpl; [|done].
  destruct (d !! n), (d' !! n); simpl in *; congruence.
Qed.

Lemma isValid_lt d n : QTextBlock.isValid d (Blk n) = true <-> (n < length d)%nat.
Proof.
  unfold QTextBlock.isValid; simpl. rewrite <- lookup_lt_is_Some.
  destruct (d !! n); split; intros H; eauto; done.
Qed.

Lemma isValid_ge d n : QTextBlock.isValid d (Blk n) = false <-> (length d <= n)%nat.
Proof.
  unfold QTextBlock.isValid; simpl. rewrite <- lookup_ge_None.
  destruct (d !! n); split; intros H; eauto; done.
Qed.

Lemma texts_in_blank_run d d' j n :
  texts d = texts d' -> in_blank_run d j n = in_blank_run d' j n.
Proof.
  intros H. induction n as [|n IH]; simpl; [done|].
  by rewrite IH, (texts_text_of d d' n H).
Qed.

Lemma texts_find_prev d d' n :
  texts d = texts d' ->
  find_prev_non_blank_block d n = find_prev_non_blank_block d' n.
Proof.
  intros H. induction n as [|n IH]; simpl; [done|].
  fold (text_of d n). fold (text_of d' n).
  by rewrite IH, (texts_text_of d d' n H).
Qed.

Lemma set_fold_lvl_lookup (d : document) ob v j :
  TextBlockHelper.set_fold_lvl d ob v !! j
  = if decide (ob = Some (Blk j)) then with_fold_level v <$> d !! j else d !! j.
Proof.
  destruct ob as [b|];
    cbn [TextBlockHelper.set_fold_lvl TextBlockHelper.set_fold_trigger
         TextBlockHelper.set_fold_trigger_state];
    [|by destruct (decide (None = Some (Blk j)))].
  rewrite update_lookup. repeat case_decide; congruence.
Qed.

Lemma set_fold_trigger_lookup (d : document) ob v j :
  TextBlockHelper.set_fold_trigger d ob v !! j
  = if decide (ob = Some (Blk j)) then with_trigger v <$> d !! j else d !! j.
Proof.
  destruct ob as [b|];
    cbn [TextBlockHelper.set_fold_lvl TextBlockHelper.set_fold_trigger
         TextBlockHelper.set_fold_trigger_state];
    [|by destruct (decide (None = Some (Blk j)))].
  rewrite update_lookup. repeat case_decide; congruence.
Qed.

Lemma set_fold_trigger_state_lookup (d : document) ob v j :
  TextBlockHelper.set_fold_trigger_state d ob v !! j
  = if decide (ob = Some (Blk j)) then with_collapsed v <$> d !! j else d !! j.
Proof.
  destruct ob as [b|];
    cbn [TextBlockHelper.set_fold_lvl TextBlockHelper.set_fold_trigger
         TextBlockHelper.set_fold_trigger_state];
    [|by destruct (decide (None = Some (Blk j)))].
  rewrite update_lookup. repeat case_decide; congruence.
Qed.

Lemma setVisible_lookup (d : document) b v j :
  QTextBlock.setVisible d b v !! j
  = if decide (b = Blk j) then with_visible v <$> d !! j else d !! j.
Proof. apply update_lookup. Qed.

Lemma set_fold_lvl_texts d ob v : texts (TextBlockHelper.set_fold_lvl d ob v) = texts d.
Proof. destruct ob; simpl; [by apply update_texts | done]. Qed.

Lemma set_fold_trigger_texts d ob v :
  texts (TextBlockHelper.set_fold_trigger d ob v) = texts d.
Proof. destruct ob; simpl; [by apply update_texts | done]. Qed.

Lemma set_fold_trigger_state_texts d ob v :
  texts (TextBlockHelper.set_fold_trigger_state d ob v) = texts d.
Proof. destruct ob; simpl; [by apply update_texts | done]. Qed.

Lemma setVisible_texts d b v : texts (QTextBlock.setVisible d b v) = texts d.
Proof. by apply update_texts. Qed.

Lemma set_fold_lvl_length d ob v :
  length (TextBlockHelper.set_fold_lvl d ob v) = length d.
Proof. apply texts_length, set_fold_lvl_texts. Qed.

Lemma set_fold_trigger_length d ob v :
  length (TextBlockHelper.set_fold_trigger d ob v) = length d.
Proof. apply texts_length, set_fold_trigger_texts. Qed.

Lemma set_fold_trigger_state_length d ob v :
  length (TextBlockHelper.set_fold_trigger_state d ob v) = length d.
Proof. apply texts_length, set_fold_trigger_state_texts. Qed.

Lemma setVisible_length d b v : length (QTextBlock.setVisible d b v) = length d.
Proof. apply update_length. Qed.

(** ** One step of the fold detector *)

Lemma in_blank_run_lt d j n : in_blank_run d j n = true -> (j < n)%nat.
Proof.
  induction n as [|n IH]; simpl; [done|].
  intros [_ [E|E]%orb_true_iff]%andb_true_iff.
  - apply Nat.eqb_eq in E. lia.
  - specialize (IH E). lia.
Qed.

Lemma in_blank_run_blank d j n :
  in_blank_run d j n = true -> is_blank (text_of d j) = true.
Proof.
  induction n as [|n IH]; simpl; [done|].
  intros [B [E|E]%orb_true_iff]%andb_true_iff; [|by apply IH].
  apply Nat.eqb_eq in E. by subst.
Qed.

Lemma find_prev_Some d n b :
  find_prev_non_blank_block d n = Some b ->
  exists p, b = Blk p /\ (p < n)%nat /\ is_blank (text_of d p) = false
            /\ forall i, (p < i < n)%nat -> is_blank (text_of d i) = true.
Proof.
  induction n as [|n IH]; simpl; [done|]. fold (text_of d n).
  destruct (is_blank (text_of d n)) eqn:B.
  - intros (p & -> & Hp & Hb & Hi)%IH. exists p. repeat split; [lia|done|].
    intros i Hi'. destruct (decide (i = n)) as [->|]; [done|]. apply Hi. lia.
  - intros [= <-]. exists n. repeat split; [lia|done|]. intros i Hi. lia.
Qed.

Lemma find_prev_None d n :
  find_prev_non_blank_block d n = None ->
  forall i, (i < n)%nat -> is_blank (text_of d i) = true.
Proof.
  induction n as [|n IH]; simpl; [intros _ i Hi; lia|]. fold (text_of d n).
  destruct (is_blank (text_of d n)) eqn:B; [|done].
  intros Hn i Hi. destruct (decide (i = n)) as [->|]; [done|]. apply IH; [done|lia].
Qed.

Lemma find_prev_intro d n p :
  (p < n)%nat -> is_blank (text_of d p) = false ->
  (forall i, (p < i < n)%nat -> is_blank (text_of d i) = true) ->
  find_prev_non_blank_block d n = Some (Blk p).
Proof.
  intros Hp Hb Hi. destruct (find_prev_non_blank_block d n) as [b|] eqn:E.
  - apply find_prev_Some in E as (q & -> & Hq & Hqb & Hqi).
    destruct (Nat.lt_trichotomy p q) as [L|[->|L]]; [|done|].
    + rewrite Hi in Hqb; [done|lia].
    + rewrite Hqi in Hb; [done|lia].
  - eapply find_prev_None in E; [|exact Hp]. congruence.
Qed.

Lemma apply_blank_lookup (d : document) n lvl j :
  (n <= length d)%nat ->
  (apply_on_previous_blank_lines d n lvl).1 !! j
  = if in_blank_run d j n then with_fold_level lvl <$> d !! j else d !! j.
Proof.
  revert d. induction n as [|n IH]; intros d Hn; [done|].
  cbn [apply_on_previous_blank_lines in_blank_run].
  assert (QTextBlock.isValid d (Blk n) = true) as -> by (apply isValid_lt; lia).
  fold (text_of d n). destruct (is_blank (text_of d n)) eqn:B; [|done].
  cbn [andb]. rewrite IH by (rewrite set_fold_lvl_length; lia).
  rewrite (texts_in_blank_run _ d) by apply set_fold_lvl_texts.
  rewrite set_fold_lvl_lookup.
  destruct (Nat.eqb_spec j n) as [->|Hne].
  - destruct (in_blank_run d n n) eqn:R.
    + apply in_blank_run_lt in R. lia.
    + cbn [orb]. by rewrite decide_True.
  - cbn [orb]. rewrite decide_False by congruence. done.
Qed.

Lemma apply_blank_stop (d : document) n lvl :
  (n <= length d)%nat ->
  (apply_on_previous_blank_lines d n lvl).2
  = default EndBlk (find_prev_non_blank_block d n).
Proof.
  revert d. induction n as [|n IH]; intros d Hn; [done|].
  cbn [apply_on_previous_blank_lines find_prev_non_blank_block].
  assert (QTextBlock.isValid d (Blk n) = true) as -> by (apply isValid_lt; lia).
  destruct (is_blank (QTextBlock.text d (Blk n))) eqn:B; [|done].
  cbn [andb]. rewrite IH by (rewrite set_fold_lvl_length; lia).
  by rewrite (texts_find_prev _ d) by apply set_fold_lvl_texts.
Qed.

Lemma fixed_level_gt raw prev : (fixed_level raw prev >? prev) = (raw >? prev).
Proof.
  unfold fixed_level.
  destruct (Z.gtb_spec raw prev); rewrite ?andb_false_r, ?andb_true_r.
  - destruct (Z.abs (raw - prev) >? 1); lia.
  - lia.
Qed.

Lemma fixed_level_le raw prev : fixed_level raw prev <= prev + 1.
Proof.
  unfold fixed_level.
  destruct (Z.gtb_spec (Z.abs (raw - prev)) 1), (Z.gtb_spec raw prev);
    cbn [andb]; lia.
Qed.

Lemma fixed_level_clamped raw prev :
  raw > prev + 1 -> fixed_level raw prev = prev + 1.
Proof.
  intros H. unfold fixed_level.
  destruct (Z.gtb_spec (Z.abs (raw - prev)) 1), (Z.gtb_spec raw prev);
    cbn [andb]; lia.
Qed.

Lemma fixed_level_kept raw prev : raw <= prev + 1 -> fixed_level raw prev = raw.
Proof.
  intros H. unfold fixed_level.
  destruct (Z.gtb_spec (Z.abs (raw - prev)) 1), (Z.gtb_spec raw prev);
    cbn [andb]; lia.
Qed.

Section Step.

Context {detector : FoldDetector}.

Lemma update_levels_lookup (d : document) n pb txt j :
  (n < length d)%nat ->
  update_levels d n pb txt !! j = update_levels_line d n pb txt j <$> d !! j.
Proof.
  intros Hn. unfold update_levels, update_levels_line.
  set (prev := TextBlockHelper.get_fold_lvl d pb).
  set (raw := detected_level d n pb txt).
  pose proof (apply_blank_lookup d n raw j ltac:(lia)) as H1.
  pose proof (apply_blank_stop d n raw ltac:(lia)) as H2.
  destruct (apply_on_previous_blank_lines d n raw) as [d1 b].
  cbn [fst snd] in H1, H2. subst b.
  rewrite set_fold_lvl_lookup.
  destruct (raw >? prev) eqn:G, (is_blank txt) eqn:B; cbn [negb andb];
    rewrite ?set_fold_trigger_lookup, ?H1;
    destruct (find_prev_non_blank_block d n) as [q|] eqn:F; cbn [default];
    repeat case_decide; repeat case_bool_decide;
    destruct (in_blank_run d j n); destruct (d !! j);
    simplify_eq; try done.
Qed.

Lemma update_levels_texts d n pb txt :
  (n < length d)%nat -> texts (update_levels d n pb txt) = texts d.
Proof.
  intros Hn. apply list_eq. intros j. unfold texts.
  rewrite !list_lookup_fmap, update_levels_lookup by done.
  destruct (d !! j) as [l|]; [|done]. cbn. f_equal.
  unfold update_levels_line.
  repeat match goal with |- context [if ?c then _ else _] => destruct c end; done.
Qed.

Lemma move_trigger_state_lookup (d : document) n m j :
  (S m < length d)%nat -> n = S m ->
  move_trigger_state d n !! j
  = if is_blank (text_of d m) && trigger_of d m
    then move_trigger_state_line d m n j <$> d !! j
    else d !! j.
Proof.
  intros Hn ->. unfold move_trigger_state, move_trigger_state_line.
  cbn [QTextBlock.previous].
  assert (QTextBlock.isValid d (Blk (S m)) = true) as -> by (apply isValid_lt; lia).
  assert (QTextBlock.isValid d (Blk m) = true) as -> by (apply isValid_lt; lia).
  fold (text_of d m). fold (trigger_of d m). fold (collapsed_of d m).
  cbn [andb].
  destruct (is_blank (text_of d m) && trigger_of d m); [|done].
  rewrite set_fold_trigger_state_lookup, set_fold_trigger_lookup,
    set_fold_trigger_state_lookup.
  repeat case_decide; repeat case_bool_decide; destruct (d !! j);
    simplify_eq; try done; lia.
Qed.

Lemma move_trigger_state_first (d : document) :
  move_trigger_state d 0 = d.
Proof. done. Qed.

Lemma move_trigger_state_texts d n :
  texts (move_trigger_state d n) = texts d.
Proof.
  unfold move_trigger_state.
  destruct (_ && _); [|done].
  by rewrite set_fold_trigger_state_texts, set_fold_trigger_texts,
    set_fold_trigger_state_texts.
Qed.

Lemma process_block_texts d n pb txt :
  (n < length d)%nat -> texts (process_block d n pb txt) = texts d.
Proof.
  intros Hn. unfold process_block.
  by rewrite move_trigger_state_texts, update_levels_texts.
Qed.

Lemma detected_level_blank d n pb txt :
  is_blank txt = true ->
  detected_level d n pb txt = TextBlockHelper.get_fold_lvl d pb.
Proof. intros B. unfold detected_level. by rewrite B. Qed.

(** The trigger flag of line [j] after line [n] has been processed. *)
Lemma highlight_block_trigger (d : document) n j :
  (n < length d)%nat ->
  trigger_of (highlight_block d n) j
  = if bool_decide (S j = n) && is_blank (text_of d j) then false
    else if bool_decide (find_prev_non_blank_block d n = Some (Blk j))
            && negb (is_blank (text_of d n))
    then detected_level d n (find_prev_non_blank_block d n) (text_of d n)
         >? prev_level d n
    else trigger_of d j.
Proof.
  intros Hn. unfold highlight_block, process_block, prev_level.
  fold (text_of d n).
  set (pb := find_prev_non_blank_block d n).
  set (txt := text_of d n).
  set (d1 := update_levels d n pb txt).
  assert (forall i, trigger_of d1 i
            = if bool_decide (pb = Some (Blk i)) && negb (is_blank txt)
              then detected_level d n pb txt >? TextBlockHelper.get_fold_lvl d pb
              else trigger_of d i) as Hd1.
  { intros i. unfold trigger_of, TextBlockHelper.is_fold_trigger at 1.
    cbn [mbind option_bind QTextBlock.line]. subst d1.
    rewrite update_levels_lookup by done.
    unfold TextBlockHelper.is_fold_trigger; cbn [mbind option_bind QTextBlock.line].
    unfold update_levels_line. fold pb. rewrite fixed_level_gt.
    destruct (is_blank txt) eqn:B; cbn [negb andb].
    - rewrite detected_level_blank by done. rewrite Z.gtb_ltb, Z.ltb_irrefl.
      cbn [andb]. rewrite andb_false_r.
      destruct (d !! i); [|done]. cbn. by case_bool_decide.
    - rewrite andb_true_r.
      destruct (d !! i) as [l|] eqn:Hi.
      + cbn. destruct (_ >? _), (in_blank_run d i n);
          repeat case_bool_decide; done.
      + cbn. case_bool_decide as E; [|done].
        apply find_prev_Some in E as (p & [= <-] & Hp & _).
        apply lookup_ge_None in Hi. lia. }
  assert (texts d1 = texts d) as Ht by (by apply update_levels_texts).
  destruct n as [|m].
  - rewrite move_trigger_state_first, Hd1.
    rewrite (bool_decide_false (S j = 0%nat)) by lia. done.
  - assert (trigger_of (move_trigger_state d1 (S m)) j
            = if bool_decide (j = m) && is_blank (text_of d m) then false
              else trigger_of d1 j) as ->.
    { unfold trigger_of at 1, TextBlockHelper.is_fold_trigger.
      cbn [mbind option_bind QTextBlock.line].
      rewrite (move_trigger_state_lookup d1 (S m) m)
        by (rewrite ?(texts_length _ _ Ht); done).
      rewrite (texts_text_of _ _ m Ht).
      destruct (is_blank (text_of d m)) eqn:B; cbn [andb];
        rewrite ?andb_false_r; [|done].
      rewrite andb_true_r.
      destruct (trigger_of d1 m) eqn:T.
      - unfold move_trigger_state_line.
        case_bool_decide as E.
        + destruct (d1 !! j); done.
        + unfold trigger_of, TextBlockHelper.is_fold_trigger.
          cbn [mbind option_bind QTextBlock.line].
          destruct (d1 !! j); [|done]. cbn. by case_bool_decide.
      - case_bool_decide; subst; [|done].
        by unfold trigger_of, TextBlockHelper.is_fold_trigger in T. }
    rewrite Hd1.
    destruct (decide (j = m)) as [->|Hne].
    + rewrite (bool_decide_true (m = m)), (bool_decide_true (S m = S m)) by done.
      done.
    + rewrite !(bool_decide_false (j = m)) by done.
      rewrite (bool_decide_false (S j = S m)) by lia. done.
Qed.

Lemma move_trigger_state_level d n j :
  level_of (move_trigger_state d n) j = level_of d j.
Proof.
  unfold move_trigger_state. destruct (_ && _); [|done].
  unfold level_of, TextBlockHelper.get_fold_lvl.
  cbn [mbind option_bind QTextBlock.line].
  rewrite set_fold_trigger_state_lookup, set_fold_trigger_lookup,
    set_fold_trigger_state_lookup.
  repeat case_decide; destruct (d !! j); done.
Qed.

(** The fold level of line [j] after line [n] has been processed. *)
Lemma highlight_block_level (d : document) n j :
  (n < length d)%nat ->
  level_of (highlight_block d n) j
  = let raw := detected_level d n (find_prev_non_blank_block d n) (text_of d n) in
    if bool_decide (j = n) then fixed_level raw (prev_level d n)
    else if (raw >? prev_level d n) && in_blank_run d j n then raw
    else level_of d j.
Proof.
  intros Hn. unfold highlight_block, process_block, prev_level.
  fold (text_of d n). rewrite move_trigger_state_level.
  unfold level_of, TextBlockHelper.get_fold_lvl at 1.
  cbn [mbind option_bind QTextBlock.line].
  rewrite update_levels_lookup by done. unfold update_levels_line.
  set (raw := detected_level _ _ _ _). cbn zeta.
  set (prev := TextBlockHelper.get_fold_lvl d (find_prev_non_blank_block d n)).
  destruct (d !! j) as [l|] eqn:Hj.
  - unfold TextBlockHelper.get_fold_lvl; cbn [mbind option_bind QTextBlock.line].
    rewrite Hj. cbn.
    destruct (raw >? prev), (in_blank_run d j n), (is_blank (text_of d n));
      repeat case_bool_decide; done.
  - cbn. apply lookup_ge_None in Hj.
    rewrite bool_decide_false by lia.
    destruct (in_blank_run d j n) eqn:R.
    + apply in_blank_run_lt in R. lia.
    + rewrite andb_false_r. unfold TextBlockHelper.get_fold_lvl.
      cbn [mbind option_bind QTextBlock.line].
      by rewrite (proj2 (lookup_ge_None d j)) by lia.
Qed.

Lemma highlight_block_texts d n :
  (n < length d)%nat -> texts (highlight_block d n) = texts d.
Proof. intros. by apply process_block_texts. Qed.

Lemma highlight_upto_texts d n :
  (n <= length d)%nat -> texts (highlight_upto d n) = texts d.
Proof.
  induction n as [|n IH]; intros Hn; [done|]. cbn [highlight_upto].
  rewrite highlight_block_texts; [apply IH; lia|].
  rewrite (texts_length _ d) by (apply IH; lia). lia.
Qed.

Lemma highlight_upto_length d n :
  (n <= length d)%nat -> length (highlight_upto d n) = length d.
Proof. intros. by apply texts_length, highlight_upto_texts. Qed.

(** A non-blank line keeps its level when a later line is processed. *)
Lemma highlight_block_level_non_blank (d : document) n j :
  (n < length d)%nat -> j <> n -> is_blank (text_of d j) = false ->
  level_of (highlight_block d n) j = level_of d j.
Proof.
  intros Hn Hne Hb. rewrite highlight_block_level by done. cbn zeta.
  rewrite bool_decide_false by done.
  destruct (in_blank_run d j n) eqn:R.
  - apply in_blank_run_blank in R. congruence.
  - by rewrite andb_false_r.
Qed.

(** So does the level of the previous non-blank line of a line that has
been reached. *)
Lemma highlight_block_prev_level (d : document) n i :
  (n < length d)%nat -> (i <= n)%nat ->
  prev_level (highlight_block d n) i = prev_level d i.
Proof.
  intros Hn Hi. unfold prev_level.
  rewrite (texts_find_prev _ d) by (by apply highlight_block_texts).
  destruct (find_prev_non_blank_block d i) as [b|] eqn:E; [|done].
  apply find_prev_Some in E as (p & -> & Hp & Hb & _).
  apply highlight_block_level_non_blank; [done|lia|done].
Qed.

End Step.

(** ** A pass of the fold detector over the document *)

Lemma in_blank_run_iff d j n :
  in_blank_run d j n = true
  <-> (j < n)%nat /\ is_blank (text_of d j) = true /\ blank_between d j n.
Proof.
  induction n as [|n IH]; cbn [in_blank_run].
  - split; [done|]. intros [? _]. lia.
  - rewrite andb_true_iff, orb_true_iff, IH, Nat.eqb_eq. unfold blank_between.
    split.
    + intros [B [->|(Hj & Bj & Hb)]].
      * repeat split; [lia|done|]. intros i Hi. lia.
      * repeat split; [lia|done|]. intros i Hi.
        destruct (decide (i = n)) as [->|]; [done|]. apply Hb. lia.
    + intros (Hj & Bj & Hb). destruct (decide (j = n)) as [->|Hne].
      * split; [done|by left].
      * split; [apply Hb; lia|]. right. repeat split; [lia|done|].
        intros i Hi. apply Hb. lia.
Qed.

Lemma find_prev_skip_blank d j m :
  (j < m)%nat -> is_blank (text_of d j) = true -> blank_between d j m ->
  find_prev_non_blank_block d m = find_prev_non_blank_block d j.
Proof.
  intros Hjm Bj Hb. induction m as [|m IH]; [lia|].
  cbn [find_prev_non_blank_block]. fold (text_of d m).
  destruct (decide (j = m)) as [->|Hne]; [by rewrite Bj|].
  rewrite (Hb m) by lia. apply IH; [lia|]. intros i Hi. apply Hb. lia.
Qed.

Section Pass.

Context {detector : FoldDetector}.
Variable d : document.

Lemma pass_text k n :
  (k <= length d)%nat -> text_of (highlight_upto d k) n = text_of d n.
Proof. intros. by apply texts_text_of, highlight_upto_texts. Qed.

Lemma pass_find_prev k n :
  (k <= length d)%nat ->
  find_prev_non_blank_block (highlight_upto d k) n = find_prev_non_blank_block d n.
Proof. intros. by apply texts_find_prev, highlight_upto_texts. Qed.

Lemma pass_in_blank_run k j n :
  (k <= length d)%nat ->
  in_blank_run (highlight_upto d k) j n = in_blank_run d j n.
Proof. intros. by apply texts_in_blank_run, highlight_upto_texts. Qed.

(** The level of a processed non-blank line: the detected level, repaired
against the level of the previous non-blank line. *)
Lemma pass_level_non_blank k n :
  (k <= length d)%nat -> (n < k)%nat -> is_blank (text_of d n) = false ->
  level_of (highlight_upto d k) n
  = fixed_level (detected_at d n) (prev_level (highlight_upto d k) n).
Proof.
  induction k as [|k IH]; intros Hk Hn Hb; [lia|].
  cbn [highlight_upto].
  assert (k < length (highlight_upto d k))%nat as Hlen
    by (rewrite highlight_upto_length; lia).
  rewrite highlight_block_prev_level by (done || lia).
  destruct (decide (n = k)) as [->|Hne].
  - rewrite highlight_block_level by done. cbn zeta.
    by rewrite bool_decide_true by done.
  - rewrite highlight_block_level_non_blank;
      [apply IH; (done || lia)|done|done|].
    rewrite pass_text by lia. done.
Qed.

(** The level of a processed blank line: the level of the previous
non-blank line until the next non-blank line is processed, and then the
greater of that and of the level detected for the next non-blank line. *)
Lemma pass_level_blank k j :
  (k <= length d)%nat -> (j < k)%nat -> is_blank (text_of d j) = true ->
  (forall m, (j < m < k)%nat -> is_blank (text_of d m) = false ->
     blank_between d j m ->
     level_of (highlight_upto d k) j
     = Z.max (prev_level (highlight_upto d k) j) (detected_at d m))
  /\ (blank_between d j k ->
      level_of (highlight_upto d k) j = prev_level (highlight_upto d k) j).
Proof.
  induction k as [|k IH]; intros Hk Hj Bj; [lia|].
  cbn [highlight_upto].
  assert (k < length (highlight_upto d k))%nat as Hlen
    by (rewrite highlight_upto_length; lia).
  rewrite highlight_block_prev_level by (done || lia).
  rewrite highlight_block_level by done. cbn zeta.
  rewrite pass_text, pass_find_prev, pass_in_blank_run by lia.
  destruct (decide (j = k)) as [->|Hne].
  - rewrite bool_decide_true by done. split.
    + intros m Hm. lia.
    + intros _. rewrite detected_level_blank by done.
      fold (prev_level (highlight_upto d k) k).
      rewrite <- (pass_find_prev k k) by lia.
      fold (prev_level (highlight_upto d k) k).
      apply fixed_level_kept. lia.
  - rewrite bool_decide_false by done.
    destruct (IH ltac:(lia) ltac:(lia) Bj) as [IH1 IH2].
    destruct (is_blank (text_of d k)) eqn:Bk.
    + rewrite detected_level_blank by done.
      rewrite <- (pass_find_prev k k) by lia.
      fold (prev_level (highlight_upto d k) k).
      rewrite Z.gtb_ltb, Z.ltb_irrefl. cbn [andb]. split.
      * intros m Hm Bm Hb. destruct (decide (m = k)) as [->|]; [congruence|].
        apply IH1; [lia|done|done].
      * intros Hb. apply IH2. intros i Hi. apply Hb. lia.
    + split.
      * intros m Hm Bm Hb. destruct (decide (m = k)) as [->|Hmk].
        -- assert (in_blank_run d j k = true) as ->
             by (apply in_blank_run_iff; repeat split; (done || lia)).
           rewrite andb_true_r. rewrite (IH2 Hb).
           unfold detected_at. rewrite pass_text, pass_find_prev by lia.
           unfold prev_level at 1.
           rewrite pass_find_prev, (find_prev_skip_blank d j k),
             <- (pass_find_prev k j) by (done || lia).
           fold (prev_level (highlight_upto d k) j).
           set (raw := detected_level _ _ _ _).
           set (prev := prev_level _ _).
           destruct (Z.gtb_spec raw prev); lia.
        -- assert (in_blank_run d j k = false) as ->.
           { destruct (in_blank_run d j k) eqn:R; [|done].
             apply in_blank_run_iff in R as (_ & _ & R).
             rewrite R in Bm; [done|lia]. }
           rewrite andb_false_r. apply IH1; [lia|done|done].
      * intros Hb. rewrite Hb in Bk; [done|lia].
Qed.

(** The trigger flags during a pass over a document without any trigger. *)
Hypothesis no_trigger : forall i, trigger_of d i = false.

Lemma pass_trigger k j :
  (k <= length d)%nat ->
  (is_blank (text_of d j) = true -> trigger_of (highlight_upto d k) j = false)
  /\ (is_blank (text_of d j) = false ->
      (forall m, (j < m < k)%nat -> is_blank (text_of d m) = false ->
         blank_between d j m ->
         trigger_of (highlight_upto d k) j
         = (level_of (highlight_upto d k) m >? level_of (highlight_upto d k) j))
      /\ (blank_between d j k -> trigger_of (highlight_upto d k) j = false)).
Proof.
  induction k as [|k IH]; intros Hk.
  { cbn [highlight_upto]. repeat split; intros; (apply no_trigger || lia). }
  cbn [highlight_upto].
  assert (k < length (highlight_upto d k))%nat as Hlen
    by (rewrite highlight_upto_length; lia).
  destruct (IH ltac:(lia)) as [IHb IHn].
  rewrite highlight_block_trigger by done.
  rewrite !pass_text, pass_find_prev by lia.
  split.
  - intros Bj. rewrite Bj, andb_true_r.
    case_bool_decide; [done|].
    case_bool_decide as E; [|by apply IHb].
    apply find_prev_Some in E as (p & [= <-] & _ & Hp & _). congruence.
  - intros Bj. rewrite Bj, andb_false_r.
    destruct (IHn Bj) as [IH1 IH2]. split.
    + intros m Hm Bm Hb.
      rewrite (highlight_block_level_non_blank _ k j);
        [|done|lia|by rewrite pass_text by lia].
      destruct (decide (m = k)) as [->|Hmk].
      * rewrite bool_decide_true by (apply find_prev_intro; (done || lia)).
        rewrite Bm. cbn [negb andb].
        rewrite highlight_block_level by done. cbn zeta.
        rewrite bool_decide_true by done.
        rewrite pass_text, pass_find_prev by lia.
        assert (prev_level (highlight_upto d k) k
                = level_of (highlight_upto d k) j) as <-.
        { unfold prev_level. rewrite pass_find_prev by lia.
          by rewrite (find_prev_intro d k j) by (done || lia). }
        by rewrite fixed_level_gt.
      * rewrite bool_decide_false.
        2:{ intros (p & [= <-] & _ & _ & Hp)%find_prev_Some.
            rewrite Hp in Bm; [done|lia]. }
        cbn [andb].
        rewrite (highlight_block_level_non_blank _ k m);
          [|done|lia|by rewrite pass_text by lia].
        apply IH1; [lia|done|done].
    + intros Hb. destruct (decide (j < k)%nat) as [Hjk|Hjk].
      * rewrite (Hb k) by lia. cbn [negb]. rewrite andb_false_r.
        apply IH2. intros i Hi. apply Hb. lia.
      * rewrite bool_decide_false.
        2:{ intros (p & [= <-] & Hp & _)%find_prev_Some. lia. }
        cbn [andb]. apply IH2. intros i Hi. lia.
Qed.

End Pass.

Lemma is_blank_empty : is_blank "" = true.
Proof. done. Qed.

Lemma text_of_lookup (d : document) n l : d !! n = Some l -> text_of d n = text l.
Proof. intros H. unfold text_of, QTextBlock.text. cbn. by rewrite H. Qed.

Lemma text_of_invalid (d : document) n : d !! n = None -> text_of d n = "".
Proof. intros H. unfold text_of, QTextBlock.text. cbn. by rewrite H. Qed.

Lemma non_blank_valid (d : document) n :
  is_blank (text_of d n) = false -> (n < length d)%nat.
Proof.
  intros H. destruct (d !! n) as [l|] eqn:E.
  - by apply lookup_lt_Some in E.
  - by rewrite text_of_invalid in H.
Qed.

Lemma first_non_blank_Some ls n m :
  first_non_blank ls n = Some m
  <-> (n <= m)%nat
      /\ (exists l, ls !! (m - n)%nat = Some l /\ is_blank (text l) = false)
      /\ (forall i l, (i < m - n)%nat -> ls !! i = Some l -> is_blank (text l) = true).
Proof.
  revert n. induction ls as [|l0 ls IH]; intros n; cbn [first_non_blank].
  - split; [done|]. by intros (_ & (l & ? & _) & _).
  - destruct (is_blank (text l0)) eqn:B.
    + rewrite IH. split.
      * intros (Hn & (l & Hl & Bl) & Hi). split; [lia|]. split.
        -- exists l. replace (m - n)%nat with (S (m - S n)) by lia. done.
        -- intros i l' Hi' Hl'. destruct i as [|i]; cbn in Hl'; [congruence|].
           eapply Hi; [|done]. lia.
      * intros (Hn & (l & Hl & Bl) & Hi).
        destruct (decide (m = n)) as [->|Hne].
        { rewrite Nat.sub_diag in Hl. cbn in Hl. congruence. }
        split; [lia|]. split.
        -- exists l. replace (m - n)%nat with (S (m - S n)) in Hl by lia. done.
        -- intros i l' Hi' Hl'. apply (Hi (S i)); [lia|done].
    + split.
      * intros [= ->]. split; [lia|]. rewrite Nat.sub_diag. split; [by exists l0|].
        intros i l Hi. lia.
      * intros (Hn & (l & Hl & Bl) & Hi).
        destruct (decide (m = n)) as [->|Hne]; [done|].
        rewrite (Hi 0%nat l0) in B; [done|lia|done].
Qed.

Lemma first_non_blank_None ls n :
  first_non_blank ls n = None <-> forall i l, ls !! i = Some l -> is_blank (text l) = true.
Proof.
  revert n. induction ls as [|l0 ls IH]; intros n; cbn [first_non_blank].
  - split; [|done]. intros _ i l. by rewrite lookup_nil.
  - destruct (is_blank (text l0)) eqn:B.
    + rewrite IH. split.
      * intros H [|i] l Hl; cbn in Hl; [congruence|by eapply H].
      * intros H i l Hl. by apply (H (S i)).
    + split; [done|]. intros H. by rewrite (H 0%nat l0) in B.
Qed.

Lemma next_non_blank_Some d j m :
  next_non_blank d j = Some m
  <-> (j < m)%nat /\ is_blank (text_of d m) = false /\ blank_between d j m.
Proof.
  unfold next_non_blank. rewrite first_non_blank_Some. unfold blank_between.
  split.
  - intros (Hm & (l & Hl & Bl) & Hi).
    rewrite lookup_drop in Hl. replace (S j + (m - S j))%nat with m in Hl by lia.
    repeat split; [lia|by rewrite (text_of_lookup _ _ _ Hl)|].
    intros i Hj. destruct (d !! i) as [l'|] eqn:E.
    + rewrite (text_of_lookup _ _ _ E). apply (Hi (i - S j)%nat); [lia|].
      rewrite lookup_drop. by replace (S j + (i - S j))%nat with i by lia.
    + by rewrite text_of_invalid.
  - intros (Hm & Bm & Hb). split; [lia|]. split.
    + pose proof (non_blank_valid _ _ Bm) as Hv.
      apply lookup_lt_is_Some in Hv as [l Hl]. exists l.
      rewrite lookup_drop. replace (S j + (m - S j))%nat with m by lia.
      by rewrite (text_of_lookup _ _ _ Hl) in Bm.
    + intros i l Hi. rewrite lookup_drop. intros Hl.
      rewrite <- (text_of_lookup _ _ _ Hl). apply Hb. lia.
Qed.

Lemma next_non_blank_None d j :
  next_non_blank d j = None
  <-> forall i, (j < i)%nat -> is_blank (text_of d i) = true.
Proof.
  unfold next_non_blank. rewrite first_non_blank_None. split.
  - intros H i Hi. destruct (d !! i) as [l|] eqn:E.
    + rewrite (text_of_lookup _ _ _ E). apply (H (i - S j)%nat).
      rewrite lookup_drop. by replace (S j + (i - S j))%nat with i by lia.
    + by rewrite text_of_invalid.
  - intros H i l. rewrite lookup_drop. intros Hl.
    rewrite <- (text_of_lookup _ _ _ Hl). apply H. lia.
Qed.

Lemma texts_next_non_blank d d' j :
  texts d = texts d' -> next_non_blank d j = next_non_blank d' j.
Proof.
  intros Ht.
  destruct (next_non_blank d' j) as [m|] eqn:E.
  - apply next_non_blank_Some. apply next_non_blank_Some in E as (? & ? & Hb).
    rewrite (texts_text_of d d') by done. repeat split; [done|done|].
    intros i Hi. rewrite (texts_text_of d d') by done. by apply Hb.
  - apply next_non_blank_None. intros i Hi.
    rewrite (texts_text_of d d') by done.
    by eapply next_non_blank_None in E.
Qed.

Lemma fixed_level_le_max raw prev : fixed_level raw prev <= Z.max prev raw.
Proof.
  unfold fixed_level.
  destruct (Z.gtb_spec (Z.abs (raw - prev)) 1), (Z.gtb_spec raw prev);
    cbn [andb]; lia.
Qed.

(** ** The fold levels after a pass *)

(** C1, the claim as stated fails: after the pass over a document whose
last line closes two scopes at once, two neighbouring non-blank lines have
fold levels 2 and 0. *)
Lemma dedent_by_two_not_contiguous :
  ~ contiguous (@rehighlight (IndentFoldDetector 4) dedent_by_two).
Proof.
  intros H. specialize (H 2%nat eq_refl eq_refl). vm_compute in H.
  destruct H as [H _]. by apply H.
Qed.

(** C1, amended: after the pass, the fold level of a non-blank line is at
most one more than the level of the previous non-blank line (with or
without blank lines between them); a detected level above that is brought
down to the level of the previous non-blank line plus one, and any other
detected level is kept as it is, however far below. *)
Theorem fold_level_rises_by_one `{FoldDetector} (d : document) (p n : nat) :
  (p < n)%nat ->
  is_blank (text_of d p) = false -> is_blank (text_of d n) = false ->
  blank_between d p n ->
  let d' := rehighlight d in
  level_of d' n - level_of d' p <= 1
  /\ (detected_at d n > level_of d' p + 1 -> level_of d' n = level_of d' p + 1)
  /\ (detected_at d n <= level_of d' p + 1 -> level_of d' n = detected_at d n).
Proof.
  intros Hpn Bp Bn Hb d'. subst d'. unfold rehighlight.
  pose proof (non_blank_valid _ _ Bn) as Hn.
  rewrite (pass_level_non_blank d (length d) n) by (done || lia).
  assert (prev_level (highlight_upto d (length d)) n
          = level_of (highlight_upto d (length d)) p) as ->.
  { unfold prev_level. rewrite pass_find_prev by lia.
    by rewrite (find_prev_intro d n p). }
  set (lp := level_of _ p). set (raw := detected_at d n).
  pose proof (fixed_level_le raw lp).
  split; [lia|]. split; intros Hr.
  - by apply fixed_level_clamped.
  - by apply fixed_level_kept.
Qed.

Lemma fold_level_rises_by_one_witness :
  let d' := @rehighlight (IndentFoldDetector 4) scenario1 in
  level_of d' 1 - level_of d' 0 <= 1.
Proof.
  refine (proj1 (@fold_level_rises_by_one (IndentFoldDetector 4) scenario1
                   0%nat 1%nat _ eq_refl eq_refl _)).
  - lia.
  - intros i Hi. lia.
Defined.

(** C3, the claim as stated fails: the blank line between a line and its
indented body ends at the level of the body, not at the level of the line
before it. *)
Lemma blank_gap_not_inherited :
  ~ blank_lines_inherit (@rehighlight (IndentFoldDetector 4) blank_gap).
Proof.
  intros H. specialize (H 1%nat). vm_compute in H.
  specialize (H ltac:(lia) eq_refl). done.
Qed.

(** C3, amended: after the pass, a blank line has the fold level of the
previous non-blank line (0 without one), unless the next non-blank line is
deeper than that line: the blank line then has the fold level of that next
line.  The case of a next non-blank line that is detected more than one level
above the previous non-blank line, whose level the pass repairs, is left
out. *)
Theorem blank_line_fold_level `{FoldDetector} (d : document) (j : nat) :
  (j < length d)%nat -> is_blank (text_of d j) = true ->
  let d' := rehighlight d in
  (forall m, next_non_blank d' j = Some m ->
     detected_at d m <= prev_level d' j + 1 ->
     level_of d' j = Z.max (prev_level d' j) (level_of d' m))
  /\ (next_non_blank d' j = None -> level_of d' j = prev_level d' j).
Proof.
  intros Hj Bj d'. subst d'. unfold rehighlight.
  rewrite (texts_next_non_blank _ d) by (by apply highlight_upto_texts).
  destruct (pass_level_blank d (length d) j ltac:(lia) Hj Bj) as [H1 H2].
  split.
  - intros m E Hle.
    apply next_non_blank_Some in E as (Hm & Bm & Hb).
    pose proof (non_blank_valid _ _ Bm) as Hv.
    rewrite (H1 m) by (done || lia).
    rewrite (pass_level_non_blank d (length d) m) by (done || lia).
    assert (prev_level (highlight_upto d (length d)) m
            = prev_level (highlight_upto d (length d)) j) as ->.
    { unfold prev_level. rewrite !pass_find_prev by lia.
      by rewrite (find_prev_skip_blank d j m). }
    by rewrite fixed_level_kept.
  - intros E. apply H2. intros i Hi.
    eapply next_non_blank_None in E; [done|lia].
Qed.

Lemma blank_line_fold_level_witness :
  let d' := @rehighlight (IndentFoldDetector 4) blank_gap in
  level_of d' 1 = Z.max (prev_level d' 1) (level_of d' 2).
Proof.
  refine (proj1 (@blank_line_fold_level (IndentFoldDetector 4) blank_gap 1%nat
                   _ eq_refl) 2%nat eq_refl _).
  - vm_compute. lia.
  - vm_compute. discriminate.
Defined.

(** ** The fold triggers after a pass *)

(** After the pass, the next non-blank line after a blank line is never
deeper than the blank line. *)
Lemma rehighlight_blank_not_shallower `{FoldDetector} (d : document) (j m : nat) :
  is_blank (text_of d j) = true ->
  next_non_blank d j = Some m ->
  level_of (rehighlight d) m <= level_of (rehighlight d) j.
Proof.
  intros Bj (Hm & Bm & Hb)%next_non_blank_Some. unfold rehighlight.
  pose proof (non_blank_valid _ _ Bm) as Hv.
  destruct (pass_level_blank d (length d) j ltac:(lia) ltac:(lia) Bj) as [H1 _].
  rewrite (H1 m) by (done || lia).
  rewrite (pass_level_non_blank d (length d) m) by (done || lia).
  assert (prev_level (highlight_upto d (length d)) m
          = prev_level (highlight_upto d (length d)) j) as ->.
  { unfold prev_level. rewrite !pass_find_prev by lia.
    by rewrite (find_prev_skip_blank d j m). }
  apply fixed_level_le_max.
Qed.

Lemma rehighlight_trigger_iff `{FoldDetector} (d : document) (j : nat) :
  (forall i, trigger_of d i = false) ->
  trigger_of (rehighlight d) j = true
  <-> exists m, next_non_blank (rehighlight d) j = Some m
                /\ level_of (rehighlight d) m > level_of (rehighlight d) j.
Proof.
  intros H0.
  assert (texts (rehighlight d) = texts d) as Ht
    by (by apply highlight_upto_texts).
  rewrite (texts_next_non_blank _ d) by done.
  destruct (pass_trigger d H0 (length d) j ltac:(lia)) as [Tb Tn].
  fold (rehighlight d) in Tb, Tn.
  destruct (is_blank (text_of d j)) eqn:Bj.
  - rewrite Tb by done. split; [done|]. intros (m & E & Hl).
    pose proof (rehighlight_blank_not_shallower d j m Bj E). lia.
  - destruct (Tn eq_refl) as [T1 T2].
    destruct (next_non_blank d j) as [m|] eqn:E.
    + apply next_non_blank_Some in E as (Hm & Bm & Hb).
      pose proof (non_blank_valid _ _ Bm) as Hv.
      rewrite (T1 m) by (done || lia). rewrite Z.gtb_gt. split.
      * intros Hl. by exists m.
      * by intros (m' & [= <-] & Hl).
    + rewrite T2.
      * split; [done|]. by intros (m & ? & _).
      * intros i Hi. eapply next_non_blank_None in E; [done|lia].
Qed.

Lemma new_document_no_trigger (lines : list string) i :
  trigger_of (new_document lines) i = false.
Proof.
  unfold trigger_of, TextBlockHelper.is_fold_trigger, new_document.
  cbn [mbind option_bind QTextBlock.line]. rewrite list_lookup_fmap.
  by destruct (lines !! i).
Qed.

(** The trigger flags during a pass over any document: the flag of a blank
line is cleared when the line after it is processed, the flag of a line that
is not blank is written when the next line that is not blank is processed,
and no other flag changes. *)
Lemma pass_trigger_any `{FoldDetector} (d : document) k j :
  (k <= length d)%nat ->
  (is_blank (text_of d j) = true ->
     trigger_of (highlight_upto d k) j
     = if (S j <? k)%nat then false else trigger_of d j)
  /\ (is_blank (text_of d j) = false ->
      (forall m, (j < m < k)%nat -> is_blank (text_of d m) = false ->
         blank_between d j m ->
         trigger_of (highlight_upto d k) j
         = (level_of (highlight_upto d k) m >? level_of (highlight_upto d k) j))
      /\ (blank_between d j k ->
          trigger_of (highlight_upto d k) j = trigger_of d j)).
Proof.
  induction k as [|k IH]; intros Hk.
  { cbn [highlight_upto]. split; [done|]. intros _. split; [|done].
    intros m Hm. lia. }
  cbn [highlight_upto].
  assert (k < length (highlight_upto d k))%nat as Hlen
    by (rewrite highlight_upto_length; lia).
  destruct (IH ltac:(lia)) as [IHb IHn].
  rewrite highlight_block_trigger by done.
  rewrite !pass_text, pass_find_prev by lia.
  split.
  - intros Bj. rewrite Bj, andb_true_r.
    case_bool_decide as Ej.
    { subst k. by rewrite (proj2 (Nat.ltb_lt (S j) (S (S j)))) by lia. }
    case_bool_decide as E.
    { apply find_prev_Some in E as (p & [= <-] & _ & Hp & _). congruence. }
    cbn [andb]. rewrite (IHb Bj).
    destruct (Nat.ltb_spec (S j) k), (Nat.ltb_spec (S j) (S k)); (done || lia).
  - intros Bj. rewrite Bj, andb_false_r.
    destruct (IHn Bj) as [IH1 IH2]. split.
    + intros m Hm Bm Hb.
      rewrite (highlight_block_level_non_blank _ k j);
        [|done|lia|by rewrite pass_text by lia].
      destruct (decide (m = k)) as [->|Hmk].
      * rewrite bool_decide_true by (apply find_prev_intro; (done || lia)).
        rewrite Bm. cbn [negb andb].
        rewrite highlight_block_level by done. cbn zeta.
        rewrite bool_decide_true by done.
        rewrite pass_text, pass_find_prev by lia.
        assert (prev_level (highlight_upto d k) k
                = level_of (highlight_upto d k) j) as <-.
        { unfold prev_level. rewrite pass_find_prev by lia.
          by rewrite (find_prev_intro d k j) by (done || lia). }
        by rewrite fixed_level_gt.
      * rewrite bool_decide_false.
        2:{ intros (p & [= <-] & _ & _ & Hp)%find_prev_Some.
            rewrite Hp in Bm; [done|lia]. }
        cbn [andb].
        rewrite (highlight_block_level_non_blank _ k m);
          [|done|lia|by rewrite pass_text by lia].
        apply IH1; [lia|done|done].
    + intros Hb. destruct (decide (j < k)%nat) as [Hjk|Hjk].
      * rewrite (Hb k) by lia. cbn [negb]. rewrite andb_false_r.
        apply IH2. intros i Hi. apply Hb. lia.
      * rewrite bool_decide_false.
        2:{ intros (p & [= <-] & Hp & _)%find_prev_Some. lia. }
        cbn [andb]. apply IH2. intros i Hi. lia.
Qed.

(** C2, the claim as stated fails: a line that holds a trigger flag from an
earlier pass and has no line that is not blank after it is still a trigger
after the pass, without any deeper line after it. *)
Lemma stale_trigger_survives :
  ~ triggers_as_claimed (@rehighlight (IndentFoldDetector 4) stale_trigger).
Proof.
  intros H. destruct (proj1 (H 0%nat) eq_refl) as (m & E & _).
  vm_compute in E. discriminate E.
Qed.

(** C2, amended: after a full pass over any document, a line with a line
that is not blank after it is a trigger if and only if the next such line has
a strictly greater fold level; a blank line that is not the last line is no
trigger; a line without any line that is not blank after it is no trigger
when it was none before the pass, so that on a document without triggers
before the pass the equivalence holds for every line.  When blank lines
separate a line from a deeper next non-blank line, the trigger is the line
before the blank lines and none of the blank lines is a trigger.  What the
pass does with a trigger flag that a line without any non-blank line after
it holds before the pass is left out. *)
Theorem trigger_iff_next_non_blank_deeper `{FoldDetector} (d : document) :
  let d' := rehighlight d in
  (forall j m, next_non_blank d' j = Some m ->
     (trigger_of d' j = true <-> level_of d' m > level_of d' j))
  /\ (forall j, is_blank (text_of d' j) = true -> (S j < length d')%nat ->
        trigger_of d' j = false)
  /\ (forall j, next_non_blank d' j = None -> trigger_of d j = false ->
        trigger_of d' j = false)
  /\ ((forall i, trigger_of d i = false) -> triggers_as_claimed d')
  /\ (forall p n, (S p < n)%nat ->
        is_blank (text_of d' p) = false -> is_blank (text_of d' n) = false ->
        blank_between d' p n -> level_of d' n > level_of d' p ->
        trigger_of d' p = true
        /\ forall i, (p < i < n)%nat -> trigger_of d' i = false).
Proof.
  intros d'.
  assert (texts d' = texts d) as Ht by (by apply highlight_upto_texts).
  assert (length d' = length d) as Hlen by (by apply texts_length).
  assert (forall j m, next_non_blank d' j = Some m ->
            (trigger_of d' j = true <-> level_of d' m > level_of d' j)) as P1.
  { intros j m E. rewrite (texts_next_non_blank _ d) in E by done.
    pose proof E as (Hm & Bm & Hb)%next_non_blank_Some.
    pose proof (non_blank_valid _ _ Bm) as Hv.
    destruct (pass_trigger_any d (length d) j ltac:(lia)) as [Tb Tn].
    fold (rehighlight d) in Tb, Tn. fold d' in Tb, Tn.
    destruct (is_blank (text_of d j)) eqn:Bj.
    - rewrite (Tb eq_refl), (proj2 (Nat.ltb_lt _ _)) by lia.
      pose proof (rehighlight_blank_not_shallower d j m Bj E) as Hle.
      fold d' in Hle. split; [done|lia].
    - destruct (Tn eq_refl) as [T1 _].
      rewrite (T1 m) by (done || lia). by rewrite Z.gtb_gt. }
  assert (forall j, is_blank (text_of d' j) = true -> (S j < length d')%nat ->
            trigger_of d' j = false) as P2.
  { intros j Bj Hj. rewrite (texts_text_of _ _ j Ht) in Bj.
    destruct (pass_trigger_any d (length d) j ltac:(lia)) as [Tb _].
    fold (rehighlight d) in Tb. fold d' in Tb.
    by rewrite (Tb Bj), (proj2 (Nat.ltb_lt _ _)) by lia. }
  assert (forall j, next_non_blank d' j = None -> trigger_of d j = false ->
            trigger_of d' j = false) as P3.
  { intros j E T0. rewrite (texts_next_non_blank _ d) in E by done.
    destruct (pass_trigger_any d (length d) j ltac:(lia)) as [Tb Tn].
    fold (rehighlight d) in Tb, Tn. fold d' in Tb, Tn.
    destruct (is_blank (text_of d j)) eqn:Bj.
    - rewrite (Tb eq_refl), T0. by destruct (_ <? _)%nat.
    - destruct (Tn eq_refl) as [_ T2]. rewrite T2; [done|].
      intros i Hi. eapply next_non_blank_None in E; [done|lia]. }
  split; [done|]. split; [done|]. split; [done|]. split.
  - intros H0 j. split.
    + intros T. destruct (next_non_blank d' j) as [m|] eqn:E.
      * exists m. split; [done|]. by apply (P1 j m E).
      * rewrite (P3 j E (H0 j)) in T. done.
    + intros (m & E & Hl). by apply (P1 j m E).
  - intros p n Hpn Bp Bn Hb Hl. split.
    + apply (P1 p n); [|done].
      apply next_non_blank_Some. split; [lia|]. by split.
    + intros i Hi. apply P2; [apply Hb; lia|].
      pose proof (non_blank_valid _ _ Bn). lia.
Qed.

Lemma trigger_iff_next_non_blank_deeper_witness :
  let d' := @rehighlight (IndentFoldDetector 4) (new_document ["a"; ""; "    b"]) in
  trigger_of d' 0 = true /\ forall i, (0 < i < 2)%nat -> trigger_of d' i = false.
Proof.
  refine (proj2 (proj2 (proj2 (proj2
            (@trigger_iff_next_non_blank_deeper (IndentFoldDetector 4)
               (new_document ["a"; ""; "    b"])))))
            0%nat 2%nat _ eq_refl eq_refl _ _).
  - lia.
  - intros i Hi. assert (i = 1%nat) as -> by lia. reflexivity.
  - reflexivity.
Defined.

(** ** The first scenario *)

(** C4: the pass of the indentation detector with a tab width of 4 over
the four lines of the scenario gives the fold levels 0, 1, 1, 0; line 0 is
a trigger and is not collapsed; the range of its scope is (0, 2). *)
Theorem scenario1_fold_levels :
  fold_level <$> scenario1_folding = [0; 1; 1; 0]
  /\ trigger_of scenario1_folding 0 = true
  /\ Scope.init scenario1_folding (Blk 0) = inr scope0
  /\ Scope.collapsed scenario1_folding scope0 = false
  /\ Scope.get_range scenario1_folding scope0 true = (0, 2).
Proof. by vm_compute. Qed.

(** ** The construction of a scope *)

(** C9: the construction of a scope from a block that is not a trigger
fails with the error of the constructor, [ValueError] in the source, and
succeeds on a trigger; it is a function of the document and hands no
document back.  In the first scenario it fails on line 1. *)
Theorem fold_scope_needs_trigger (d : document) (b : block) :
  (TextBlockHelper.is_fold_trigger d (Some b) = false ->
   Scope.init d b = inl (ValueError "Not a fold trigger"))
  /\ (TextBlockHelper.is_fold_trigger d (Some b) = true ->
      Scope.init d b = inr (mkFoldScope b))
  /\ Scope.init scenario1_folding (Blk 1) = inl (ValueError "Not a fold trigger").
Proof.
  unfold Scope.init. repeat split.
  - by intros ->.
  - by intros ->.
Qed.

Lemma fold_scope_needs_trigger_witness :
  Scope.init scenario1_folding (Blk 2) = inl (ValueError "Not a fold trigger")
  /\ Scope.init scenario1_folding (Blk 0) = inr scope0.
Proof.
  split.
  - exact (proj1 (fold_scope_needs_trigger scenario1_folding (Blk 2)) eq_refl).
  - exact (proj1 (proj2 (fold_scope_needs_trigger scenario1_folding (Blk 0)))
             eq_refl).
Defined.

(** ** The debug dump *)

Lemma next_block_at d k : QTextBlock.next d (Blk k) = block_at d (S k).
Proof. done. Qed.

Lemma block_at_valid d k : (k < length d)%nat -> block_at d k = Blk k.
Proof. intros H. unfold block_at. by rewrite (proj2 (isValid_lt d k)). Qed.

Lemma block_at_invalid d k : (length d <= k)%nat -> block_at d k = EndBlk.
Proof. intros H. unfold block_at. by rewrite (proj2 (isValid_ge d k)). Qed.

Lemma print_tree_from_records (d : document) print_blocks fuel k :
  (length d - k <= fuel)%nat ->
  print_tree_from d print_blocks fuel (block_at d k)
  = omap id (imap (fun i => printed_record print_blocks (k + i)) (drop k d)).
Proof.
  revert k. induction fuel as [|fuel IH]; intros k Hk.
  - rewrite drop_ge by lia. done.
  - destruct (decide (k < length d)%nat) as [Hlt|Hge].
    + rewrite block_at_valid by done. cbn [print_tree_from].
      rewrite (proj2 (isValid_lt d k)) by done.
      rewrite next_block_at, IH by lia.
      destruct (lookup_lt_is_Some_2 d k Hlt) as [l Hl].
      rewrite (drop_S _ _ _ Hl). cbn [imap omap].
      unfold TextBlockHelper.is_fold_trigger, TextBlockHelper.get_fold_lvl,
        TextBlockHelper.get_fold_trigger_state, QTextBlock.isVisible,
        QTextBlock.blockNumber.
      rewrite (proj2 (isValid_lt d k)) by done.
      cbn [mbind option_bind QTextBlock.line]. rewrite Hl.
      rewrite Nat.add_0_r.
      assert (imap ((fun i => printed_record print_blocks (k + i)) ∘ S)
                (drop (S k) d)
              = imap (fun i => printed_record print_blocks (S k + i))
                  (drop (S k) d)) as ->.
      { apply imap_ext. intros i x _. cbn. f_equal. lia. }
      set (rest := imap _ (drop (S k) d)).
      unfold printed_record, record.
      destruct (is_trigger l), print_blocks; done.
    + rewrite block_at_invalid, drop_ge by lia. cbn [print_tree_from].
      done.
Qed.

(** C10, the claim as stated fails: in the first scenario, where line 0 is
an expanded trigger, the dump has one record, not four, unless
[print_blocks] is set, and the record of line 0 carries [-], not [+]. *)
Lemma print_tree_not_as_claimed :
  print_tree scenario1_folding false <> imap record_as_claimed scenario1_folding
  /\ print_tree scenario1_folding true <> imap record_as_claimed scenario1_folding
  /\ print_tree scenario1_folding false = ["l1:0-V"].
Proof. by vm_compute. Qed.

(** C10, amended: [print_tree] with [print_blocks] set prints one record
for every line, in document order, and without it (the default) the records
of the trigger lines only; a record is [l<N>:<level><mark><visibility>],
with N the line number counted from 1, the mark [+] on a collapsed trigger,
[-] on an expanded trigger and none on another line, and the visibility
[V] or [I].  The dump is a function of the document and hands no document
back. *)
Theorem print_tree_records (d : document) :
  print_tree d true = imap record d
  /\ forall print_blocks,
       print_tree d print_blocks = omap id (imap (printed_record print_blocks) d).
Proof.
  assert (forall print_blocks,
            print_tree d print_blocks
            = omap id (imap (printed_record print_blocks) d)) as H.
  { intros pb. unfold print_tree, QTextBlock.firstBlock,
      QTextBlock.findBlockByNumber.
    replace (if (0 <=? 0) && (0 <? Z.of_nat (length d))
             then Blk (Z.to_nat 0) else EndBlk) with (block_at d 0).
    - rewrite print_tree_from_records by lia. done.
    - destruct d; done. }
  split; [|done]. rewrite H. unfold printed_record.
  clear H. generalize record.
  induction d as [|l ls IH]; intros f; [done|].
  cbn [imap omap list_omap]. rewrite orb_true_r. cbn [id]. f_equal.
  apply (IH (f ∘ S)).
Qed.

(** ** Enter pressed at the beginning of a trigger line *)

Lemma trigger_of_lookup (d : document) n :
  trigger_of d n = from_option is_trigger false (d !! n).
Proof. done. Qed.

Lemma collapsed_of_lookup (d : document) n :
  collapsed_of d n = from_option trigger_collapsed false (d !! n).
Proof. done. Qed.

Lemma level_of_lookup (d : document) n :
  level_of d n = from_option fold_level 0 (d !! n).
Proof. done. Qed.

Lemma visible_of_lookup (d : document) n :
  visible_of d n = from_option visible true (d !! n).
Proof. done. Qed.

(** [update_levels] leaves the flags of a line alone that is neither the
previous block nor the previous non-blank line. *)
Lemma update_levels_flags `{FoldDetector} (d : document) n pb txt i :
  (n < length d)%nat ->
  pb <> Some (Blk i) -> find_prev_non_blank_block d n <> Some (Blk i) ->
  trigger_of (update_levels d n pb txt) i = trigger_of d i
  /\ collapsed_of (update_levels d n pb txt) i = collapsed_of d i.
Proof.
  intros Hn Hpb Hfp.
  rewrite !trigger_of_lookup, !collapsed_of_lookup, update_levels_lookup by done.
  unfold update_levels_line.
  rewrite (bool_decide_false (pb = Some (Blk i))),
    (bool_decide_false (find_prev_non_blank_block d n = Some (Blk i))) by done.
  rewrite !andb_false_r.
  destruct (d !! i) as [l|]; [|done]. cbn.
  destruct (_ && _), (bool_decide _); done.
Qed.

(** C8, the claim as stated fails: line 1 is blank, a trigger and
collapsed, line 2 is the current line and is not blank; after
[process_block] the current line holds the collapsed state but is no
trigger. *)
Lemma enter_pressed_trigger_flag_not_moved :
  let d' := @highlight_block (IndentFoldDetector 4) enter_pressed 2 in
  is_blank (text_of enter_pressed 1) = true
  /\ trigger_of enter_pressed 1 = true
  /\ is_blank (text_of enter_pressed 2) = false
  /\ collapsed_of d' 2 = true
  /\ trigger_of d' 2 <> true.
Proof. by vm_compute. Qed.

(** C8, amended: when the line right before the current line is blank and
marked as a trigger, and is not the previous block handed to
[process_block], the collapsed state of that blank line is moved onto the
current line and the trigger flag and the collapsed state of the blank line
are cleared; the trigger flag of the current line stays as it was. *)
Theorem enter_pressed_moves_collapsed_state `{FoldDetector}
    (d : document) (n : nat) (previous_block : option block) (txt : string) :
  (S n < length d)%nat ->
  is_blank (text_of d n) = true -> trigger_of d n = true ->
  previous_block <> Some (Blk n) -> previous_block <> Some (Blk (S n)) ->
  let d' := process_block d (S n) previous_block txt in
  collapsed_of d' (S n) = collapsed_of d n
  /\ trigger_of d' n = false
  /\ collapsed_of d' n = false
  /\ trigger_of d' (S n) = trigger_of d (S n).
Proof.
  intros Hn Bn Tn Hpn Hps d'. subst d'. unfold process_block.
  set (d1 := update_levels d (S n) previous_block txt).
  assert (texts d1 = texts d) as Ht by (apply update_levels_texts; lia).
  assert (find_prev_non_blank_block d (S n) <> Some (Blk n)) as Hfn.
  { intros (p & [= <-] & _ & Bp & _)%find_prev_Some. congruence. }
  assert (find_prev_non_blank_block d (S n) <> Some (Blk (S n))) as Hfs.
  { intros (p & [= <-] & Hp & _)%find_prev_Some. lia. }
  destruct (update_levels_flags d (S n) previous_block txt n
              ltac:(lia) Hpn Hfn) as [T1 C1].
  destruct (update_levels_flags d (S n) previous_block txt (S n)
              ltac:(lia) Hps Hfs) as [T2 _].
  fold d1 in T1, C1, T2. rewrite <- C1, <- T2.
  rewrite !trigger_of_lookup, !collapsed_of_lookup.
  rewrite !(move_trigger_state_lookup d1 (S n) n)
    by (rewrite ?(texts_length _ _ Ht); done).
  rewrite (texts_text_of _ _ n Ht), Bn, T1, Tn. cbn [andb].
  unfold move_trigger_state_line.
  rewrite (bool_decide_true (S n = S n)), (bool_decide_true (n = n)),
    (bool_decide_false (S n = n)), (bool_decide_false (n = S n)) by lia.
  assert (is_Some (d1 !! n)) as [l Hl]
    by (apply lookup_lt_is_Some; rewrite (texts_length _ _ Ht); lia).
  assert (is_Some (d1 !! S n)) as [l' Hl']
    by (apply lookup_lt_is_Some; rewrite (texts_length _ _ Ht); lia).
  rewrite collapsed_of_lookup, Hl, Hl'. done.
Qed.

Lemma enter_pressed_moves_collapsed_state_witness :
  let d' := @process_block (IndentFoldDetector 4) enter_pressed 2
              (Some (Blk 0)) "b:" in
  collapsed_of d' 2 = collapsed_of enter_pressed 1
  /\ trigger_of d' 1 = false
  /\ collapsed_of d' 1 = false
  /\ trigger_of d' 2 = trigger_of enter_pressed 2.
Proof.
  refine (@enter_pressed_moves_collapsed_state (IndentFoldDetector 4)
            enter_pressed 1%nat (Some (Blk 0)) "b:" _ eq_refl eq_refl _ _).
  - vm_compute. lia.
  - discriminate.
  - discriminate.
Defined.

(** ** The range of a scope *)

Lemma blockNumber_valid d n :
  (n < length d)%nat -> QTextBlock.blockNumber d (Blk n) = Z.of_nat n.
Proof.
  intros H. unfold QTextBlock.blockNumber. by rewrite (proj2 (isValid_lt d n)).
Qed.

Lemma blockNumber_block_at d k :
  QTextBlock.blockNumber d (block_at d k)
  = if decide (k < length d)%nat then Z.of_nat k else -1.
Proof.
  case_decide.
  - rewrite block_at_valid by done. by apply blockNumber_valid.
  - rewrite block_at_invalid by lia. done.
Qed.

(** The first loop of [get_range] leaves the last line as it is or moves it
onto a block it went over. *)
Lemma scan_last d ref_lvl fuel k last :
  (Scope.scan d ref_lvl fuel (block_at d k) last).2 = last
  \/ Z.of_nat k <= (Scope.scan d ref_lvl fuel (block_at d k) last).2
                < Z.of_nat (length d).
Proof.
  revert k last. induction fuel as [|fuel IH]; intros k last; [by left|].
  cbn [Scope.scan].
  destruct (decide (k < length d)%nat) as [Hk|Hk].
  - rewrite block_at_valid by done.
    rewrite (proj2 (isValid_lt d k)) by done. cbn [andb].
    destruct (_ >? _); [|by left].
    rewrite next_block_at, blockNumber_valid by done.
    destruct (IH (S k) (Z.of_nat k)) as [-> | ?]; right; lia.
  - rewrite block_at_invalid by lia. by left.
Qed.

(** More fuel than there are blocks left does not change the first loop. *)
Lemma scan_fuel d ref_lvl fuel extra k last :
  (length d - k <= fuel)%nat ->
  Scope.scan d ref_lvl (fuel + extra) (block_at d k) last
  = Scope.scan d ref_lvl fuel (block_at d k) last.
Proof.
  revert k last. induction fuel as [|fuel IH]; intros k last Hk.
  - rewrite block_at_invalid by lia. by destruct extra.
  - cbn [Nat.add Scope.scan].
    destruct (_ && _); [|done].
    destruct (decide (k < length d)%nat) as [Hlt|Hge].
    + rewrite block_at_valid by done. rewrite next_block_at. apply IH. lia.
    + rewrite block_at_invalid by lia. cbn [QTextBlock.next].
      rewrite <- (block_at_invalid d (S k)) by lia. apply IH. lia.
Qed.

(** The second loop of [get_range] stops on a non-blank line at the
latest. *)
Lemma trim_bounds d t fuel n :
  is_blank (text_of d t) = false -> (t <= n)%nat -> (n < length d)%nat ->
  Z.of_nat t <= Scope.trim d fuel (Blk n) (Z.of_nat n) <= Z.of_nat n.
Proof.
  intros Bt. revert n. induction fuel as [|fuel IH]; intros n Htn Hn; [cbn; lia|].
  cbn [Scope.trim]. rewrite blockNumber_valid by done.
  fold (text_of d n). destruct (is_blank (text_of d n)) eqn:Bn;
    [|rewrite andb_false_r; lia].
  assert (t <> n) by congruence.
  destruct n as [|n]; [lia|].
  rewrite (proj2 (Z.eqb_neq (Z.of_nat (S n)) 0)) by lia. cbn [negb andb].
  cbn [QTextBlock.previous]. rewrite (proj2 (isValid_lt d (S n))) by done.
  rewrite blockNumber_valid by lia.
  specialize (IH n ltac:(lia) ltac:(lia)). lia.
Qed.

(** More fuel than the number of the block does not change the second
loop. *)
Lemma trim_fuel d fuel extra n last :
  (n < fuel)%nat -> (n < length d)%nat ->
  Scope.trim d (fuel + extra) (Blk n) last = Scope.trim d fuel (Blk n) last.
Proof.
  revert n last. induction fuel as [|fuel IH]; intros n last Hn Hv; [lia|].
  cbn [Nat.add Scope.trim]. rewrite blockNumber_valid by done.
  destruct (_ && _) eqn:E; [|done].
  destruct n as [|n]; [done|].
  cbn [QTextBlock.previous]. rewrite (proj2 (isValid_lt d (S n))) by done.
  apply IH; lia.
Qed.




(** ** Folding a scope *)

Lemma walk_setVisible (d : document) last v fuel k (acc : document) j :
  (length d - k <= fuel)%nat ->
  Scope.walk (fun a b => QTextBlock.setVisible a b v) d last fuel
    (block_at d k) acc !! j
  = if bool_decide (k <= j < length d)%nat && (Z.of_nat j <=? last)
    then with_visible v <$> acc !! j else acc !! j.
Proof.
  revert k acc. induction fuel as [|fuel IH]; intros k acc Hk.
  - cbn [Scope.walk]. rewrite bool_decide_false by lia. done.
  - cbn [Scope.walk]. rewrite blockNumber_block_at.
    destruct (decide (k < length d)%nat) as [Hlt|Hge].
    + rewrite block_at_valid by done.
      rewrite (proj2 (isValid_lt d k)) by done. rewrite andb_true_r.
      destruct (Z.leb_spec (Z.of_nat k) last) as [Hle|Hgt].
      * rewrite next_block_at, IH by lia. rewrite setVisible_lookup.
        destruct (decide (j = k)) as [->|Hne].
        -- rewrite (bool_decide_false (S k <= k < length d)%nat) by lia.
           rewrite (bool_decide_true (k <= k < length d)%nat) by lia.
           rewrite decide_True by done. cbn [andb].
           by rewrite (proj2 (Z.leb_le _ _)) by lia.
        -- rewrite decide_False by congruence.
           destruct (decide (S k <= j < length d)%nat).
           ++ rewrite !bool_decide_true by lia. done.
           ++ rewrite !bool_decide_false by lia. done.
      * destruct (decide (k <= j < length d)%nat).
        -- rewrite bool_decide_true by done. cbn [andb].
           by rewrite (proj2 (Z.leb_gt _ _)) by lia.
        -- by rewrite bool_decide_false by done.
    + rewrite block_at_invalid by lia.
      rewrite bool_decide_false by lia. cbn [QTextBlock.isValid QTextBlock.line].
      by rewrite andb_false_r.
Qed.

(** [fold], line by line. *)
Lemma fold_lookup (d : document) t j :
  (t < length d)%nat ->
  Scope.fold d (mkFoldScope (Blk t)) !! j
  = fold_line t (Scope.get_range d (mkFoldScope (Blk t)) true).2 j <$> d !! j.
Proof.
  intros Ht. unfold Scope.fold.
  destruct (Scope.get_range d (mkFoldScope (Blk t)) true) as [first last].
  cbn [_trigger snd]. rewrite next_block_at.
  rewrite set_fold_trigger_state_length.
  set (d1 := TextBlockHelper.set_fold_trigger_state d (Some (Blk t)) true).
  assert (length d1 = length d) as Hlen by apply set_fold_trigger_state_length.
  rewrite <- Hlen, walk_setVisible by lia. rewrite Hlen. unfold d1.
  rewrite set_fold_trigger_state_lookup. unfold fold_line.
  destruct (d !! j) as [l|] eqn:Hj.
  - apply lookup_lt_Some in Hj.
    destruct (decide (j = t)) as [->|Hne].
    + rewrite decide_True, (bool_decide_true (t = t)) by done.
      rewrite (bool_decide_false (S t <= t < length d)%nat),
        (bool_decide_false (t < t)%nat) by lia. done.
    + rewrite decide_False, (bool_decide_false (j = t)) by congruence.
      destruct (decide (t < j)%nat).
      * rewrite (bool_decide_true (S t <= j < length d)%nat),
          (bool_decide_true (t < j)%nat) by lia.
        destruct (_ <=? _); done.
      * rewrite (bool_decide_false (S t <= j < length d)%nat),
          (bool_decide_false (t < j)%nat) by lia. done.
  - repeat case_decide;
      repeat match goal with |- context [if ?c then _ else _] => destruct c end;
      done.
Qed.

(** C6: [fold] on the scope of a trigger line marks the trigger as
collapsed and hides the lines after the trigger line up to the last line of
the range; the trigger line keeps its visibility, every other line keeps its
visibility and its collapsed state, and no text, fold level or trigger flag
changes.  In the first scenario lines 1 and 2 are hidden, line 0 stays
visible and the scope is collapsed. *)
Theorem fold_hides_the_body (d : document) (t : nat) :
  (t < length d)%nat -> trigger_of d t = true ->
  let s := mkFoldScope (Blk t) in
  let d' := Scope.fold d s in
  let last := (Scope.get_range d s true).2 in
  (Scope.init d (Blk t) = inr s
   /\ Scope.collapsed d' s = true
   /\ visible_of d' t = visible_of d t
   /\ forall j, (j < length d)%nat ->
        visible_of d' j
        = (if bool_decide (t < j)%nat && (Z.of_nat j <=? last)
           then false else visible_of d j)
        /\ text_of d' j = text_of d j
        /\ level_of d' j = level_of d j
        /\ trigger_of d' j = trigger_of d j
        /\ (j <> t -> collapsed_of d' j = collapsed_of d j))
  /\ (visible <$> Scope.fold scenario1_folding scope0 = [true; false; false; true]
      /\ Scope.collapsed (Scope.fold scenario1_folding scope0) scope0 = true).
Proof.
  intros Ht Tt s d' last. split; [|by vm_compute].
  assert (forall j, d' !! j = fold_line t last j <$> d !! j) as Hd'
    by (intros j; by apply fold_lookup).
  split. { unfold Scope.init. fold (trigger_of d t). by rewrite Tt. }
  destruct (lookup_lt_is_Some_2 d t Ht) as [lt Hlt].
  split.
  { unfold Scope.collapsed, s. cbn [_trigger]. fold (collapsed_of d' t).
    rewrite collapsed_of_lookup, Hd', Hlt. unfold fold_line.
    rewrite (bool_decide_true (t = t)), (bool_decide_false (t < t)%nat) by lia.
    done. }
  split.
  { rewrite !visible_of_lookup, Hd', Hlt. unfold fold_line.
    rewrite (bool_decide_true (t = t)), (bool_decide_false (t < t)%nat) by lia.
    done. }
  intros j Hj. destruct (lookup_lt_is_Some_2 d j Hj) as [l Hl].
  unfold text_of, QTextBlock.text. cbn [QTextBlock.line].
  rewrite !visible_of_lookup, !level_of_lookup, !trigger_of_lookup,
    !collapsed_of_lookup, Hd', Hl.
  unfold fold_line. cbn [fmap option_fmap option_map from_option].
  destruct (bool_decide (t < j)%nat && (Z.of_nat j <=? last)),
    (bool_decide (j = t)) eqn:E; repeat split; try done.
  all: intros Hne; by apply bool_decide_eq_true in E.
Qed.

Lemma fold_hides_the_body_witness :
  Scope.collapsed (Scope.fold scenario1_folding scope0) scope0 = true
  /\ visible_of (Scope.fold scenario1_folding scope0) 0
     = visible_of scenario1_folding 0.
Proof.
  pose proof (proj1 (fold_hides_the_body scenario1_folding 0%nat
                       ltac:(vm_compute; lia) eq_refl)) as (_ & H1 & H2 & _).
  exact (conj H1 H2).
Defined.

(** ** The structure of a document *)

Lemma structure_lookup (d d' : document) j :
  structure d = structure d' ->
  match d !! j, d' !! j with
  | Some l, Some l' =>
      text l = text l' /\ fold_level l = fold_level l'
      /\ is_trigger l = is_trigger l'
  | None, None => True
  | _, _ => False
  end.
Proof.
  intros H. apply (f_equal (fun x => x !! j)) in H. unfold structure in H.
  rewrite !list_lookup_fmap in H.
  destruct (d !! j), (d' !! j); cbn in H; try done.
  by inversion H.
Qed.

Lemma structure_line (d d' : document) b :
  structure d = structure d' ->
  match QTextBlock.line d b, QTextBlock.line d' b with
  | Some l, Some l' =>
      text l = text l' /\ fold_level l = fold_level l'
      /\ is_trigger l = is_trigger l'
  | None, None => True
  | _, _ => False
  end.
Proof. intros H. destruct b as [n|]; [by apply structure_lookup|done]. Qed.

Lemma structure_length d d' : structure d = structure d' -> length d = length d'.
Proof.
  intros H. apply (f_equal length) in H. unfold structure in H.
  by rewrite !length_fmap in H.
Qed.

Lemma structure_texts d d' : structure d = structure d' -> texts d = texts d'.
Proof.
  intros H. apply list_eq. intros j. unfold texts. rewrite !list_lookup_fmap.
  pose proof (structure_lookup d d' j H) as Hj.
  destruct (d !! j), (d' !! j); cbn; try done. by destruct Hj as [-> _].
Qed.

Lemma structure_isValid d d' b :
  structure d = structure d' -> QTextBlock.isValid d b = QTextBlock.isValid d' b.
Proof. intros H. by apply texts_isValid, structure_texts. Qed.

Lemma structure_text d d' b :
  structure d = structure d' -> QTextBlock.text d b = QTextBlock.text d' b.
Proof.
  intros H. pose proof (structure_line d d' b H) as Hb. unfold QTextBlock.text.
  destruct (QTextBlock.line d b), (QTextBlock.line d' b); try done.
  by destruct Hb.
Qed.

Lemma structure_blockNumber d d' b :
  structure d = structure d' ->
  QTextBlock.blockNumber d b = QTextBlock.blockNumber d' b.
Proof.
  intros H. unfold QTextBlock.blockNumber. destruct b; [|done].
  by rewrite (structure_isValid d d').
Qed.

Lemma structure_next d d' b :
  structure d = structure d' -> QTextBlock.next d b = QTextBlock.next d' b.
Proof.
  intros H. unfold QTextBlock.next. destruct b; [|done].
  by rewrite (structure_isValid d d').
Qed.

Lemma structure_previous d d' b :
  structure d = structure d' -> QTextBlock.previous d b = QTextBlock.previous d' b.
Proof.
  intros H. unfold QTextBlock.previous. destruct b as [[|n]|]; [done| |].
  - by rewrite (structure_isValid d d').
  - by rewrite (structure_length d d').
Qed.

Lemma structure_findBlockByNumber d d' n :
  structure d = structure d' ->
  QTextBlock.findBlockByNumber d n = QTextBlock.findBlockByNumber d' n.
Proof.
  intros H. unfold QTextBlock.findBlockByNumber.
  by rewrite (structure_length d d').
Qed.

Lemma structure_get_fold_lvl d d' ob :
  structure d = structure d' ->
  TextBlockHelper.get_fold_lvl d ob = TextBlockHelper.get_fold_lvl d' ob.
Proof.
  intros H. unfold TextBlockHelper.get_fold_lvl. destruct ob as [b|]; [|done].
  cbn [mbind option_bind]. pose proof (structure_line d d' b H) as Hb.
  destruct (QTextBlock.line d b), (QTextBlock.line d' b); try done.
  by destruct Hb as (_ & -> & _).
Qed.

Lemma structure_is_fold_trigger d d' ob :
  structure d = structure d' ->
  TextBlockHelper.is_fold_trigger d ob = TextBlockHelper.is_fold_trigger d' ob.
Proof.
  intros H. unfold TextBlockHelper.is_fold_trigger. destruct ob as [b|]; [|done].
  cbn [mbind option_bind]. pose proof (structure_line d d' b H) as Hb.
  destruct (QTextBlock.line d b), (QTextBlock.line d' b); try done.
  by destruct Hb as (_ & _ & ->).
Qed.

Lemma structure_scan d d' ref_lvl fuel b last :
  structure d = structure d' ->
  Scope.scan d ref_lvl fuel b last = Scope.scan d' ref_lvl fuel b last.
Proof.
  intros H. revert b last. induction fuel as [|fuel IH]; intros b last; [done|].
  cbn [Scope.scan].
  rewrite (structure_isValid d d'), (structure_get_fold_lvl d d'),
    (structure_next d d'), (structure_blockNumber d d') by done.
  by rewrite IH.
Qed.

Lemma structure_trim d d' fuel b last :
  structure d = structure d' ->
  Scope.trim d fuel b last = Scope.trim d' fuel b last.
Proof.
  intros H. revert b last. induction fuel as [|fuel IH]; intros b last; [done|].
  cbn [Scope.trim].
  rewrite (structure_blockNumber d d' b), (structure_text d d'),
    (structure_previous d d'), (structure_blockNumber d d' (QTextBlock.previous d' b))
    by done.
  by rewrite IH.
Qed.

Lemma structure_get_range d d' s ignore_blank_lines :
  structure d = structure d' ->
  Scope.get_range d s ignore_blank_lines = Scope.get_range d' s ignore_blank_lines.
Proof.
  intros H. unfold Scope.get_range, Scope.trigger_level, Scope.scope_level.
  rewrite !(structure_get_fold_lvl d d'), !(structure_next d d'),
    !(structure_blockNumber d d'), (structure_length d d') by done.
  rewrite (structure_scan d d') by done.
  destruct (Scope.scan _ _ _ _ _) as [b last].
  by rewrite (structure_findBlockByNumber d d'), (structure_trim d d').
Qed.

Lemma walk_ext {A} (visit visit' : A -> block -> A) d last fuel b acc :
  (forall a b, visit a b = visit' a b) ->
  Scope.walk visit d last fuel b acc = Scope.walk visit' d last fuel b acc.
Proof.
  intros H. revert b acc. induction fuel as [|fuel IH]; intros b acc; [done|].
  cbn [Scope.walk]. by rewrite H, IH.
Qed.

Lemma structure_walk {A} (visit : A -> block -> A) d d' last fuel b acc :
  structure d = structure d' ->
  Scope.walk visit d last fuel b acc = Scope.walk visit d' last fuel b acc.
Proof.
  intros H. revert b acc. induction fuel as [|fuel IH]; intros b acc; [done|].
  cbn [Scope.walk].
  rewrite (structure_blockNumber d d'), (structure_isValid d d'),
    (structure_next d d') by done.
  by rewrite IH.
Qed.

Lemma structure_blocks d d' s ignore_blank_lines :
  structure d = structure d' ->
  Scope.blocks d s ignore_blank_lines = Scope.blocks d' s ignore_blank_lines.
Proof.
  intros H. unfold Scope.blocks, Scope.scope_level.
  rewrite (structure_get_range d d') by done.
  destruct (Scope.get_range d' s ignore_blank_lines) as [first last].
  rewrite !(structure_next d d'), (structure_get_fold_lvl d d'),
    (structure_length d d') by done.
  rewrite (structure_walk _ d d') by done.
  apply walk_ext. intros a b.
  by rewrite (structure_get_fold_lvl d d'), (structure_is_fold_trigger d d').
Qed.

Lemma structure_child_regions d d' s :
  structure d = structure d' ->
  Scope.child_regions d s = Scope.child_regions d' s.
Proof.
  intros H. unfold Scope.child_regions, Scope.scope_level, Scope.init.
  rewrite (structure_get_range d d') by done.
  destruct (Scope.get_range d' s true) as [first last].
  rewrite !(structure_next d d'), (structure_get_fold_lvl d d'),
    (structure_length d d') by done.
  rewrite (structure_walk _ d d') by done.
  apply walk_ext. intros a b.
  by rewrite (structure_get_fold_lvl d d'), !(structure_is_fold_trigger d d').
Qed.

Lemma structure_level_of d d' j :
  structure d = structure d' -> level_of d j = level_of d' j.
Proof. intros. by apply structure_get_fold_lvl. Qed.

Lemma structure_trigger_of d d' j :
  structure d = structure d' -> trigger_of d j = trigger_of d' j.
Proof. intros. by apply structure_is_fold_trigger. Qed.

Lemma structure_text_of d d' j :
  structure d = structure d' -> text_of d j = text_of d' j.
Proof. intros. by apply structure_text. Qed.

Lemma update_structure f d b :
  (forall l, text (f l) = text l /\ fold_level (f l) = fold_level l
             /\ is_trigger (f l) = is_trigger l) ->
  structure (QTextBlock.update f d b) = structure d.
Proof.
  intros Hf. apply list_eq. intros j. unfold structure.
  rewrite !list_lookup_fmap, update_lookup.
  case_decide; [|done]. destruct (d !! j) as [l|]; [|done]. cbn.
  destruct (Hf l) as (-> & -> & ->). done.
Qed.

Lemma setVisible_structure d b v : structure (QTextBlock.setVisible d b v) = structure d.
Proof. by apply update_structure. Qed.

Lemma set_fold_trigger_state_structure d ob v :
  structure (TextBlockHelper.set_fold_trigger_state d ob v) = structure d.
Proof. destruct ob; [by apply update_structure|done]. Qed.

(** ** Well nested documents *)

Lemma forallb_ext_eq {A} (f g : A -> bool) (l : list A) :
  (forall x, f x = g x) -> forallb f l = forallb g l.
Proof. intros H. induction l as [|x l IH]; [done|]. cbn. by rewrite H, IH. Qed.

Lemma structure_well_nested d d' :
  structure d = structure d' -> well_nested d = well_nested d'.
Proof.
  intros H. unfold well_nested. rewrite (structure_length d d') by done.
  apply forallb_ext_eq. intros j. unfold well_nested_at.
  by rewrite !(structure_level_of d d'), !(structure_trigger_of d d'),
    (structure_text_of d d'), (structure_length d d').
Qed.

Lemma well_nested_at_line d j :
  well_nested d = true -> (j < length d)%nat -> well_nested_at d j = true.
Proof.
  intros H Hj. unfold well_nested in H.
  rewrite forallb_forall in H. apply H. apply in_seq. lia.
Qed.

Lemma trigger_of_invalid (d : document) j : (length d <= j)%nat -> trigger_of d j = false.
Proof.
  intros H. rewrite trigger_of_lookup. by rewrite (proj2 (lookup_ge_None d j)).
Qed.

Lemma well_nested_rise d j :
  well_nested d = true -> (S j < length d)%nat ->
  level_of d (S j) <= level_of d j + 1.
Proof.
  intros H Hj. pose proof (well_nested_at_line d j H ltac:(lia)) as W.
  unfold well_nested_at in W.
  apply andb_true_iff in W as [[W _]%andb_true_iff _].
  apply orb_true_iff in W as [W|W]; [apply Nat.leb_le in W|]; lia.
Qed.

Lemma well_nested_trigger d j :
  well_nested d = true ->
  trigger_of d j = true
  <-> (S j < length d)%nat /\ level_of d (S j) > level_of d j.
Proof.
  intros H. destruct (decide (j < length d)%nat) as [Hj|Hj].
  - pose proof (well_nested_at_line d j H Hj) as W.
    unfold well_nested_at in W.
    apply andb_true_iff in W as [[_ W]%andb_true_iff _].
    apply eqb_prop in W. rewrite W, andb_true_iff, Nat.ltb_lt, Z.gtb_gt. done.
  - rewrite trigger_of_invalid by lia. split; [done|]. lia.
Qed.

Lemma well_nested_non_blank d j :
  well_nested d = true -> trigger_of d j = true ->
  is_blank (text_of d j) = false.
Proof.
  intros H T. destruct (decide (j < length d)%nat) as [Hj|Hj].
  - pose proof (well_nested_at_line d j H Hj) as W.
    unfold well_nested_at in W. apply andb_true_iff in W as [_ W].
    rewrite T in W. cbn in W. by apply negb_true_iff in W.
  - rewrite trigger_of_invalid in T by lia. done.
Qed.

(** ** The range of a scope in a well nested document *)

Lemma scan_run d ref_lvl fuel k last :
  (length d - k <= fuel)%nat -> (k < length d)%nat ->
  level_of d k > ref_lvl ->
  exists e, (Scope.scan d ref_lvl fuel (block_at d k) last).2 = Z.of_nat e
    /\ (k <= e < length d)%nat
    /\ (forall j, (k <= j <= e)%nat -> level_of d j > ref_lvl)
    /\ ((S e < length d)%nat -> level_of d (S e) <= ref_lvl).
Proof.
  revert k last. induction fuel as [|fuel IH]; intros k last Hf Hk Hl; [lia|].
  cbn [Scope.scan]. rewrite block_at_valid by done.
  rewrite (proj2 (isValid_lt d k)) by done. fold (level_of d k).
  rewrite (proj2 (Z.gtb_gt _ _)) by done. cbn [andb].
  rewrite next_block_at, blockNumber_valid by done.
  destruct (decide ((S k < length d)%nat /\ level_of d (S k) > ref_lvl))
    as [[Hs Hls]|Hstop].
  - destruct (IH (S k) (Z.of_nat k) ltac:(lia) Hs Hls) as (e & -> & He & Hj & Hn).
    exists e. repeat split; [lia|lia| |done].
    intros j Hj'. destruct (decide (j = k)) as [->|]; [done|]. apply Hj. lia.
  - exists k.
    assert ((Scope.scan d ref_lvl fuel (block_at d (S k)) (Z.of_nat k)).2
            = Z.of_nat k) as ->.
    { destruct fuel as [|fuel]; [done|]. cbn [Scope.scan].
      destruct (decide (S k < length d)%nat) as [Hs|Hs].
      - rewrite block_at_valid by done.
        rewrite (proj2 (isValid_lt d (S k))) by done. fold (level_of d (S k)).
        destruct (Z.gtb_spec (level_of d (S k)) ref_lvl); [|done].
        exfalso. apply Hstop. split; [done|lia].
      - rewrite block_at_invalid by lia. done. }
    repeat split; [lia|lia| |].
    + intros j Hj. by replace j with k by lia.
    + intros Hs. destruct (Z.le_gt_cases (level_of d (S k)) ref_lvl); [done|].
      exfalso. apply Hstop. split; [done|lia].
Qed.

Lemma trim_blank d fuel n :
  (n < length d)%nat ->
  exists r, Scope.trim d fuel (Blk n) (Z.of_nat n) = Z.of_nat r
    /\ (r <= n)%nat
    /\ forall j, (r < j <= n)%nat -> is_blank (text_of d j) = true.
Proof.
  revert n. induction fuel as [|fuel IH]; intros n Hn.
  { exists n. repeat split; [done|]. intros j Hj. lia. }
  cbn [Scope.trim]. rewrite blockNumber_valid by done. fold (text_of d n).
  destruct (is_blank (text_of d n)) eqn:Bn.
  2:{ rewrite andb_false_r. exists n. repeat split; [done|]. intros j Hj. lia. }
  destruct n as [|n].
  { cbn. exists 0%nat. repeat split; [done|]. intros j Hj. lia. }
  rewrite (proj2 (Z.eqb_neq (Z.of_nat (S n)) 0)) by lia. cbn [negb andb].
  cbn [QTextBlock.previous]. rewrite (proj2 (isValid_lt d (S n))) by done.
  rewrite blockNumber_valid by lia.
  destruct (IH n ltac:(lia)) as (r & -> & Hr & Hb).
  exists r. repeat split; [lia|]. intros j Hj.
  destruct (decide (j = S n)) as [->|]; [done|]. apply Hb. lia.
Qed.

(** The ranges of the scope of a trigger line of a well nested document:
with the trailing blank lines the range is the scope of the line; without
them it ends at or after the trigger, before blank lines only. *)
Lemma get_range_well_nested d t :
  well_nested d = true -> (t < length d)%nat -> trigger_of d t = true ->
  exists e e',
    Scope.get_range d (mkFoldScope (Blk t)) false = (Z.of_nat t, Z.of_nat e)
    /\ Scope.get_range d (mkFoldScope (Blk t)) true = (Z.of_nat t, Z.of_nat e')
    /\ (forall j, (t < j <= e)%nat <-> in_scope d t j)
    /\ (t <= e' <= e)%nat
    /\ (forall j, (e' < j <= e)%nat -> is_blank (text_of d j) = true).
Proof.
  intros W Ht Tt.
  pose proof (proj1 (well_nested_trigger d t W) Tt) as [Hs Hl].
  pose proof (well_nested_non_blank d t W Tt) as Bt.
  unfold Scope.get_range, Scope.trigger_level, Scope.scope_level.
  cbn [_trigger]. rewrite next_block_at, (block_at_valid d (S t)) by done.
  fold (level_of d t). fold (level_of d (S t)).
  rewrite !blockNumber_valid by (done || lia).
  rewrite (proj2 (Z.eqb_neq (level_of d t) (level_of d (S t)))) by lia.
  rewrite <- (block_at_valid d (S t)) by done.
  destruct (scan_run d (level_of d t) (length d) (S t) (Z.of_nat (S t))
              ltac:(lia) Hs Hl) as (e & He & Hke & Hin & Hout).
  destruct (Scope.scan _ _ _ _ _) as [b last]. cbn [snd] in He. subst last.
  cbn [andb]. rewrite (proj2 (Z.eqb_neq (Z.of_nat e) 0)) by lia. cbn [negb].
  unfold QTextBlock.findBlockByNumber.
  rewrite (proj2 (Z.leb_le 0 _)), (proj2 (Z.ltb_lt (Z.of_nat e) _)) by lia.
  cbn [andb]. rewrite Nat2Z.id.
  destruct (trim_blank d (S (S (length d))) e ltac:(lia)) as (e' & He' & Hle & Hb).
  pose proof (trim_bounds d t (S (S (length d))) e Bt ltac:(lia) ltac:(lia)) as Hge.
  rewrite He' in *.
  exists e, e'. split; [done|]. split; [done|].
  split; [|split; [lia|done]]. intros j. split.
  - intros Hj. split; [lia|]. intros i Hi. apply Hin. lia.
  - intros [[Htj Hjl] Hj].
    destruct (decide (j <= e)%nat) as [|Hgt]; [lia|]. exfalso.
    specialize (Hout ltac:(lia)). specialize (Hj (S e) ltac:(lia)). lia.
Qed.

(** ** The blocks and the child regions of a scope *)

Lemma walk_collect_elem {A} (g : block -> list A) (d : document) last fuel k
    (acc : list A) (x : A) :
  (length d - k <= fuel)%nat ->
  x ∈ Scope.walk (fun acc b => (acc ++ g b)%list) d last fuel (block_at d k) acc
  <-> x ∈ acc
      \/ exists j, (k <= j < length d)%nat /\ Z.of_nat j <= last /\ x ∈ g (Blk j).
Proof.
  revert k acc. induction fuel as [|fuel IH]; intros k acc Hk.
  - cbn [Scope.walk]. split; [by left|]. intros [?|(j & ? & _)]; [done|lia].
  - cbn [Scope.walk]. rewrite blockNumber_block_at.
    destruct (decide (k < length d)%nat) as [Hlt|Hge].
    + rewrite block_at_valid by done.
      rewrite (proj2 (isValid_lt d k)) by done. rewrite andb_true_r.
      destruct (Z.leb_spec (Z.of_nat k) last) as [Hle|Hgt].
      * rewrite next_block_at, IH by lia. rewrite elem_of_app. split.
        -- intros [[?|?]|(j & ? & ? & ?)]; [by left|right..].
           ++ exists k. repeat split; (done || lia).
           ++ exists j. repeat split; (done || lia).
        -- intros [?|(j & ? & ? & ?)]; [by left; left|].
           destruct (decide (j = k)) as [->|]; [by left; right|].
           right. exists j. repeat split; (done || lia).
      * split; [by left|]. intros [?|(j & ? & ? & _)]; [done|lia].
    + rewrite block_at_invalid by lia. cbn [QTextBlock.isValid QTextBlock.line].
      rewrite andb_false_r. split; [by left|].
      intros [?|(j & ? & _)]; [done|lia].
Qed.

Section Regions.

Variable d : document.
Variable t : nat.
Hypothesis nested : well_nested d = true.
Hypothesis valid : (t < length d)%nat.
Hypothesis trigger : trigger_of d t = true.

Lemma blocks_elem b :
  b ∈ Scope.blocks d (mkFoldScope (Blk t)) false
  <-> exists j, b = Blk j /\ in_scope d t j
        /\ level_of d j = level_of d (S t) /\ trigger_of d j = false.
Proof.
  destruct (get_range_well_nested d t nested valid trigger)
    as (e & e' & Hu & _ & Hin & _).
  pose proof (proj1 (well_nested_trigger d t nested) trigger) as [Hs _].
  unfold Scope.blocks. rewrite Hu. unfold Scope.scope_level. cbn [_trigger].
  rewrite next_block_at.
  rewrite (walk_ext _ (fun acc b =>
    (acc ++ if (TextBlockHelper.get_fold_lvl d (Some b)
                =? TextBlockHelper.get_fold_lvl d (Some (block_at d (S t))))
               && negb (TextBlockHelper.is_fold_trigger d (Some b))
            then [b] else [])%list)).
  2:{ intros a b'. destruct (_ && _); [done|by rewrite app_nil_r]. }
  rewrite walk_collect_elem by lia. rewrite (block_at_valid d (S t)) by done.
  fold (level_of d (S t)). split.
  - intros [Hnil|(j & Hj & Hle & Hb)]; [by apply elem_of_nil in Hnil|].
    fold (level_of d j) in Hb. fold (trigger_of d j) in Hb.
    destruct (Z.eqb_spec (level_of d j) (level_of d (S t))) as [El|];
      [|by apply elem_of_nil in Hb].
    destruct (trigger_of d j) eqn:Tj; [by apply elem_of_nil in Hb|].
    apply list_elem_of_singleton in Hb as ->.
    exists j. split; [done|]. split; [apply Hin; lia|done].
  - intros (j & -> & Hj & El & Tj). right. exists j.
    apply Hin in Hj. destruct Hj as [Htj Hje].
    assert (in_scope d t j) as [[_ Hjl] _] by (apply Hin; lia).
    repeat split; [lia|lia|lia|].
    fold (level_of d j). fold (trigger_of d j).
    rewrite (proj2 (Z.eqb_eq _ _)), Tj by done. by apply list_elem_of_singleton.
Qed.

Lemma child_regions_elem r :
  r ∈ Scope.child_regions d (mkFoldScope (Blk t))
  <-> exists c, r = mkFoldScope (Blk c) /\ in_scope d t c
        /\ level_of d c = level_of d (S t) /\ trigger_of d c = true.
Proof.
  destruct (get_range_well_nested d t nested valid trigger)
    as (e & e' & _ & Hu & Hin & He & Hblank).
  pose proof (proj1 (well_nested_trigger d t nested) trigger) as [Hs _].
  unfold Scope.child_regions. rewrite Hu. unfold Scope.scope_level. cbn [_trigger].
  rewrite next_block_at.
  rewrite (walk_ext _ (fun acc b =>
    (acc ++ if (TextBlockHelper.get_fold_lvl d (Some b)
                =? TextBlockHelper.get_fold_lvl d (Some (block_at d (S t))))
               && TextBlockHelper.is_fold_trigger d (Some b)
            then [mkFoldScope b] else [])%list)).
  2:{ intros a b'. unfold Scope.init.
      destruct (_ =? _); cbn [andb]; [|by rewrite app_nil_r].
      destruct (TextBlockHelper.is_fold_trigger d (Some b')); cbn [negb];
        [done|by rewrite app_nil_r]. }
  rewrite walk_collect_elem by lia. rewrite (block_at_valid d (S t)) by done.
  fold (level_of d (S t)). split.
  - intros [Hnil|(j & Hj & Hle & Hb)]; [by apply elem_of_nil in Hnil|].
    fold (level_of d j) in Hb. fold (trigger_of d j) in Hb.
    destruct (Z.eqb_spec (level_of d j) (level_of d (S t))) as [El|];
      [|by apply elem_of_nil in Hb].
    destruct (trigger_of d j) eqn:Tj; [|by apply elem_of_nil in Hb].
    apply list_elem_of_singleton in Hb as ->.
    exists j. split; [done|]. split; [apply Hin; lia|done].
  - intros (c & -> & Hc & El & Tc). right. exists c.
    pose proof (well_nested_non_blank d c nested Tc) as Bc.
    pose proof Hc as [[? ?] _]. apply Hin in Hc.
    assert (c <= e')%nat.
    { destruct (decide (c <= e')%nat); [done|].
      rewrite Hblank in Bc; [done|lia]. }
    repeat split; [lia|lia|lia|].
    fold (level_of d c). fold (trigger_of d c).
    rewrite (proj2 (Z.eqb_eq _ _)), Tc by done. by apply list_elem_of_singleton.
Qed.

(** A line of the scope that is deeper than the first line of the scope has
a line of the level of the first line before it, with deeper lines only in
between. *)
Lemma enclosing_line sl a j :
  (a <= j)%nat -> level_of d a = sl -> level_of d j > sl ->
  (forall i, (a <= i <= j)%nat -> level_of d i >= sl) ->
  exists c, (a <= c < j)%nat /\ level_of d c = sl
    /\ forall i, (c < i <= j)%nat -> level_of d i > sl.
Proof.
  intros Haj La. induction j as [|j IH]; intros Lj Hi.
  { assert (a = 0%nat) as -> by lia. lia. }
  destruct (decide (a = S j)) as [->|Hne]; [lia|].
  pose proof (Hi j ltac:(lia)) as Hjl.
  destruct (decide (level_of d j = sl)) as [Ej|Nj].
  - exists j. repeat split; [lia|lia|done|].
    intros i Hi'. by replace i with (S j) by lia.
  - destruct IH as (c & Hc & Lc & Hd); [lia|lia| |].
    { intros i Hi'. apply Hi. lia. }
    exists c. repeat split; [lia|lia|done|].
    intros i Hi'. destruct (decide (i = S j)) as [->|]; [done|]. apply Hd. lia.
Qed.

(** Every line of the scope is a block of the scope, the trigger of a child
region or a line of the scope of a child region. *)
Lemma in_scope_cover j :
  in_scope d t j
  <-> Blk j ∈ Scope.blocks d (mkFoldScope (Blk t)) false
      \/ exists c, mkFoldScope (Blk c) ∈ Scope.child_regions d (mkFoldScope (Blk t))
           /\ (j = c \/ in_scope d c j).
Proof.
  pose proof (proj1 (well_nested_trigger d t nested) trigger) as [Hs Hl].
  pose proof (well_nested_rise d t nested Hs) as Hr.
  split.
  - intros Hj. pose proof Hj as [[Htj Hjl] Hdeep].
    destruct (decide (level_of d j = level_of d (S t))) as [El|Nl].
    + destruct (trigger_of d j) eqn:Tj.
      * right. exists j. split; [|by left].
        apply child_regions_elem. by exists j.
      * left. apply blocks_elem. by exists j.
    + right.
      destruct (enclosing_line (level_of d (S t)) (S t) j) as (c & Hc & Lc & Hd).
      * lia.
      * done.
      * specialize (Hdeep j ltac:(lia)). lia.
      * intros i Hi. specialize (Hdeep i ltac:(lia)). lia.
      * exists c. split.
        -- apply child_regions_elem. exists c. split; [done|]. split; [|split].
           ++ split; [lia|]. intros i Hi. apply Hdeep. lia.
           ++ done.
           ++ apply (well_nested_trigger d c nested). split; [lia|].
              specialize (Hd (S c) ltac:(lia)). lia.
        -- right. split; [lia|]. intros i Hi.
           specialize (Hd i ltac:(lia)). lia.
  - intros [Hb|(c & Hc & Hj)].
    + apply blocks_elem in Hb as (j' & [= <-] & Hj & _). done.
    + apply child_regions_elem in Hc as (c' & [= <-] & Hc & Lc & Tc).
      destruct Hj as [->|[[Hcj Hjl] Hdeep]]; [done|].
      destruct Hc as [[Htc _] Hdc].
      split; [lia|]. intros i Hi.
      destruct (decide (i <= c)%nat); [apply Hdc; lia|].
      specialize (Hdeep i ltac:(lia)). specialize (Hdc c ltac:(lia)). lia.
Qed.

(** The scope of a child region lies in the scope of its parent. *)
Lemma in_scope_child c j :
  in_scope d t c -> in_scope d c j -> in_scope d t j.
Proof.
  intros [[Htc _] Hdc] [[Hcj Hjl] Hdeep].
  split; [lia|]. intros i Hi.
  destruct (decide (i <= c)%nat); [apply Hdc; lia|].
  specialize (Hdeep i ltac:(lia)). specialize (Hdc c ltac:(lia)). lia.
Qed.

End Regions.

(** ** Unfolding a scope *)

Lemma structure_in_scope d d' t j :
  structure d = structure d' -> in_scope d t j <-> in_scope d' t j.
Proof.
  intros H. unfold in_scope. rewrite (structure_length d d') by done.
  split; intros [? Hd]; (split; [done|]); intros i Hi; specialize (Hd i Hi).
  - by rewrite <- !(structure_level_of d d').
  - by rewrite !(structure_level_of d d').
Qed.

Lemma shows_compose S1 S2 d d1 d2 :
  shows S1 d d1 -> shows S2 d1 d2 -> shows (fun j => S1 j \/ S2 j) d d2.
Proof.
  intros (Hs1 & Hv1 & Hn1 & Hm1 & Hc1) (Hs2 & Hv2 & Hn2 & Hm2 & Hc2).
  split; [congruence|]. split; [|split; [|split]].
  - intros j [Hj|Hj]; [apply Hm2, Hv1, Hj|apply Hv2, Hj].
  - intros j Hj. rewrite Hn2, Hn1; [done|tauto|tauto].
  - intros j Hj. by apply Hm2, Hm1.
  - intros j Hj. by apply Hc2, Hc1.
Qed.

Lemma shows_equiv S S' d d' :
  (forall j, S j <-> S' j) -> shows S d d' -> shows S' d d'.
Proof.
  intros HS (Hs & Hv & Hn & Hm & Hc). split; [done|]. split; [|split; [|done]].
  - intros j Hj. by apply Hv, HS.
  - intros j Hj. apply Hn. by rewrite HS.
Qed.

Lemma shows_nothing d : shows (fun _ => False) d d.
Proof. split; [done|]. split; [done|]. done. Qed.

(** The first two statements of [unfold]. *)
Lemma shows_trigger d t :
  shows (fun j => j = t)
    d (TextBlockHelper.set_fold_trigger_state
         (QTextBlock.setVisible d (Blk t) true) (Some (Blk t)) false).
Proof.
  split; [by rewrite set_fold_trigger_state_structure, setVisible_structure|].
  assert (forall j,
    TextBlockHelper.set_fold_trigger_state
      (QTextBlock.setVisible d (Blk t) true) (Some (Blk t)) false !! j
    = if decide (j = t)
      then with_collapsed false <$> (with_visible true <$> d !! j)
      else d !! j) as Hl.
  { intros j. rewrite set_fold_trigger_state_lookup, setVisible_lookup.
    destruct (decide (j = t)) as [->|].
    - by rewrite !decide_True.
    - by rewrite !decide_False by congruence. }
  split; [|split; [|split]]; intros j;
    rewrite ?visible_of_lookup, ?collapsed_of_lookup, Hl.
  - intros ->. rewrite decide_True by done. by destruct (d !! t).
  - intros Hj. by rewrite decide_False.
  - case_decide; by destruct (d !! j).
  - case_decide; by destruct (d !! j).
Qed.

Lemma foldl_setVisible_lookup (bs : list block) (d : document) j :
  foldl (fun d b => QTextBlock.setVisible d b true) d bs !! j
  = if bool_decide (Blk j ∈ bs) then with_visible true <$> d !! j else d !! j.
Proof.
  revert d. induction bs as [|b bs IH]; intros d; [done|].
  cbn [foldl]. rewrite IH, setVisible_lookup.
  destruct (decide (b = Blk j)) as [->|Hne].
  - rewrite (bool_decide_true (Blk j ∈ Blk j :: bs)) by apply list_elem_of_here.
    destruct (bool_decide _), (d !! j); done.
  - destruct (decide (Blk j ∈ bs)) as [Hin|Hin].
    + rewrite !bool_decide_true; [done|by apply list_elem_of_further|done].
    + rewrite !bool_decide_false; [done| |done].
      intros [?|?]%elem_of_cons; congruence.
Qed.

(** The first loop of [unfold]. *)
Lemma shows_blocks (bs : list block) d :
  shows (fun j => Blk j ∈ bs)
    d (foldl (fun d b => QTextBlock.setVisible d b true) d bs).
Proof.
  split.
  { revert d. induction bs as [|b bs IH]; intros d; [done|].
    cbn [foldl]. by rewrite IH, setVisible_structure. }
  split; [|split; [|split]]; intros j;
    rewrite ?visible_of_lookup, ?collapsed_of_lookup, foldl_setVisible_lookup.
  - intros Hj. rewrite bool_decide_true by done. by destruct (d !! j).
  - intros Hj. by rewrite bool_decide_false.
  - case_bool_decide; by destruct (d !! j).
  - case_bool_decide; by destruct (d !! j).
Qed.

Section UnfoldRegions.

Variable fuel : nat.
Variable d0 : document.
Variable t : nat.
Hypothesis nested : well_nested d0 = true.
Hypothesis enough : (length d0 - t <= S fuel)%nat.

(** [unfold] with this much fuel on the children of the scope of [t]. *)
Hypothesis unfold_child : forall d c,
  well_nested d = true -> (c < length d)%nat -> trigger_of d c = true ->
  (length d - c <= fuel)%nat ->
  (forall j, in_scope d c j -> trigger_of d j = true -> collapsed_of d j = false) ->
  exists d', Scope.unfold_rec fuel d (mkFoldScope (Blk c)) = Some d'
    /\ shows (fun j => j = c \/ in_scope d c j) d d'.

Lemma unfold_regions_shows (regions : list FoldScope) (d : document) :
  structure d = structure d0 ->
  (forall r, r ∈ regions ->
     exists c, r = mkFoldScope (Blk c) /\ in_scope d0 t c
               /\ trigger_of d0 c = true) ->
  (forall j, in_scope d0 t j -> trigger_of d0 j = true ->
     collapsed_of d j = false) ->
  exists d', Scope.unfold_regions (Scope.unfold_rec fuel) d regions = Some d'
    /\ shows (fun j => exists c, mkFoldScope (Blk c) ∈ regions
                                 /\ (j = c \/ in_scope d0 c j)) d d'.
Proof.
  revert d. induction regions as [|r regions IH]; intros d Hs Hr Hc.
  { exists d. split; [done|]. eapply shows_equiv; [|apply shows_nothing].
    intros j. split; [done|]. intros (c & Hin & _). by apply elem_of_nil in Hin. }
  destruct (Hr r (list_elem_of_here _ _)) as (c & -> & Hct & Tc).
  cbn [Scope.unfold_regions]. unfold Scope.collapsed. cbn [_trigger].
  fold (collapsed_of d c). rewrite (Hc c Hct Tc). cbn [negb].
  pose proof Hct as [[Htc Hcl] _].
  destruct (unfold_child d c) as (d1 & -> & Hs1).
  - by rewrite (structure_well_nested d d0).
  - by rewrite (structure_length d d0).
  - by rewrite (structure_trigger_of d d0).
  - rewrite (structure_length d d0) by done. lia.
  - intros j Hj Tj. apply Hc.
    + apply (structure_in_scope d d0) in Hj; [|done].
      eapply (in_scope_child d0 t); [lia|done|done].
    + by rewrite <- (structure_trigger_of d d0).
  - cbn [mbind option_bind].
    destruct Hs1 as (Hst1 & Hrest1).
    destruct (IH d1) as (d' & -> & Hs').
    + congruence.
    + intros r Hin. apply Hr. by apply list_elem_of_further.
    + intros j Hj Tj. apply Hrest1. by apply Hc.
    + exists d'. split; [done|].
      eapply shows_equiv; [|eapply shows_compose; [exact (conj Hst1 Hrest1)|exact Hs']].
      intros j. cbn beta. split.
      * intros [Hj|(c' & Hin & Hj)].
        -- exists c. split; [apply list_elem_of_here|].
           destruct Hj as [->|Hj]; [by left|right].
           by apply (structure_in_scope d d0).
        -- exists c'. split; [by apply list_elem_of_further|done].
      * intros (c' & Hin & Hj). apply elem_of_cons in Hin as [[= ->]|Hin].
        -- left. destruct Hj as [->|Hj]; [by left|right].
           by apply (structure_in_scope d d0).
        -- right. by exists c'.
Qed.

End UnfoldRegions.

(** [unfold] on the scope of a trigger line of a well nested document, with
no collapsed trigger in the scope: it ends, and shows the trigger line and
every line of the scope. *)
Lemma unfold_rec_shows fuel d t :
  well_nested d = true -> (t < length d)%nat -> trigger_of d t = true ->
  (length d - t <= fuel)%nat ->
  (forall j, in_scope d t j -> trigger_of d j = true -> collapsed_of d j = false) ->
  exists d', Scope.unfold_rec fuel d (mkFoldScope (Blk t)) = Some d'
    /\ shows (fun j => j = t \/ in_scope d t j) d d'.
Proof.
  revert d t. induction fuel as [|fuel IH]; intros d t W Ht Tt Hf Hc; [lia|].
  cbn [Scope.unfold_rec _trigger].
  set (d2 := TextBlockHelper.set_fold_trigger_state
               (QTextBlock.setVisible d (Blk t) true) (Some (Blk t)) false).
  pose proof (shows_trigger d t) as H12. fold d2 in H12.
  pose proof H12 as (Hs2 & _).
  rewrite (structure_blocks d2 d) by done.
  set (bs := Scope.blocks d (mkFoldScope (Blk t)) false).
  set (d3 := foldl (fun d b => QTextBlock.setVisible d b true) d2 bs).
  pose proof (shows_blocks bs d2) as H23. fold d3 in H23.
  pose proof (shows_compose _ _ _ _ _ H12 H23) as H13.
  pose proof H13 as (Hs3 & _ & _ & _ & Hc3).
  rewrite (structure_child_regions d3 d) by done.
  destruct (unfold_regions_shows fuel d t W Hf (fun d c => IH d c)
              (Scope.child_regions d (mkFoldScope (Blk t))) d3)
    as (d' & -> & Hs').
  - done.
  - intros r (c & -> & Hc' & _ & Tc)%child_regions_elem; [|done..].
    by exists c.
  - intros j Hj Tj. by apply Hc3, Hc.
  - exists d'. split; [done|].
    eapply shows_equiv; [|exact (shows_compose _ _ _ _ _ H13 Hs')].
    intros j. cbn beta. rewrite (in_scope_cover d t W Ht Tt j). tauto.
Qed.

(** ** Folding and unfolding *)

Lemma fold_line_structure t last j l :
  text (fold_line t last j l) = text l
  /\ fold_level (fold_line t last j l) = fold_level l
  /\ is_trigger (fold_line t last j l) = is_trigger l.
Proof.
  unfold fold_line. cbv zeta.
  repeat match goal with |- context [if ?c then _ else _] => destruct c end;
    done.
Qed.

Lemma fold_structure d t :
  (t < length d)%nat -> structure (Scope.fold d (mkFoldScope (Blk t))) = structure d.
Proof.
  intros Ht. apply list_eq. intros j. unfold structure.
  rewrite !list_lookup_fmap, fold_lookup by done.
  destruct (d !! j) as [l|]; [|done]. cbn.
  by destruct (fold_line_structure t
                 (Scope.get_range d (mkFoldScope (Blk t)) true).2 j l)
    as (-> & -> & ->).
Qed.

Lemma fold_line_idempotent t last j l :
  fold_line t last j (fold_line t last j l) = fold_line t last j l.
Proof.
  unfold fold_line. cbv zeta.
  destruct (bool_decide (j = t)), (bool_decide (t < j)%nat && (Z.of_nat j <=? last));
    done.
Qed.

Lemma fold_idempotent d t :
  (t < length d)%nat ->
  Scope.fold (Scope.fold d (mkFoldScope (Blk t))) (mkFoldScope (Blk t))
  = Scope.fold d (mkFoldScope (Blk t)).
Proof.
  intros Ht. pose proof (fold_structure d t Ht) as Hs.
  apply list_eq. intros j.
  rewrite fold_lookup by (by rewrite (structure_length _ _ Hs)).
  rewrite (structure_get_range _ d) by done.
  rewrite fold_lookup by done.
  destruct (d !! j) as [l|]; [|done]. cbn. by rewrite fold_line_idempotent.
Qed.




(** * Further properties of the folding API *)

(** ** What a step of the fold detector leaves alone *)

Lemma update_levels_line_frame `{FoldDetector} d n pb txt j l :
  text (update_levels_line d n pb txt j l) = text l
  /\ visible (update_levels_line d n pb txt j l) = visible l
  /\ trigger_collapsed (update_levels_line d n pb txt j l) = trigger_collapsed l.
Proof.
  unfold update_levels_line. cbv zeta.
  repeat match goal with |- context [if ?c then _ else _] => destruct c end;
    done.
Qed.

(** X1: [process_block] keeps the number of lines, the text and the
visibility of every line, and leaves the lines after the current line as
they are (when the previous block is not one of them): a pass can resume
from any line. *)
Theorem process_block_frame `{FoldDetector} (d : document) (n : nat)
    (previous_block : option block) (txt : string) :
  (n < length d)%nat ->
  let d' := process_block d n previous_block txt in
  length d' = length d
  /\ (forall j, text_of d' j = text_of d j /\ visible_of d' j = visible_of d j)
  /\ (forall j, (n < j)%nat -> previous_block <> Some (Blk j) ->
        d' !! j = d !! j).
Proof.
  intros Hn d'. subst d'.
  assert (texts (process_block d n previous_block txt) = texts d) as Ht
    by (by apply process_block_texts).
  split; [by apply texts_length|].
  unfold process_block.
  set (d1 := update_levels d n previous_block txt).
  assert (forall j, d1 !! j = update_levels_line d n previous_block txt j <$> d !! j)
    as Hd1 by (intros j; by apply update_levels_lookup).
  assert (length d1 = length d) as Hlen
    by (apply texts_length, update_levels_texts; lia).
  assert (forall j, move_trigger_state d1 n !! j
            = (match n with
               | O => id
               | S m => if is_blank (text_of d1 m) && trigger_of d1 m
                        then move_trigger_state_line d1 m n j else id
               end) <$> d1 !! j) as Hd2.
  { intros j. destruct n as [|m].
    - rewrite move_trigger_state_first. by destruct (d1 !! j).
    - rewrite (move_trigger_state_lookup d1 (S m) m) by (done || lia).
      destruct (_ && _); [done|by destruct (d1 !! j)]. }
  split.
  - intros j. split; [by apply texts_text_of|].
    rewrite !visible_of_lookup, Hd2, Hd1.
    destruct (d !! j) as [l|]; [|done]. cbn.
    destruct (update_levels_line_frame d n previous_block txt j l) as (_ & <- & _).
    destruct n as [|m]; [done|]. destruct (_ && _); [|done].
    unfold move_trigger_state_line. by destruct (bool_decide _), (bool_decide _).
  - intros j Hj Hpb. rewrite Hd2, Hd1.
    destruct (d !! j) as [l|]; [|done]. cbn. f_equal.
    assert (update_levels_line d n previous_block txt j l = l) as ->.
    { unfold update_levels_line.
      rewrite (bool_decide_false (previous_block = Some (Blk j))) by done.
      rewrite (bool_decide_false (j = n)) by lia.
      rewrite bool_decide_false.
      2:{ intros (p & [= <-] & Hp & _)%find_prev_Some. lia. }
      destruct (in_blank_run d j n) eqn:R.
      { apply in_blank_run_lt in R. lia. }
      by rewrite !andb_false_r. }
    destruct n as [|m]; [done|]. destruct (_ && _); [|done].
    unfold move_trigger_state_line.
    by rewrite !bool_decide_false by lia.
Qed.

Lemma process_block_frame_witness :
  length (@process_block (IndentFoldDetector 4) scenario1 1 (Some (Blk 0))
            "    x = 1") = length scenario1.
Proof.
  exact (proj1 (@process_block_frame (IndentFoldDetector 4) scenario1 1%nat
                  (Some (Blk 0)) "    x = 1" ltac:(vm_compute; lia))).
Defined.

(** ** The indentation detector *)

Lemma lstrip_len s : 0 <= len (lstrip s) <= len s.
Proof.
  unfold len. induction s as [|c s IH]; cbn [lstrip]; [done|].
  destruct (is_space c); cbn [String.length] in *; lia.
Qed.

(** The white space in front of a line. *)
Lemma lstrip_app ws s :
  forallb is_space (list_ascii_of_string ws) = true ->
  lstrip (ws ++ s)%string = lstrip s.
Proof.
  induction ws as [|c ws IH]; [done|].
  cbn [list_ascii_of_string forallb].
  change (String c ws ++ s)%string with (String c (ws ++ s)%string).
  cbn [lstrip]. intros [-> Hws]%andb_true_iff. by apply IH.
Qed.

Lemma len_app s1 s2 : len (s1 ++ s2)%string = len s1 + len s2.
Proof.
  unfold len. induction s1 as [|c s1 IH]; [done|].
  change (String c s1 ++ s2)%string with (String c (s1 ++ s2)%string).
  cbn [String.length]. lia.
Qed.

(** X4: with a positive tab length the indentation detector returns a level
that is never negative, 0 for a line without white space in front, and one
more for every [tab_length] white space characters put in front of a
line. *)
Theorem indent_fold_level_steps (tab_length : Z) (d d' : document)
    (pb pb' : option block) (b b' : block) (ws : string) :
  0 < tab_length ->
  0 <= indent_fold_level tab_length d pb b
  /\ (lstrip (QTextBlock.text d b) = QTextBlock.text d b ->
      indent_fold_level tab_length d pb b = 0)
  /\ (forallb is_space (list_ascii_of_string ws) = true ->
      len ws = tab_length ->
      QTextBlock.text d' b' = (ws ++ QTextBlock.text d b)%string ->
      indent_fold_level tab_length d' pb' b'
      = indent_fold_level tab_length d pb b + 1).
Proof.
  intros Htab. unfold indent_fold_level. split; [|split].
  - pose proof (lstrip_len (QTextBlock.text d b)). apply Z.div_pos; lia.
  - intros ->. rewrite Z.sub_diag. by apply Z.div_0_l, Z.neq_sym, Z.lt_neq.
  - intros Hws Hlen ->. rewrite lstrip_app, len_app, Hlen by done.
    replace (tab_length + len (QTextBlock.text d b)
             - len (lstrip (QTextBlock.text d b)))
      with (len (QTextBlock.text d b) - len (lstrip (QTextBlock.text d b))
            + 1 * tab_length) by lia.
    rewrite Z.div_add by lia. done.
Qed.

Lemma indent_fold_level_steps_witness :
  indent_fold_level 4 (new_document ["    z = 3"]) None (Blk 0)
  = indent_fold_level 4 (new_document ["z = 3"]) None (Blk 0) + 1.
Proof.
  refine (proj2 (proj2 (indent_fold_level_steps 4 (new_document ["z = 3"])
                          (new_document ["    z = 3"]) None None
                          (Blk 0) (Blk 0) "    " _)) eq_refl eq_refl eq_refl).
  lia.
Defined.

(** ** Ranges, blocks and child regions of a scope *)

(** X7: without the removal of the trailing blank lines, the range of a
scope whose trigger is the last line of the document ends on line -1, the
number of the invalid block after the trigger: there is no body, and the
last line is before the first one. *)
Theorem get_range_on_last_line (d : document) (t : nat) :
  S t = length d ->
  Scope.get_range d (mkFoldScope (Blk t)) false = (Z.of_nat t, -1).
Proof.
  intros Hlen. unfold Scope.get_range. cbn [_trigger andb].
  rewrite next_block_at, block_at_invalid by lia.
  rewrite blockNumber_valid by lia.
  rewrite <- Hlen. cbn [Scope.scan QTextBlock.isValid QTextBlock.line andb].
  done.
Qed.

Lemma get_range_on_last_line_witness :
  Scope.get_range (new_document ["a"]) (mkFoldScope (Blk 0)) false = (0, -1).
Proof. exact (get_range_on_last_line (new_document ["a"]) 0%nat eq_refl). Defined.

Lemma trim_stop d fuel n :
  (n < fuel)%nat -> (n < length d)%nat ->
  exists r, Scope.trim d fuel (Blk n) (Z.of_nat n) = Z.of_nat r
    /\ (r = 0%nat \/ is_blank (text_of d r) = false).
Proof.
  revert n. induction fuel as [|fuel IH]; intros n Hf Hn; [lia|].
  cbn [Scope.trim]. rewrite blockNumber_valid by done. fold (text_of d n).
  destruct n as [|n]; [exists 0%nat; by split; [|left]|].
  rewrite (proj2 (Z.eqb_neq (Z.of_nat (S n)) 0)) by lia. cbn [negb andb].
  destruct (is_blank (text_of d (S n))) eqn:Bn.
  - cbn [QTextBlock.previous]. rewrite (proj2 (isValid_lt d (S n))) by done.
    rewrite blockNumber_valid by lia. apply IH; lia.
  - exists (S n). split; [done|by right].
Qed.

(** The range without its trailing blank lines comes from the range with
them. *)
Lemma get_range_trimmed d s :
  Scope.get_range d s true
  = let r := Scope.get_range d s false in
    (r.1, if negb (r.2 =? 0)
          then Scope.trim d (S (S (length d)))
                 (QTextBlock.findBlockByNumber d r.2) r.2
          else r.2).
Proof. unfold Scope.get_range. by destruct (Scope.scan _ _ _ _ _). Qed.

Lemma in_scope_first_line d t :
  well_nested d = true -> trigger_of d t = true -> in_scope d t (S t).
Proof.
  intros W Tt. pose proof (proj1 (well_nested_trigger d t W) Tt) as [Hs Hl].
  split; [lia|]. intros i Hi. by replace i with (S t) by lia.
Qed.

(** X5: in a well nested document the range of the scope of a trigger
line, with its trailing blank lines, starts on the trigger line and covers
exactly the lines after it up to the first line that is not deeper than the
trigger line. *)
Theorem range_is_the_scope (d : document) (t : nat) :
  well_nested d = true -> (t < length d)%nat -> trigger_of d t = true ->
  let r := Scope.get_range d (mkFoldScope (Blk t)) false in
  r.1 = Z.of_nat t
  /\ Z.of_nat t < r.2 < Z.of_nat (length d)
  /\ forall j, Z.of_nat t < Z.of_nat j <= r.2 <-> in_scope d t j.
Proof.
  intros W Ht Tt r. subst r.
  destruct (get_range_well_nested d t W Ht Tt) as (e & e' & -> & _ & Hin & He & _).
  cbn [fst snd].
  pose proof (in_scope_first_line d t W Tt) as Hf. apply Hin in Hf.
  assert (in_scope d t e) as [[? ?] _] by (apply Hin; lia).
  split; [done|]. split; [lia|]. intros j. rewrite <- Hin. lia.
Qed.

Lemma range_is_the_scope_witness :
  (Scope.get_range scenario1_folding scope0 false).1 = 0.
Proof.
  exact (proj1 (range_is_the_scope scenario1_folding 0%nat eq_refl
                  ltac:(vm_compute; lia) eq_refl)).
Defined.

(** X6: in a well nested document the range of a scope without its trailing
blank lines ends at or after the trigger line and not after the range with
the blank lines; the lines between the two ends are blank, and the last line
is not blank when it is after the trigger line. *)
Theorem range_without_trailing_blank_lines (d : document) (t : nat) :
  well_nested d = true -> (t < length d)%nat -> trigger_of d t = true ->
  let r := Scope.get_range d (mkFoldScope (Blk t)) false in
  let r' := Scope.get_range d (mkFoldScope (Blk t)) true in
  r'.1 = Z.of_nat t
  /\ Z.of_nat t <= r'.2 <= r.2
  /\ (forall j, r'.2 < Z.of_nat j <= r.2 -> is_blank (text_of d j) = true)
  /\ (Z.of_nat t < r'.2 -> is_blank (text_of d (Z.to_nat r'.2)) = false).
Proof.
  intros W Ht Tt r r'. subst r r'.
  destruct (get_range_well_nested d t W Ht Tt) as (e & e' & Hu & Hr & Hin & He & Hb).
  pose proof (get_range_trimmed d (mkFoldScope (Blk t))) as Htr.
  rewrite Hu, Hr in Htr. cbn [fst snd] in Htr.
  pose proof (in_scope_first_line d t W Tt) as Hf. apply Hin in Hf.
  assert (in_scope d t e) as [[? ?] _] by (apply Hin; lia).
  rewrite (proj2 (Z.eqb_neq (Z.of_nat e) 0)) in Htr by lia. cbn [negb] in Htr.
  unfold QTextBlock.findBlockByNumber in Htr.
  rewrite (proj2 (Z.leb_le 0 _)), (proj2 (Z.ltb_lt (Z.of_nat e) _)) in Htr by lia.
  cbn [andb] in Htr. rewrite Nat2Z.id in Htr.
  destruct (trim_stop d (S (S (length d))) e ltac:(lia) ltac:(lia))
    as (r & Hr' & Hstop).
  rewrite Hr' in Htr. assert (e' = r) as -> by (inversion Htr; lia).
  rewrite Hu, Hr. cbn [fst snd].
  split; [done|]. split; [lia|]. split.
  - intros j Hj. apply Hb. lia.
  - intros Hlt. rewrite Nat2Z.id. destruct Hstop as [->|]; [lia|done].
Qed.

Lemma range_without_trailing_blank_lines_witness :
  (Scope.get_range scenario1_folding scope0 true).1 = 0.
Proof.
  exact (proj1 (range_without_trailing_blank_lines scenario1_folding 0%nat
                  eq_refl ltac:(vm_compute; lia) eq_refl)).
Defined.

Lemma well_nested_first_line d t :
  well_nested d = true -> trigger_of d t = true ->
  level_of d (S t) = level_of d t + 1.
Proof.
  intros W Tt. pose proof (proj1 (well_nested_trigger d t W) Tt) as [Hs Hl].
  pose proof (well_nested_rise d t W Hs). lia.
Qed.

Lemma blocks_trimmed_elem d t b :
  well_nested d = true -> (t < length d)%nat -> trigger_of d t = true ->
  b ∈ Scope.blocks d (mkFoldScope (Blk t)) true
  <-> b ∈ Scope.blocks d (mkFoldScope (Blk t)) false
      /\ exists j, b = Blk j
           /\ Z.of_nat j <= (Scope.get_range d (mkFoldScope (Blk t)) true).2.
Proof.
  intros W Ht Tt.
  destruct (get_range_well_nested d t W Ht Tt) as (e & e' & Hu & Hr & Hin & He & _).
  pose proof (proj1 (well_nested_trigger d t W) Tt) as [Hs _].
  unfold Scope.blocks. rewrite Hu, Hr. unfold Scope.scope_level. cbn [_trigger snd].
  rewrite next_block_at.
  set (g := fun b : block =>
    if (TextBlockHelper.get_fold_lvl d (Some b)
        =? TextBlockHelper.get_fold_lvl d (Some (block_at d (S t))))
       && negb (TextBlockHelper.is_fold_trigger d (Some b))
    then [b] else []).
  assert (forall (a : list block) (b' : block),
            (if (TextBlockHelper.get_fold_lvl d (Some b')
                 =? TextBlockHelper.get_fold_lvl d (Some (block_at d (S t))))
                && negb (TextBlockHelper.is_fold_trigger d (Some b'))
             then (a ++ [b'])%list else a) = (a ++ g b')%list) as Hg.
  { intros a b'. unfold g. destruct (_ && _); [done|by rewrite app_nil_r]. }
  rewrite (walk_ext _ (fun acc b => (acc ++ g b)%list) d (Z.of_nat e')) by done.
  rewrite (walk_ext _ (fun acc b => (acc ++ g b)%list) d (Z.of_nat e)) by done.
  rewrite (walk_collect_elem g d (Z.of_nat e') (length d) (S t) [] b) by lia.
  rewrite (walk_collect_elem g d (Z.of_nat e) (length d) (S t) [] b) by lia.
  split.
  - intros [Hnil|(j & Hj & Hle & Hb)]; [by apply elem_of_nil in Hnil|].
    assert (b = Blk j) as ->.
    { unfold g in Hb. destruct (_ && _); [|by apply elem_of_nil in Hb].
      by apply list_elem_of_singleton in Hb. }
    split; [|exists j; split; [done|lia]].
    right. exists j. split; [lia|]. split; [lia|done].
  - intros [[Hnil|(j & Hj & Hle & Hb)] (j' & -> & Hle')];
      [by apply elem_of_nil in Hnil|].
    assert (j' = j) as ->.
    { unfold g in Hb. destruct (_ && _); [|by apply elem_of_nil in Hb].
      apply list_elem_of_singleton in Hb. by inversion Hb. }
    right. exists j. split; [lia|]. split; [lia|done].
Qed.

(** X8: in a well nested document the blocks of a scope, with the trailing
blank lines, are exactly the lines of the scope that are one level below the
trigger line and are no triggers; without the trailing blank lines, the ones
among them up to the last line of the range. *)
Theorem blocks_are_the_direct_lines (d : document) (t : nat) (b : block) :
  well_nested d = true -> (t < length d)%nat -> trigger_of d t = true ->
  let s := mkFoldScope (Blk t) in
  (b ∈ Scope.blocks d s false
   <-> exists j, b = Blk j /\ in_scope d t j
         /\ level_of d j = level_of d t + 1 /\ trigger_of d j = false)
  /\ (b ∈ Scope.blocks d s true
      <-> b ∈ Scope.blocks d s false
          /\ exists j, b = Blk j /\ Z.of_nat j <= (Scope.get_range d s true).2).
Proof.
  intros W Ht Tt s. subst s. split; [|by apply blocks_trimmed_elem].
  rewrite (blocks_elem d t W Ht Tt), (well_nested_first_line d t W Tt). done.
Qed.

Lemma blocks_are_the_direct_lines_witness :
  Blk 1 ∈ Scope.blocks scenario1_folding scope0 false
  <-> exists j, Blk 1 = Blk j /\ in_scope scenario1_folding 0 j
        /\ level_of scenario1_folding j = level_of scenario1_folding 0 + 1
        /\ trigger_of scenario1_folding j = false.
Proof.
  exact (proj1 (blocks_are_the_direct_lines scenario1_folding 0%nat (Blk 1)
                  eq_refl ltac:(vm_compute; lia) eq_refl)).
Defined.

(** X9: in a well nested document the child regions of a scope are exactly
the scopes of the triggers of the scope that are one level below its trigger
line; each is a scope the constructor accepts, and its lines are lines of
the parent. *)
Theorem child_regions_are_the_direct_triggers (d : document) (t : nat)
    (r : FoldScope) :
  well_nested d = true -> (t < length d)%nat -> trigger_of d t = true ->
  r ∈ Scope.child_regions d (mkFoldScope (Blk t))
  <-> exists c, r = mkFoldScope (Blk c) /\ in_scope d t c
        /\ level_of d c = level_of d t + 1 /\ trigger_of d c = true
        /\ Scope.init d (Blk c) = inr r
        /\ forall j, in_scope d c j -> in_scope d t j.
Proof.
  intros W Ht Tt.
  rewrite (child_regions_elem d t W Ht Tt), (well_nested_first_line d t W Tt).
  split.
  - intros (c & -> & Hc & Lc & Tc). exists c.
    split; [done|]. split; [done|]. split; [done|]. split; [done|]. split.
    + unfold Scope.init. fold (trigger_of d c). by rewrite Tc.
    + intros j Hj. by apply (in_scope_child d t Ht c j).
  - intros (c & -> & Hc & Lc & Tc & _). by exists c.
Qed.

Lemma child_regions_are_the_direct_triggers_witness :
  mkFoldScope (Blk 1) ∈ Scope.child_regions nested_folding scope0
  <-> exists c, mkFoldScope (Blk 1) = mkFoldScope (Blk c)
        /\ in_scope nested_folding 0 c
        /\ level_of nested_folding c = level_of nested_folding 0 + 1
        /\ trigger_of nested_folding c = true
        /\ Scope.init nested_folding (Blk c) = inr (mkFoldScope (Blk 1))
        /\ forall j, in_scope nested_folding c j -> in_scope nested_folding 0 j.
Proof.
  exact (child_regions_are_the_direct_triggers nested_folding 0%nat
           (mkFoldScope (Blk 1)) eq_refl ltac:(vm_compute; lia) eq_refl).
Defined.

(** X10: in a well nested document a line of a scope is a block of the
scope, the trigger of a child region or a line of a child region, and one of
the three only; it is a line of one child region at most. *)
Theorem scope_partition (d : document) (t j : nat) :
  well_nested d = true -> (t < length d)%nat -> trigger_of d t = true ->
  let s := mkFoldScope (Blk t) in
  let direct := Blk j ∈ Scope.blocks d s false in
  let child := mkFoldScope (Blk j) ∈ Scope.child_regions d s in
  let below c := mkFoldScope (Blk c) ∈ Scope.child_regions d s /\ in_scope d c j in
  (in_scope d t j <-> direct \/ child \/ exists c, below c)
  /\ ~ (direct /\ child)
  /\ (forall c, below c -> ~ direct /\ ~ child)
  /\ (forall c c', below c -> below c' -> c = c').
Proof.
  intros W Ht Tt s direct child below. subst s direct child below. cbv beta.
  rewrite (in_scope_cover d t W Ht Tt j).
  assert (forall c, mkFoldScope (Blk c) ∈ Scope.child_regions d (mkFoldScope (Blk t))
            <-> in_scope d t c /\ level_of d c = level_of d (S t)
                /\ trigger_of d c = true) as Hchild.
  { intros c. rewrite (child_regions_elem d t W Ht Tt). split.
    - by intros (c' & [= <-] & H).
    - intros H. by exists c. }
  assert (Blk j ∈ Scope.blocks d (mkFoldScope (Blk t)) false
          <-> in_scope d t j /\ level_of d j = level_of d (S t)
              /\ trigger_of d j = false) as Hdirect.
  { rewrite (blocks_elem d t W Ht Tt). split.
    - by intros (j' & [= <-] & H).
    - intros H. by exists j. }
  split; [|split; [|split]].
  - split.
    + intros [?|(c & ? & [->|?])]; [by left|by right; left|].
      right; right. by exists c.
    + intros [?|[?|(c & ? & ?)]]; [by left|right; exists j; by split; [|left]|].
      right. exists c. split; [done|by right].
  - rewrite Hdirect, Hchild. intros [(_ & _ & T1) (_ & _ & T2)]. congruence.
  - intros c [Hc Hj]. apply Hchild in Hc as (_ & Lc & _).
    destruct Hj as [[Hcj _] Hdeep]. specialize (Hdeep j ltac:(lia)).
    rewrite Hdirect, Hchild. split; intros (_ & Lj & _); lia.
  - intros c c' [Hc Hj] [Hc' Hj'].
    apply Hchild in Hc as (_ & Lc & _). apply Hchild in Hc' as (_ & Lc' & _).
    destruct Hj as [[Hcj _] Hdeep]. destruct Hj' as [[Hcj' _] Hdeep'].
    destruct (Nat.lt_trichotomy c c') as [Hlt|[->|Hlt]]; [|done|].
    + specialize (Hdeep c' ltac:(lia)). lia.
    + specialize (Hdeep' c ltac:(lia)). lia.
Qed.

Lemma scope_partition_witness :
  in_scope nested_folding 0 2
  <-> Blk 2 ∈ Scope.blocks nested_folding scope0 false
      \/ mkFoldScope (Blk 2) ∈ Scope.child_regions nested_folding scope0
      \/ exists c, mkFoldScope (Blk c) ∈ Scope.child_regions nested_folding scope0
            /\ in_scope nested_folding c 2.
Proof.
  exact (proj1 (scope_partition nested_folding 0%nat 2%nat eq_refl
                  ltac:(vm_compute; lia) eq_refl)).
Defined.

(** ** The parent of a scope *)

Lemma search_back_spec d ref_lvl fuel n :
  (n < length d)%nat -> (n < fuel)%nat ->
  exists q, Scope.search_back d ref_lvl fuel (Blk n) = Blk q
    /\ (q <= n)%nat
    /\ (q = 0%nat \/ (trigger_of d q = true /\ level_of d q <= ref_lvl))
    /\ forall i, (q < i <= n)%nat ->
         ~ (trigger_of d i = true /\ level_of d i <= ref_lvl).
Proof.
  revert n. induction fuel as [|fuel IH]; intros n Hn Hf; [lia|].
  cbn [Scope.search_back]. rewrite blockNumber_valid by done.
  fold (trigger_of d n). fold (level_of d n).
  destruct n as [|n].
  { exists 0%nat. cbn. repeat split; [lia|by left|]. intros i Hi. lia. }
  rewrite (proj2 (Z.eqb_neq (Z.of_nat (S n)) 0)) by lia. cbn [negb andb].
  destruct (negb (trigger_of d (S n)) || (level_of d (S n) >? ref_lvl)) eqn:E.
  - cbn [QTextBlock.previous]. rewrite (proj2 (isValid_lt d (S n))) by done.
    destruct (IH n ltac:(lia) ltac:(lia)) as (q & -> & Hq & Hstop & Hskip).
    exists q. split; [done|]. split; [lia|]. split; [done|].
    intros i Hi. destruct (decide (i = S n)) as [->|]; [|apply Hskip; lia].
    intros [T L]. rewrite T in E. cbn in E. apply Z.gtb_gt in E. lia.
  - exists (S n). split; [done|]. split; [lia|]. split.
    + right. apply orb_false_iff in E as [T L].
      apply negb_false_iff in T. split; [done|].
      rewrite Z.gtb_ltb in L. by apply Z.ltb_ge in L.
    + intros i Hi. lia.
Qed.

(** X11: [parent] returns nothing for the scope of line 0 and for a scope
whose trigger has no positive fold level.  What it returns otherwise is the
scope of a trigger line before the trigger of the scope: the nearest one
with a lower fold level or, when there is none, line 0 if line 0 is a
trigger. *)
Theorem parent_is_the_nearest_trigger (d : document) (t : nat) :
  (t < length d)%nat ->
  let s := mkFoldScope (Blk t) in
  ((t = 0%nat \/ level_of d t <= 0) -> Scope.parent d s = None)
  /\ forall p, Scope.parent d s = Some p ->
       exists q, p = mkFoldScope (Blk q) /\ (q < t)%nat
         /\ trigger_of d q = true
         /\ (q = 0%nat \/ level_of d q < level_of d t)
         /\ forall i, (q < i < t)%nat ->
              ~ (trigger_of d i = true /\ level_of d i < level_of d t).
Proof.
  intros Ht s. subst s. unfold Scope.parent, Scope.trigger_level. cbn [_trigger].
  fold (level_of d t). rewrite blockNumber_valid by done. split.
  - intros [->|Hl]; [by rewrite andb_false_r|].
    destruct (Z.gtb_spec (level_of d t) 0); [lia|done].
  - intros p. destruct (Z.gtb_spec (level_of d t) 0) as [Hl|]; [|done].
    destruct t as [|t]; [done|].
    rewrite (proj2 (Z.eqb_neq (Z.of_nat (S t)) 0)) by lia. cbn [negb andb].
    cbn [QTextBlock.previous]. rewrite (proj2 (isValid_lt d (S t))) by done.
    destruct (search_back_spec d (level_of d (S t) - 1) (S (length d)) t
                ltac:(lia) ltac:(lia)) as (q & -> & Hq & Hstop & Hskip).
    unfold Scope.init. fold (trigger_of d q).
    destruct (trigger_of d q) eqn:Tq; [|done]. cbn [negb].
    intros [= <-]. exists q. split; [done|]. split; [lia|]. split; [done|]. split.
    + destruct Hstop as [?|[_ ?]]; [by left|right; lia].
    + intros i Hi [T L]. apply (Hskip i); [lia|]. split; [done|lia].
Qed.

Lemma parent_is_the_nearest_trigger_witness :
  Scope.parent nested_folding scope0 = None.
Proof.
  exact (proj1 (parent_is_the_nearest_trigger nested_folding 0%nat
                  ltac:(vm_compute; lia)) (or_introl eq_refl)).
Defined.

Lemma search_back_finds d ref_lvl fuel t n :
  (n < length d)%nat -> (n < fuel)%nat -> (t <= n)%nat ->
  trigger_of d t = true -> level_of d t <= ref_lvl ->
  (forall i, (t < i <= n)%nat -> trigger_of d i = true -> level_of d i > ref_lvl) ->
  Scope.search_back d ref_lvl fuel (Blk n) = Blk t.
Proof.
  intros Hn Hf Htn Tt Lt Hdeep.
  destruct (search_back_spec d ref_lvl fuel n Hn Hf) as (q & -> & Hq & Hstop & Hskip).
  f_equal. destruct (Nat.lt_trichotomy q t) as [Hlt|[->|Hgt]]; [|done|].
  - exfalso. apply (Hskip t); [lia|done].
  - exfalso. destruct Hstop as [->|[Tq Lq]]; [lia|].
    specialize (Hdeep q ltac:(lia) Tq). lia.
Qed.

(** X12: in a well nested document whose fold levels are not negative, the
parent of a child region of a scope is that scope. *)
Theorem parent_of_child_region (d : document) (t : nat) (r : FoldScope) :
  well_nested d = true -> (t < length d)%nat -> trigger_of d t = true ->
  0 <= level_of d t ->
  r ∈ Scope.child_regions d (mkFoldScope (Blk t)) ->
  Scope.parent d r = Some (mkFoldScope (Blk t)).
Proof.
  intros W Ht Tt L0 (c & -> & Hc & Lc & Tc)%child_regions_elem; [|done..].
  rewrite (well_nested_first_line d t W Tt) in Lc.
  destruct Hc as [[Htc Hcl] Hdeep].
  unfold Scope.parent, Scope.trigger_level. cbn [_trigger].
  fold (level_of d c). rewrite blockNumber_valid by done.
  rewrite (proj2 (Z.gtb_gt _ _)) by lia.
  destruct c as [|c]; [lia|].
  rewrite (proj2 (Z.eqb_neq (Z.of_nat (S c)) 0)) by lia. cbn [negb andb].
  cbn [QTextBlock.previous]. rewrite (proj2 (isValid_lt d (S c))) by done.
  rewrite (search_back_finds d _ _ t c); try (done || lia).
  - unfold Scope.init. fold (trigger_of d t). by rewrite Tt.
  - intros i Hi _. specialize (Hdeep i ltac:(lia)). lia.
Qed.

Lemma parent_of_child_region_witness :
  Scope.parent nested_folding (mkFoldScope (Blk 1)) = Some scope0.
Proof.
  refine (parent_of_child_region nested_folding 0%nat (mkFoldScope (Blk 1))
            eq_refl _ eq_refl _ _).
  - vm_compute. lia.
  - vm_compute. discriminate.
  - vm_compute. apply list_elem_of_here.
Defined.

(** X13: [find_parent_scope] returns a trigger block as it is, in any
document; in a well nested document it returns, for a line of a scope that is
not blank, is no trigger and is one level below the trigger of the scope, the
trigger line of that scope. *)
Theorem find_parent_scope_of_direct_line (d : document) :
  (forall b, TextBlockHelper.is_fold_trigger d (Some b) = true ->
     Scope.find_parent_scope d b = b)
  /\ (forall t j,
        well_nested d = true -> (t < length d)%nat -> trigger_of d t = true ->
        in_scope d t j -> level_of d j = level_of d t + 1 ->
        trigger_of d j = false -> is_blank (text_of d j) = false ->
        Scope.find_parent_scope d (Blk j) = Blk t).
Proof.
  split.
  - intros b Tb. unfold Scope.find_parent_scope. by rewrite Tb.
  - intros t j W Ht Tt [[Htj Hjl] Hdeep] Lj Tj Bj.
    unfold Scope.find_parent_scope. fold (trigger_of d j).
    rewrite Tj. cbn [negb].
    cbn [Scope.skip_blank]. fold (text_of d j). rewrite Bj. cbn [andb].
    fold (level_of d j).
    apply search_back_finds; try (done || lia).
    intros i Hi _. specialize (Hdeep i ltac:(lia)). lia.
Qed.

Lemma find_parent_scope_of_direct_line_witness :
  Scope.find_parent_scope scenario1_folding (Blk 2) = Blk 0
  /\ Scope.find_parent_scope scenario1_folding (Blk 0) = Blk 0.
Proof.
  destruct (find_parent_scope_of_direct_line scenario1_folding) as [H1 H2].
  split.
  - apply (H2 0%nat 2%nat eq_refl); [vm_compute; lia|reflexivity| |
                                      reflexivity|reflexivity|reflexivity].
    split; [vm_compute; lia|]. intros i Hi.
    assert (i = 1 \/ i = 2)%nat as [->| ->] by lia; reflexivity.
  - apply H1. reflexivity.
Defined.

(** ** The text of a scope *)

Lemma lines_between_cons d k last :
  (k < length d)%nat -> Z.of_nat k <= last ->
  lines_between d k last = text_of d k :: lines_between d (S k) last.
Proof.
  intros Hk Hl. unfold lines_between.
  replace (Z.to_nat (Z.min (last + 1) (Z.of_nat (length d)) - Z.of_nat k))
    with (S (Z.to_nat (Z.min (last + 1) (Z.of_nat (length d)) - Z.of_nat (S k))))
    by lia.
  done.
Qed.

Lemma lines_between_nil d k last :
  (length d <= k)%nat \/ last < Z.of_nat k -> lines_between d k last = [].
Proof.
  intros H. unfold lines_between.
  replace (Z.to_nat (Z.min (last + 1) (Z.of_nat (length d)) - Z.of_nat k))
    with 0%nat by lia.
  done.
Qed.

Lemma collect_text_spec d last max_lines fuel k (ret_val : list string) :
  (length d - k <= fuel)%nat ->
  Scope.collect_text d last max_lines fuel (block_at d k) ret_val
  = (ret_val ++ take (Z.to_nat (max_lines - Z.of_nat (length ret_val)))
                  (lines_between d k last))%list.
Proof.
  revert k ret_val. induction fuel as [|fuel IH]; intros k acc Hk.
  - cbn [Scope.collect_text].
    rewrite lines_between_nil by lia. by rewrite take_nil, app_nil_r.
  - cbn [Scope.collect_text]. rewrite blockNumber_block_at.
    destruct (decide (k < length d)%nat) as [Hlt|Hge].
    + rewrite block_at_valid by done.
      rewrite (proj2 (isValid_lt d k)) by done. cbn [andb].
      destruct (Z.leb_spec (Z.of_nat k) last) as [Hle|Hgt]; cbn [andb].
      * destruct (Z.ltb_spec (Z.of_nat (length acc)) max_lines) as [Hm|Hm].
        -- rewrite next_block_at, IH by lia.
           rewrite (lines_between_cons d k last) by done. rewrite length_app. cbn [length].
           replace (Z.to_nat (max_lines - Z.of_nat (length acc)))
             with (S (Z.to_nat (max_lines - Z.of_nat (length acc + 1)))) by lia.
           cbn [take]. by rewrite <- app_assoc.
        -- replace (Z.to_nat (max_lines - Z.of_nat (length acc))) with 0%nat by lia.
           by rewrite take_0, app_nil_r.
      * rewrite lines_between_nil by lia. by rewrite take_nil, app_nil_r.
    + rewrite block_at_invalid by lia. cbn [QTextBlock.isValid QTextBlock.line andb].
      rewrite lines_between_nil by lia. by rewrite take_nil, app_nil_r.
Qed.

(** X14: [text] returns the texts of the lines after the trigger line up to
the last line of the range of the scope, [max_lines] of them at most and
none when [max_lines] is not positive, joined by line feeds. *)
Theorem text_is_the_body (d : document) (s : FoldScope) (t : nat) (max_lines : Z) :
  _trigger s = Blk t ->
  let body := lines_between d (S t) (Scope.get_range d s true).2 in
  Scope.text d s max_lines
  = String.concat (String (ascii_of_nat 10) "") (take (Z.to_nat max_lines) body)
  /\ Z.of_nat (length (take (Z.to_nat max_lines) body)) <= Z.max 0 max_lines.
Proof.
  intros Hs body. subst body. unfold Scope.text. rewrite Hs.
  destruct (Scope.get_range d s true) as [first last]. cbn [snd].
  rewrite next_block_at, collect_text_spec by lia. cbn [app length].
  rewrite Z.sub_0_r. split; [done|]. rewrite length_take. lia.
Qed.

Lemma text_is_the_body_witness :
  Scope.text scenario1_folding scope0 1 = "    x = 1".
Proof.
  exact (proj1 (text_is_the_body scenario1_folding scope0 0%nat 1 eq_refl)).
Defined.

(** * Properties of the text decorations *)

Lemma insert_last_split x l :
  by_draw_order l ->
  exists l1 l2, l = (l1 ++ l2)%list /\ Decoration.insert_last x l = (l1 ++ x :: l2)%list
    /\ Forall (fun y => draw_order y <= draw_order x) l1
    /\ Forall (fun y => draw_order x < draw_order y) l2.
Proof.
  induction l as [|y l IH]; intros Hl.
  - exists [], []. by repeat split.
  - destruct Hl as [Hy Hl]. cbn [Decoration.insert_last].
    destruct (Z.leb_spec (draw_order y) (draw_order x)) as [Hle|Hgt].
    + destruct (IH Hl) as (l1 & l2 & -> & -> & H1 & H2).
      exists (y :: l1), l2. split; [done|]. split; [done|].
      split; [by constructor|done].
    + exists [], (y :: l). split; [done|]. split; [done|].
      split; [constructor|]. constructor; [done|].
      eapply Forall_impl; [exact Hy|]. intros z Hz. cbn in Hz. lia.
Qed.

Lemma insert_last_perm x l : Decoration.insert_last x l ≡ₚ x :: l.
Proof.
  induction l as [|y l IH]; [done|]. cbn [Decoration.insert_last].
  destruct (draw_order y <=? draw_order x); [|done].
  rewrite IH. apply Permutation_swap.
Qed.

Lemma insert_last_ordered x l :
  by_draw_order l -> by_draw_order (Decoration.insert_last x l).
Proof.
  induction l as [|y l IH]; intros Hl.
  - by split.
  - destruct Hl as [Hy Hl]. cbn [Decoration.insert_last].
    destruct (Z.leb_spec (draw_order y) (draw_order x)) as [Hle|Hgt].
    + split; [|by apply IH]. rewrite insert_last_perm. by constructor.
    + split; [|by split]. constructor; [lia|].
      eapply Forall_impl; [exact Hy|]. intros z Hz. cbn in Hz. lia.
Qed.

Lemma sorted_from_perm acc l :
  foldl (fun acc x => Decoration.insert_last x acc) acc l ≡ₚ (acc ++ l)%list.
Proof.
  revert acc. induction l as [|x l IH]; intros acc; cbn [foldl].
  - by rewrite app_nil_r.
  - rewrite IH, insert_last_perm. cbn [app]. apply Permutation_middle.
Qed.

Lemma sorted_from_ordered acc l :
  by_draw_order acc ->
  by_draw_order (foldl (fun acc x => Decoration.insert_last x acc) acc l).
Proof.
  revert acc. induction l as [|x l IH]; intros acc Hacc; cbn [foldl]; [done|].
  by apply IH, insert_last_ordered.
Qed.

Lemma sorted_perm l : Decoration.sorted l ≡ₚ l.
Proof. unfold Decoration.sorted. by rewrite sorted_from_perm. Qed.

Lemma sorted_ordered l : by_draw_order (Decoration.sorted l).
Proof. by apply sorted_from_ordered. Qed.

Lemma by_draw_order_app l1 l2 :
  by_draw_order (l1 ++ l2)
  -> by_draw_order l1 /\ by_draw_order l2
     /\ forall x y, x ∈ l1 -> y ∈ l2 -> draw_order x <= draw_order y.
Proof.
  induction l1 as [|z l1 IH]; cbn [app by_draw_order].
  - intros H. split; [done|]. split; [done|]. intros x y Hx. by apply elem_of_nil in Hx.
  - intros [Hz H]. destruct (IH H) as (H1 & H2 & H12).
    apply Forall_app in Hz as [Hz1 Hz2].
    split; [by split|]. split; [done|].
    intros x y [->|Hx]%elem_of_cons Hy; [|by apply H12].
    by apply (proj1 (Forall_forall _ _) Hz2).
Qed.

Lemma insert_last_end x acc :
  Forall (fun y => draw_order y <= draw_order x) acc ->
  Decoration.insert_last x acc = (acc ++ [x])%list.
Proof.
  induction 1 as [|y acc Hy _ IH]; [done|]. cbn [Decoration.insert_last app].
  rewrite (proj2 (Z.leb_le _ _)) by done. by rewrite IH.
Qed.

Lemma sorted_from_id acc l :
  by_draw_order (acc ++ l) ->
  foldl (fun acc x => Decoration.insert_last x acc) acc l = (acc ++ l)%list.
Proof.
  revert acc. induction l as [|x l IH]; intros acc H; cbn [foldl].
  - by rewrite app_nil_r.
  - replace (acc ++ x :: l)%list with ((acc ++ [x]) ++ l)%list in *
      by (by rewrite <- app_assoc).
    rewrite insert_last_end; [by apply IH|].
    destruct (by_draw_order_app _ _ H) as (H1 & _ & _).
    destruct (by_draw_order_app _ _ H1) as (_ & _ & H2).
    apply Forall_forall. intros y Hy. apply H2; [done|]. apply list_elem_of_here.
Qed.

Lemma sorted_id l : by_draw_order l -> Decoration.sorted l = l.
Proof. intros H. unfold Decoration.sorted. by rewrite sorted_from_id. Qed.

Lemma sorted_snoc l x :
  by_draw_order l -> Decoration.sorted (l ++ [x]) = Decoration.insert_last x l.
Proof.
  intros H. unfold Decoration.sorted. rewrite foldl_app. cbn [foldl].
  f_equal. by apply sorted_id.
Qed.

Lemma list_remove_insert_last x l :
  x ∉ l -> Decoration.list_remove x (Decoration.insert_last x l) = Some l.
Proof.
  induction l as [|y l IH]; intros Hx.
  - cbn. by destruct (decide (x = x)).
  - apply not_elem_of_cons in Hx as [Hxy Hx]. cbn [Decoration.insert_last].
    destruct (draw_order y <=? draw_order x); cbn [Decoration.list_remove].
    + destruct (decide (y = x)) as [->|_]; [done|]. by rewrite IH.
    + by destruct (decide (x = x)).
Qed.

Lemma list_remove_spec x l :
  match Decoration.list_remove x l with
  | Some l' =>
      exists l1 l2, l = (l1 ++ x :: l2)%list /\ (x ∉ l1) /\ l' = (l1 ++ l2)%list
  | None => (x ∉ l)
  end.
Proof.
  induction l as [|y l IH]; cbn [Decoration.list_remove].
  - apply not_elem_of_nil.
  - destruct (decide (y = x)) as [->|Hne].
    + exists [], l. split; [done|]. split; [apply not_elem_of_nil|done].
    + destruct (Decoration.list_remove x l) as [l'|]; cbn.
      * destruct IH as (l1 & l2 & -> & H1 & ->).
        exists (y :: l1), l2. split; [done|]. split; [|done].
        apply not_elem_of_cons. by split.
      * apply not_elem_of_cons. by split.
Qed.

(** X15: [add_decoration] of a decoration the editor does not have returns
[True] and leaves the decorations of the editor and the new one, in the order
of their draw orders; when the decorations were in that order, they keep
their places and the new one comes after the ones of a draw order that is not
greater and before the ones of a greater draw order. *)
Theorem add_decoration_keeps_draw_order
    (selections : list TextDecoration) (decoration : TextDecoration) :
  decoration ∉ selections ->
  exists selections',
    Decoration.add_decoration selections decoration = (selections', true)
    /\ selections' ≡ₚ decoration :: selections
    /\ by_draw_order selections'
    /\ (by_draw_order selections ->
        exists l1 l2, selections = (l1 ++ l2)%list
          /\ selections' = (l1 ++ decoration :: l2)%list
          /\ Forall (fun y => draw_order y <= draw_order decoration) l1
          /\ Forall (fun y => draw_order decoration < draw_order y) l2).
Proof.
  intros Hx. unfold Decoration.add_decoration, Decoration.contains.
  rewrite (bool_decide_false (decoration ∈ selections)) by done. cbn [negb].
  eexists. split; [done|]. split.
  { rewrite sorted_perm. by rewrite <- Permutation_cons_append. }
  split; [apply sorted_ordered|].
  intros Hl. rewrite sorted_snoc by done. by apply insert_last_split.
Qed.

Lemma add_decoration_keeps_draw_order_witness :
  exists selections',
    Decoration.add_decoration
      [mkDecoration 0 0; mkDecoration 1 0; mkDecoration 2 5] (mkDecoration 3 0)
    = (selections', true)
    /\ selections'
        = [mkDecoration 0 0; mkDecoration 1 0; mkDecoration 3 0; mkDecoration 2 5].
Proof.
  destruct (add_decoration_keeps_draw_order
              [mkDecoration 0 0; mkDecoration 1 0; mkDecoration 2 5]
              (mkDecoration 3 0)) as (l' & Hadd & _).
  - intros H. repeat (apply elem_of_cons in H as [H|H]; [discriminate H|]).
    by apply elem_of_nil in H.
  - exists l'. split; [exact Hadd|].
    vm_compute in Hadd. by injection Hadd as <-.
Defined.

(** X16: after [add_decoration] the editor has the decoration; adding it
once more returns [False] and changes nothing. *)
Theorem add_decoration_twice
    (selections : list TextDecoration) (decoration : TextDecoration) :
  let selections' := (Decoration.add_decoration selections decoration).1 in
  decoration ∈ selections'
  /\ Decoration.add_decoration selections' decoration = (selections', false).
Proof.
  intros l'.
  assert (decoration ∈ l') as Hin.
  { subst l'. unfold Decoration.add_decoration, Decoration.contains.
    case_bool_decide as Hx; cbn [negb fst]; [done|].
    rewrite sorted_perm. apply elem_of_app. right. apply list_elem_of_here. }
  split; [done|]. unfold Decoration.add_decoration at 1, Decoration.contains.
  by rewrite (bool_decide_true (decoration ∈ l')) by done.
Qed.

(** X17: removing a decoration that was added to decorations in the order of
their draw orders, which did not have it, returns [True] and gives these
decorations back. *)
Theorem remove_added_decoration
    (selections : list TextDecoration) (decoration : TextDecoration) :
  decoration ∉ selections -> by_draw_order selections ->
  Decoration.remove_decoration
    (Decoration.add_decoration selections decoration).1 decoration
  = (selections, true).
Proof.
  intros Hx Hl. unfold Decoration.add_decoration, Decoration.contains.
  rewrite (bool_decide_false (decoration ∈ selections)) by done. cbn [negb fst].
  rewrite sorted_snoc by done. unfold Decoration.remove_decoration.
  by rewrite list_remove_insert_last.
Qed.

Lemma remove_added_decoration_witness :
  Decoration.remove_decoration
    (Decoration.add_decoration [mkDecoration 0 0; mkDecoration 2 5]
       (mkDecoration 3 0)).1 (mkDecoration 3 0)
  = ([mkDecoration 0 0; mkDecoration 2 5], true).
Proof.
  apply remove_added_decoration.
  - intros H. repeat (apply elem_of_cons in H as [H|H]; [discriminate H|]).
    by apply elem_of_nil in H.
  - cbn. repeat split; repeat (constructor; [cbn; lia|]); constructor.
Defined.

(** X18: [remove_decoration] returns [True] exactly when the editor has the
decoration, and then takes out its first occurrence and nothing else; when
the editor does not have it, it returns [False] and changes nothing. *)
Theorem remove_decoration_first_occurrence
    (selections : list TextDecoration) (decoration : TextDecoration) :
  (decoration ∈ selections ->
     exists l1 l2, selections = (l1 ++ decoration :: l2)%list
       /\ (decoration ∉ l1)
       /\ Decoration.remove_decoration selections decoration = ((l1 ++ l2)%list, true))
  /\ (decoration ∉ selections ->
      Decoration.remove_decoration selections decoration = (selections, false)).
Proof.
  pose proof (list_remove_spec decoration selections) as H.
  unfold Decoration.remove_decoration.
  destruct (Decoration.list_remove decoration selections) as [l'|].
  - destruct H as (l1 & l2 & -> & H1 & ->). split.
    + intros _. by exists l1, l2.
    + intros Hn. exfalso. apply Hn, elem_of_app. right. apply list_elem_of_here.
  - split; [by intros Hin|done].
Qed.

(** X19: when no decoration is twice among the decorations of the editor,
none is after [add_decoration] and none is after [remove_decoration], and the
editor does not have a decoration that was removed. *)
Theorem decorations_without_duplicates
    (selections : list TextDecoration) (decoration : TextDecoration) :
  NoDup selections ->
  NoDup (Decoration.add_decoration selections decoration).1
  /\ NoDup (Decoration.remove_decoration selections decoration).1
  /\ decoration ∉ (Decoration.remove_decoration selections decoration).1.
Proof.
  intros Hnd. split.
  - unfold Decoration.add_decoration, Decoration.contains.
    case_bool_decide as Hx; cbn [negb fst]; [done|].
    rewrite sorted_perm. rewrite <- Permutation_cons_append. by constructor.
  - pose proof (list_remove_spec decoration selections) as H.
    unfold Decoration.remove_decoration.
    destruct (Decoration.list_remove decoration selections) as [l'|]; cbn [fst].
    + destruct H as (l1 & l2 & -> & H1 & ->).
      apply NoDup_app in Hnd as (Hn1 & Hn12 & Hn2).
      apply NoDup_cons in Hn2 as [Hx2 Hn2]. split.
      * apply NoDup_app. split; [done|]. split; [|done].
        intros y Hy Hy2. apply (Hn12 y Hy). by apply list_elem_of_further.
      * intros [H|H]%elem_of_app; [by apply H1|by apply Hx2].
    + by split.
Qed.

Lemma decorations_without_duplicates_witness :
  NoDup (Decoration.add_decoration [mkDecoration 0 0] (mkDecoration 1 0)).1
  /\ NoDup (Decoration.remove_decoration [mkDecoration 0 0] (mkDecoration 1 0)).1
  /\ mkDecoration 1 0 ∉ (Decoration.remove_decoration [mkDecoration 0 0] (mkDecoration 1 0)).1.
Proof.
  apply decorations_without_duplicates.
  apply NoDup_singleton.
Defined.

(** * Further properties of a step of the fold detector *)

Lemma process_block_level_of `{FoldDetector} (d : document) n pb txt j :
  (n < length d)%nat ->
  level_of (process_block d n pb txt) j
  = let prev := TextBlockHelper.get_fold_lvl d pb in
    let raw := detected_level d n pb txt in
    if bool_decide (j = n) then
      if bool_decide (j < length d)%nat then fixed_level raw prev else 0
    else if (raw >? prev) && in_blank_run d j n then raw
    else level_of d j.
Proof.
  intros Hn. unfold process_block. rewrite move_trigger_state_level.
  rewrite !level_of_lookup, update_levels_lookup by done.
  unfold update_levels_line. cbv zeta.
  case_bool_decide as Hj.
  - subst j. rewrite (bool_decide_true (n < length d)%nat) by done.
    destruct (lookup_lt_is_Some_2 d n Hn) as [l ->]. done.
  - destruct (d !! j) as [l|] eqn:El; cbn.
    + repeat match goal with |- context [if ?c then _ else _] => destruct c end;
        done.
    + destruct (in_blank_run d j n) eqn:R; [|by rewrite andb_false_r].
      apply in_blank_run_lt in R. apply lookup_ge_None in El. lia.
Qed.

(** X2: [process_block] gives a blank line the fold level of the previous
block.  It gives a line that is not blank a level that is neither above the
limit of the detector nor more than one above the level of the previous
block, and the very level the detector returns when that is within both
bounds.  The level of no other line that is not blank changes. *)
Theorem process_block_level `{FoldDetector} (d : document) (n : nat)
    (previous_block : option block) (txt : string) :
  (n < length d)%nat ->
  let prev := TextBlockHelper.get_fold_lvl d previous_block in
  let lvl := detect_fold_level d previous_block (Blk n) in
  let d' := process_block d n previous_block txt in
  (is_blank txt = true -> level_of d' n = prev)
  /\ (is_blank txt = false ->
        level_of d' n <= limit /\ level_of d' n <= prev + 1
        /\ (lvl <= limit -> lvl <= prev + 1 -> level_of d' n = lvl))
  /\ (forall j, j <> n -> is_blank (text_of d j) = false ->
        level_of d' j = level_of d j).
Proof.
  intros Hn prev lvl d'. subst d'.
  split; [|split].
  - intros B. rewrite process_block_level_of by done. cbv zeta.
    rewrite !bool_decide_true by done.
    unfold detected_level. rewrite B. fold prev.
    apply fixed_level_kept. lia.
  - intros B. rewrite process_block_level_of by done. cbv zeta.
    rewrite !bool_decide_true by done. fold prev.
    unfold detected_level. rewrite B. fold prev. fold lvl.
    set (raw := if lvl >? limit then limit else lvl).
    assert (raw <= limit) as Hraw.
    { subst raw. destruct (Z.gtb_spec lvl limit); lia. }
    pose proof (fixed_level_le raw prev) as Hle.
    pose proof (fixed_level_le_max raw prev) as Hmax.
    split; [|split; [done|]].
    + unfold fixed_level in *.
      destruct (_ && _) eqn:E; [|done].
      apply andb_true_iff in E as [_ E]. apply Z.gtb_gt in E. lia.
    + intros H1 H2. subst raw.
      destruct (Z.gtb_spec lvl limit); [lia|]. by apply fixed_level_kept.
  - intros j Hj B. rewrite process_block_level_of by done. cbv zeta.
    rewrite (bool_decide_false (j = n)) by done.
    destruct (in_blank_run d j n) eqn:R; [|by rewrite andb_false_r].
    apply in_blank_run_blank in R. congruence.
Qed.

Lemma process_block_level_witness :
  level_of (@process_block (IndentFoldDetector 4) scenario1 1 (Some (Blk 0))
              "    x = 1") 1 <= sys_maxsize.
Proof.
  exact (proj1 (proj1 (proj2 (@process_block_level (IndentFoldDetector 4)
    scenario1 1%nat (Some (Blk 0)) "    x = 1" ltac:(vm_compute; lia)))
    eq_refl)).
Defined.

(** X3: after [process_block] on a line that is not blank, the previous
block, a line before it that is not blank, is a fold trigger exactly when the
fold level of the line is above its own. *)
Theorem process_block_sets_trigger `{FoldDetector} (d : document) (p n : nat)
    (txt : string) :
  (p < n < length d)%nat ->
  is_blank txt = false -> is_blank (text_of d p) = false ->
  let d' := process_block d n (Some (Blk p)) txt in
  trigger_of d' p = (level_of d' n >? level_of d' p).
Proof.
  intros Hpn B Bp d'. subst d'.
  rewrite !process_block_level_of by lia. cbv zeta.
  rewrite (bool_decide_true (n = n)), (bool_decide_true (n < length d)%nat),
    (bool_decide_false (p = n)) by (done || lia).
  assert (in_blank_run d p n = false) as ->.
  { destruct (in_blank_run d p n) eqn:R; [|done].
    apply in_blank_run_blank in R. congruence. }
  rewrite andb_false_r. fold (level_of d p).
  unfold process_block.
  set (d1 := update_levels d n (Some (Blk p)) txt).
  assert (trigger_of d1 p
          = (fixed_level (detected_level d n (Some (Blk p)) txt) (level_of d p)
             >? level_of d p)) as H1.
  { subst d1. rewrite trigger_of_lookup, update_levels_lookup by lia.
    destruct (lookup_lt_is_Some_2 d p ltac:(lia)) as [l ->]. cbn.
    unfold update_levels_line. cbv zeta. rewrite B. cbn [negb andb].
    rewrite (bool_decide_true (Some (Blk p) = Some (Blk p))) by done.
    rewrite (bool_decide_false (p = n)) by lia. done. }
  rewrite <- H1.
  destruct n as [|m]; [lia|].
  rewrite !trigger_of_lookup.
  rewrite (move_trigger_state_lookup d1 (S m) m) by
    (done || (unfold d1; rewrite (texts_length _ _ (update_levels_texts d (S m) (Some (Blk p)) txt ltac:(lia))); lia)).
  destruct (is_blank (text_of d1 m) && trigger_of d1 m) eqn:E; [|done].
  apply andb_true_iff in E as [Bm _].
  unfold d1 in Bm.
  rewrite (texts_text_of _ d m (update_levels_texts d (S m) (Some (Blk p)) txt ltac:(lia))) in Bm.
  destruct (d1 !! p) as [l|]; [|done]. cbn.
  unfold move_trigger_state_line.
  rewrite (bool_decide_false (p = S m)) by lia.
  rewrite (bool_decide_false (p = m)); [done|]. intros ->. congruence.
Qed.

Lemma process_block_sets_trigger_witness :
  trigger_of (@process_block (IndentFoldDetector 4) scenario1 1 (Some (Blk 0))
                "    x = 1") 0
  = (level_of (@process_block (IndentFoldDetector 4) scenario1 1 (Some (Blk 0))
                 "    x = 1") 1
     >? level_of (@process_block (IndentFoldDetector 4) scenario1 1 (Some (Blk 0))
                    "    x = 1") 0).
Proof.
  apply (@process_block_sets_trigger (IndentFoldDetector 4) scenario1 0%nat 1%nat
           "    x = 1"); [vm_compute; lia|reflexivity|reflexivity].
Defined.

(** * Unfolding any scope of any document *)

Lemma reveals_refl d : reveals d d.
Proof. by split. Qed.

Lemma reveals_trans d1 d2 d3 : reveals d1 d2 -> reveals d2 d3 -> reveals d1 d3.
Proof.
  intros (Hs1 & Hc1 & Hv1) (Hs2 & Hc2 & Hv2).
  split; [congruence|]. split.
  - intros j. by rewrite Hc2.
  - intros j Hj. by apply Hv2, Hv1.
Qed.

Lemma reveals_setVisible d b : reveals d (QTextBlock.setVisible d b true).
Proof.
  split; [apply setVisible_structure|].
  split; intros j; rewrite ?collapsed_of_lookup, ?visible_of_lookup,
    setVisible_lookup; case_decide; by destruct (d !! j).
Qed.

Lemma reveals_blocks (bs : list block) d :
  reveals d (foldl (fun d b => QTextBlock.setVisible d b true) d bs).
Proof.
  revert d. induction bs as [|b bs IH]; intros d; [apply reveals_refl|].
  cbn [foldl]. eapply reveals_trans; [apply reveals_setVisible|apply IH].
Qed.

Lemma reveals_show_back d bstart fuel b :
  reveals d (Scope.show_back d bstart fuel b).
Proof.
  revert d b. induction fuel as [|fuel IH]; intros d b; [apply reveals_refl|].
  cbn [Scope.show_back]. destruct (_ >? _); [|apply reveals_refl].
  eapply reveals_trans; [apply reveals_setVisible|apply IH].
Qed.

Lemma reveals_open_closed_region d r : reveals d (Scope.open_closed_region d r).
Proof.
  unfold Scope.open_closed_region.
  destruct (Scope.get_range d r true) as [start bstart].
  destruct (Scope.get_range d r false) as [start' bend].
  eapply reveals_trans; [apply reveals_setVisible|apply reveals_show_back].
Qed.

Lemma reveals_clear d b :
  TextBlockHelper.get_fold_trigger_state d (Some b) = false ->
  reveals d (TextBlockHelper.set_fold_trigger_state d (Some b) false).
Proof.
  intros Hb. split; [apply set_fold_trigger_state_structure|].
  split; intros j; rewrite ?collapsed_of_lookup, ?visible_of_lookup,
    set_fold_trigger_state_lookup; case_decide as E; try done.
  - injection E as ->. fold (collapsed_of d j) in Hb.
    rewrite collapsed_of_lookup in Hb. by destruct (d !! j).
  - by destruct (d !! j).
Qed.

(** The first two statements of [unfold], line by line. *)
Lemma trigger_shown_lookup (d : document) b j :
  TextBlockHelper.set_fold_trigger_state
    (QTextBlock.setVisible d b true) (Some b) false !! j
  = if decide (b = Blk j)
    then with_collapsed false <$> (with_visible true <$> d !! j)
    else d !! j.
Proof.
  rewrite set_fold_trigger_state_lookup, setVisible_lookup.
  destruct (decide (b = Blk j)) as [->|].
  - by rewrite decide_True.
  - by rewrite decide_False by congruence.
Qed.

(** The child regions of a scope start after its trigger line. *)
Lemma child_regions_after d b r :
  r ∈ Scope.child_regions d (mkFoldScope b) ->
  exists t c, b = Blk t /\ r = mkFoldScope (Blk c) /\ (t < c < length d)%nat.
Proof.
  unfold Scope.child_regions.
  destruct (Scope.get_range d (mkFoldScope b) true) as [start last].
  cbn [_trigger].
  rewrite (walk_ext _ (fun acc b' =>
    (acc ++ if (TextBlockHelper.get_fold_lvl d (Some b')
                =? Scope.scope_level d (mkFoldScope b))
               && TextBlockHelper.is_fold_trigger d (Some b')
            then [mkFoldScope b'] else [])%list)).
  2:{ intros a b'. unfold Scope.init.
      destruct (_ =? _); cbn [andb]; [|by rewrite app_nil_r].
      destruct (TextBlockHelper.is_fold_trigger d (Some b')); cbn [negb];
        [done|by rewrite app_nil_r]. }
  destruct b as [t|].
  - rewrite next_block_at, walk_collect_elem by lia.
    intros [Hnil|(j & Hj & _ & Hb)]; [by apply elem_of_nil in Hnil|].
    destruct (_ && _); [|by apply elem_of_nil in Hb].
    apply list_elem_of_singleton in Hb as ->.
    exists t, j. split; [done|]. split; [done|lia].
  - cbn [QTextBlock.next]. destruct (length d) as [|n]; cbn [Scope.walk].
    + intros H. by apply elem_of_nil in H.
    + cbn [QTextBlock.isValid QTextBlock.line]. rewrite andb_false_r.
      intros H. by apply elem_of_nil in H.
Qed.

Lemma unfold_regions_mono (u u' : document -> FoldScope -> option document)
    (regions : list FoldScope) d d' :
  (forall d s d', u d s = Some d' -> u' d s = Some d') ->
  Scope.unfold_regions u d regions = Some d' ->
  Scope.unfold_regions u' d regions = Some d'.
Proof.
  intros Hu. revert d. induction regions as [|r regions IH]; intros d; [done|].
  cbn [Scope.unfold_regions].
  destruct (negb (Scope.collapsed d r)).
  - destruct (u d r) as [d1|] eqn:E; [|done].
    rewrite (Hu _ _ _ E). cbn [mbind option_bind]. apply IH.
  - cbn [mbind option_bind]. apply IH.
Qed.

(** More fuel does not change what [unfold] returns. *)
Lemma unfold_rec_mono fuel fuel' d s d' :
  (fuel <= fuel')%nat ->
  Scope.unfold_rec fuel d s = Some d' -> Scope.unfold_rec fuel' d s = Some d'.
Proof.
  revert fuel' d s d'. induction fuel as [|fuel IH]; intros fuel' d s d' Hf; [done|].
  destruct fuel' as [|fuel']; [lia|]. cbn [Scope.unfold_rec].
  apply unfold_regions_mono. intros d1 s1 d1'. apply IH. lia.
Qed.

Lemma unfold_regions_reveals fuel n t (regions : list FoldScope) (d : document) :
  (forall d c, length d = n -> (t < c < n)%nat -> collapsed_of d c = false ->
     exists d', Scope.unfold_rec fuel d (mkFoldScope (Blk c)) = Some d'
                /\ reveals d d') ->
  length d = n ->
  (forall r, r ∈ regions -> exists c, r = mkFoldScope (Blk c) /\ (t < c < n)%nat) ->
  exists d', Scope.unfold_regions (Scope.unfold_rec fuel) d regions = Some d'
             /\ reveals d d'.
Proof.
  intros IH. revert d. induction regions as [|r regions IHr]; intros d Hn Hr.
  { exists d. split; [done|apply reveals_refl]. }
  destruct (Hr r (list_elem_of_here _ _)) as (c & -> & Hc).
  cbn [Scope.unfold_regions]. unfold Scope.collapsed. cbn [_trigger].
  fold (collapsed_of d c).
  assert (exists d1,
    (if negb (collapsed_of d c)
     then Scope.unfold_rec fuel d (mkFoldScope (Blk c))
     else Some (Scope.open_closed_region d (mkFoldScope (Blk c)))) = Some d1
    /\ reveals d d1) as (d1 & -> & H1).
  { destruct (collapsed_of d c) eqn:Cc; cbn [negb].
    - eexists. split; [done|apply reveals_open_closed_region].
    - by apply IH. }
  cbn [mbind option_bind].
  destruct (IHr d1) as (d' & -> & H2).
  - destruct H1 as (Hs & _). by rewrite (structure_length _ _ Hs).
  - intros r Hin. apply Hr. by apply list_elem_of_further.
  - exists d'. split; [done|]. by eapply reveals_trans.
Qed.

Lemma unfold_rec_reveals fuel d t :
  (length d - t < fuel)%nat ->
  exists d', Scope.unfold_rec fuel d (mkFoldScope (Blk t)) = Some d'
    /\ reveals (TextBlockHelper.set_fold_trigger_state
                  (QTextBlock.setVisible d (Blk t) true) (Some (Blk t)) false) d'.
Proof.
  revert d t. induction fuel as [|fuel IH]; intros d t Hf; [lia|].
  cbn [Scope.unfold_rec _trigger].
  set (d2 := TextBlockHelper.set_fold_trigger_state
               (QTextBlock.setVisible d (Blk t) true) (Some (Blk t)) false).
  assert (structure d2 = structure d) as Hs2
    by (unfold d2; by rewrite set_fold_trigger_state_structure, setVisible_structure).
  set (bs := Scope.blocks d2 (mkFoldScope (Blk t)) false).
  set (d3 := foldl (fun d b => QTextBlock.setVisible d b true) d2 bs).
  pose proof (reveals_blocks bs d2) as H23. fold d3 in H23.
  pose proof H23 as (Hs3 & _).
  destruct (unfold_regions_reveals fuel (length d) t
              (Scope.child_regions d3 (mkFoldScope (Blk t))) d3)
    as (d' & -> & H3).
  - intros d1 c Hlen Hc Cc.
    destruct (IH d1 c ltac:(lia)) as (d1' & -> & H1).
    exists d1'. split; [done|].
    eapply reveals_trans; [|exact H1].
    eapply reveals_trans; [apply reveals_setVisible|].
    apply reveals_clear. fold (collapsed_of (QTextBlock.setVisible d1 (Blk c) true) c).
    by rewrite (proj1 (proj2 (reveals_setVisible d1 (Blk c)))).
  - rewrite (structure_length _ _ Hs3). by rewrite (structure_length _ _ Hs2).
  - intros r (t' & c & [= <-] & -> & Hc)%child_regions_after.
    exists c. split; [done|].
    rewrite (structure_length _ _ Hs3), (structure_length _ _ Hs2) in Hc. done.
  - exists d'. split; [done|]. by eapply reveals_trans.
Qed.

(** X20: [unfold] returns, on every scope of every document.  It changes no
text, no fold level and no trigger flag, it hides no line, it shows the
trigger line of the scope and clears its collapsed state, and it leaves the
collapsed state of every other line as it is. *)
Theorem unfold_returns (d : document) (s : FoldScope) :
  exists d', Scope.unfold d s = Some d'
    /\ (forall fuel, (length d < fuel)%nat -> Scope.unfold_rec fuel d s = Some d')
    /\ structure d' = structure d
    /\ QTextBlock.isVisible d' (_trigger s) = true
    /\ Scope.collapsed d' s = false
    /\ (forall j, visible_of d j = true -> visible_of d' j = true)
    /\ (forall j, _trigger s <> Blk j -> collapsed_of d' j = collapsed_of d j).
Proof.
  destruct s as [[t|]].
  - destruct (unfold_rec_reveals (S (length d)) d t ltac:(lia))
      as (d' & Hd' & Hs & Hc & Hv).
    exists d'. split; [done|].
    split; [intros fuel Hf; eapply unfold_rec_mono; [|exact Hd']; lia|].
    rewrite set_fold_trigger_state_structure, setVisible_structure in Hs.
    split; [done|]. cbn [_trigger]. unfold Scope.collapsed. cbn [_trigger].
    fold (visible_of d' t). fold (collapsed_of d' t).
    split; [|split; [|split]].
    + apply Hv. rewrite visible_of_lookup, trigger_shown_lookup.
      rewrite decide_True by done. by destruct (d !! t).
    + rewrite Hc, collapsed_of_lookup, trigger_shown_lookup.
      rewrite decide_True by done. by destruct (d !! t).
    + intros j Hj. apply Hv. rewrite visible_of_lookup, trigger_shown_lookup.
      rewrite visible_of_lookup in Hj. case_decide; by destruct (d !! j).
    + intros j Hj. rewrite Hc, !collapsed_of_lookup, trigger_shown_lookup.
      by rewrite decide_False by done.
  - assert (forall fuel, Scope.unfold_rec (S fuel) d (mkFoldScope EndBlk) = Some d)
      as Hu.
    { intros fuel. cbn [Scope.unfold_rec _trigger QTextBlock.setVisible
        QTextBlock.update TextBlockHelper.set_fold_trigger_state].
      assert (Scope.blocks d (mkFoldScope EndBlk) false = []) as ->.
      { unfold Scope.blocks. destruct (Scope.get_range _ _ _) as [start last].
        cbn [_trigger QTextBlock.next].
        destruct (length d) as [|n]; cbn [Scope.walk]; [done|].
        cbn [QTextBlock.isValid QTextBlock.line]. by rewrite andb_false_r. }
      cbn [foldl].
      assert (Scope.child_regions d (mkFoldScope EndBlk) = []) as ->; [|done].
      destruct (Scope.child_regions d (mkFoldScope EndBlk)) as [|r l] eqn:E;
        [done|].
      destruct (child_regions_after d EndBlk r) as (t & c & Ht & _); [|done].
      rewrite E. apply list_elem_of_here. }
    exists d. split; [apply Hu|].
    split; [intros [|fuel] Hf; [lia|apply Hu]|]. by repeat split.
Qed.

(** * Unfolding a scope of a well nested document *)

Lemma range_ends d t :
  well_nested d = true -> (t < length d)%nat -> trigger_of d t = true ->
  exists e e',
    Scope.get_range d (mkFoldScope (Blk t)) false = (Z.of_nat t, Z.of_nat e)
    /\ Scope.get_range d (mkFoldScope (Blk t)) true = (Z.of_nat t, Z.of_nat e')
    /\ (forall j, (t < j <= e)%nat <-> in_scope d t j)
    /\ (t <= e' <= e)%nat /\ (e < length d)%nat
    /\ (forall j, (e' < j <= e)%nat -> is_blank (text_of d j) = true)
    /\ is_blank (text_of d e') = false.
Proof.
  intros W Ht Tt.
  destruct (get_range_well_nested d t W Ht Tt) as (e & e' & Hu & Hr & Hin & He & Hb).
  pose proof (get_range_trimmed d (mkFoldScope (Blk t))) as Htr.
  rewrite Hu, Hr in Htr. cbn [fst snd] in Htr.
  pose proof (in_scope_first_line d t W Tt) as Hf. apply Hin in Hf.
  assert (in_scope d t e) as [[? ?] _] by (apply Hin; lia).
  exists e, e'. split; [done|]. split; [done|]. split; [done|].
  split; [done|]. split; [done|]. split; [done|].
  destruct (decide (e' = t)) as [->|Hne]; [by apply well_nested_non_blank|].
  rewrite (proj2 (Z.eqb_neq (Z.of_nat e) 0)) in Htr by lia. cbn [negb] in Htr.
  unfold QTextBlock.findBlockByNumber in Htr.
  rewrite (proj2 (Z.leb_le 0 _)), (proj2 (Z.ltb_lt (Z.of_nat e) _)) in Htr by lia.
  cbn [andb] in Htr. rewrite Nat2Z.id in Htr.
  destruct (trim_stop d (S (S (length d))) e ltac:(lia) ltac:(lia))
    as (r & Hr' & Hstop).
  rewrite Hr' in Htr. assert (e' = r) as -> by (inversion Htr; lia).
  destruct Hstop as [->|]; [lia|done].
Qed.

Lemma show_back_end d bstart fuel :
  -1 <= bstart -> Scope.show_back d bstart fuel EndBlk = d.
Proof.
  intros Hb. destruct fuel as [|fuel]; [done|].
  cbn [Scope.show_back QTextBlock.blockNumber].
  by destruct (Z.gtb_spec (-1) bstart); [lia|].
Qed.

(** The last loop of [unfold] shows the lines from line [k] back to the line
after [bstart], and it ends within the fuel it is given. *)
Lemma show_back_lookup (d : document) bstart fuel k j :
  (k < length d)%nat -> (k < fuel)%nat -> -1 <= bstart ->
  Scope.show_back d bstart fuel (Blk k) !! j
  = if decide (bstart < Z.of_nat j /\ (j <= k)%nat)
    then with_visible true <$> d !! j else d !! j.
Proof.
  revert d k. induction fuel as [|fuel IH]; intros d k Hk Hf Hb; [lia|].
  cbn [Scope.show_back]. rewrite blockNumber_valid by done.
  destruct (Z.gtb_spec (Z.of_nat k) bstart) as [Hgt|Hle].
  - destruct k as [|k].
    + cbn [QTextBlock.previous]. rewrite show_back_end by done.
      rewrite setVisible_lookup.
      destruct (decide (Blk 0 = Blk j)) as [[= <-]|Hne].
      * by rewrite decide_True by lia.
      * rewrite decide_False; [done|]. intros [? ?]. apply Hne. f_equal. lia.
    + cbn [QTextBlock.previous]. rewrite (proj2 (isValid_lt d (S k))) by done.
      rewrite IH by (rewrite ?setVisible_length; lia).
      rewrite setVisible_lookup.
      destruct (decide (Blk (S k) = Blk j)) as [[= <-]|Hne].
      * rewrite decide_False by lia. by rewrite decide_True by lia.
      * destruct (decide (bstart < Z.of_nat j /\ (j <= k)%nat)).
        -- by rewrite decide_True by lia.
        -- rewrite decide_False; [done|]. intros [? ?].
           assert (j <> S k) by congruence. lia.
  - by rewrite decide_False by lia.
Qed.

Lemma open_closed_region_lookup (d : document) c e e' j :
  Scope.get_range d (mkFoldScope (Blk c)) false = (Z.of_nat c, Z.of_nat e) ->
  Scope.get_range d (mkFoldScope (Blk c)) true = (Z.of_nat c, Z.of_nat e') ->
  (c < length d)%nat -> (e < length d)%nat ->
  Scope.open_closed_region d (mkFoldScope (Blk c)) !! j
  = if decide (j = c \/ (e' < j <= e)%nat)
    then with_visible true <$> d !! j else d !! j.
Proof.
  intros Hu Hr Hc He. unfold Scope.open_closed_region. rewrite Hu, Hr.
  unfold QTextBlock.findBlockByNumber. rewrite setVisible_length.
  rewrite !(proj2 (Z.leb_le 0 _)) by lia.
  rewrite (proj2 (Z.ltb_lt (Z.of_nat c) _)), (proj2 (Z.ltb_lt (Z.of_nat e) _))
    by lia.
  cbn [andb]. rewrite !Nat2Z.id.
  rewrite show_back_lookup by (rewrite ?setVisible_length; lia).
  rewrite setVisible_lookup.
  destruct (decide (Blk c = Blk j)) as [[= <-]|Hne].
  - rewrite (decide_True (P := c = c \/ _)) by (by left).
    case_decide; by destruct (d !! c).
  - assert (j <> c) by congruence.
    repeat case_decide; destruct (d !! j); try done; lia.
Qed.

Lemma trimmed_end_nested d c g :
  well_nested d = true -> (c < length d)%nat -> trigger_of d c = true ->
  in_scope d c g -> trigger_of d g = true ->
  (Scope.get_range d (mkFoldScope (Blk g)) true).2
  <= (Scope.get_range d (mkFoldScope (Blk c)) true).2.
Proof.
  intros W Hc Tc Hg Tg. pose proof Hg as [[Hcg Hgl] _].
  destruct (range_ends d c W Hc Tc)
    as (ec & ec' & _ & -> & Hinc & Hc' & _ & Hbc & _).
  destruct (range_ends d g W Hgl Tg)
    as (eg & eg' & _ & -> & Hing & Hg' & _ & _ & Hnb).
  cbn [snd].
  assert (in_scope d c eg') as Hin.
  { destruct (decide (eg' = g)) as [->|]; [done|].
    eapply (in_scope_child d c Hc g); [done|]. apply Hing. lia. }
  apply Hinc in Hin.
  destruct (decide (eg' <= ec')%nat); [lia|].
  rewrite Hbc in Hnb by lia. done.
Qed.

Lemma closed_in_cases d t j :
  well_nested d = true -> (t < length d)%nat -> trigger_of d t = true ->
  closed_in d t j
  <-> exists c, mkFoldScope (Blk c) ∈ Scope.child_regions d (mkFoldScope (Blk t))
        /\ in_scope d c j /\ closed_from d c j.
Proof.
  intros W Ht Tt. pose proof (well_nested_first_line d t W Tt) as Hsl. split.
  - intros (g & Hg & Tg & Cg & Hgj & Hje).
    pose proof Hg as [[Htg Hgl] Hdeep].
    destruct (range_ends d g W Hgl Tg) as (eg & eg' & _ & Hr & Hing & Hg' & _).
    pose proof Hje as Hje'. rewrite Hr in Hje'. cbn [snd] in Hje'.
    assert (in_scope d g j) as Hgj' by (apply Hing; lia).
    destruct (decide (level_of d g = level_of d (S t))) as [El|Nl].
    + exists g. split; [apply child_regions_elem; [done..|]; by exists g|].
      split; [done|]. left. split; [done|]. by split.
    + destruct (enclosing_line d t Ht (level_of d (S t)) (S t) g)
        as (c & Hc & Lc & Hd).
      * lia.
      * done.
      * specialize (Hdeep g ltac:(lia)). lia.
      * intros i Hi. specialize (Hdeep i ltac:(lia)). lia.
      * assert (trigger_of d c = true) as Tc.
        { apply (well_nested_trigger d c W). split; [lia|].
          specialize (Hd (S c) ltac:(lia)). lia. }
        assert (in_scope d c g) as Hcg.
        { split; [lia|]. intros i Hi. specialize (Hd i ltac:(lia)). lia. }
        exists c. split.
        -- apply child_regions_elem; [done..|]. exists c.
           split; [done|]. split; [|done].
           split; [lia|]. intros i Hi. apply Hdeep. lia.
        -- split; [eapply (in_scope_child d c); [lia|exact Hcg|exact Hgj']|].
           right. exists g. split; [done|]. split; [done|]. split; [done|].
           by split.
  - intros (c & Hc & Hcj & Hcl).
    apply child_regions_elem in Hc as (c' & [= <-] & Hc & Lc & Tc); [|done..].
    destruct Hcl as [(Cc & Hlt & Hle)|(g & Hg & Tg & Cg & Hgj & Hje)].
    + exists c. split; [done|]. split; [done|]. split; [done|]. by split.
    + exists g. split; [eapply (in_scope_child d t); [done|exact Hc|exact Hg]|].
      split; [done|]. split; [done|]. by split.
Qed.

Lemma child_unique d c c' j :
  level_of d c = level_of d c' -> in_scope d c j -> in_scope d c' j -> c = c'.
Proof.
  intros L [[Hc Hj] Hd1] [[Hc' Hj'] Hd2].
  destruct (Nat.lt_trichotomy c c') as [Hlt|[Heq|Hgt]]; [|done|].
  - specialize (Hd1 c' ltac:(lia)). lia.
  - specialize (Hd2 c ltac:(lia)). lia.
Qed.

Lemma scope_level_not_closed d t j :
  well_nested d = true -> (t < length d)%nat -> trigger_of d t = true ->
  in_scope d t j -> level_of d j = level_of d (S t) -> ~ closed_in d t j.
Proof.
  intros W Ht Tt Hj Lj (g & Hg & Tg & Cg & Hgj & Hje).
  pose proof Hg as [[Htg Hgl] Hdeep].
  destruct (range_ends d g W Hgl Tg) as (eg & eg' & _ & Hr & Hing & Hg' & _).
  rewrite Hr in Hje. cbn [snd] in Hje.
  assert (in_scope d g j) as [_ Hgj'] by (apply Hing; lia).
  specialize (Hgj' j ltac:(lia)). specialize (Hdeep g ltac:(lia)).
  rewrite (well_nested_first_line d t W Tt) in Lj. lia.
Qed.

(** The lines that opening an expanded trigger line shows: the line, the
blocks of its scope and the lines that opening its child regions shows. *)
Lemma shown_by_cases d t j :
  well_nested d = true -> (t < length d)%nat -> trigger_of d t = true ->
  collapsed_of d t = false ->
  shown_by d t j
  <-> j = t \/ Blk j ∈ Scope.blocks d (mkFoldScope (Blk t)) false
      \/ exists c, mkFoldScope (Blk c) ∈ Scope.child_regions d (mkFoldScope (Blk t))
            /\ shown_by d c j.
Proof.
  intros W Ht Tt Ct. unfold shown_by at 1. split.
  - intros [->|[Hj Hn]]; [by left|right].
    assert (~ closed_in d t j) as Hn' by (intros H; apply Hn; by right).
    apply (in_scope_cover d t W Ht Tt) in Hj as [Hb|(c & Hc & Hj)]; [by left|right].
    exists c. split; [done|]. destruct Hj as [->|Hj]; [by left|right].
    split; [done|]. intros Hcl. apply Hn'.
    apply closed_in_cases; [done..|]. by exists c.
  - intros [->|[Hb|(c & Hc & Hs)]]; [by left|right..].
    + apply blocks_elem in Hb as (j' & [= <-] & Hj & Lj & _); [|done..].
      split; [done|]. intros [(Cc & _)|Hcl]; [congruence|].
      by apply (scope_level_not_closed d t j).
    + pose proof Hc as Hc'.
      apply child_regions_elem in Hc' as (c' & [= <-] & Hct & Lc & Tc); [|done..].
      destruct Hs as [->|[Hj Hn]].
      * split; [done|]. intros [(Cc & _)|Hcl]; [congruence|].
        by apply (scope_level_not_closed d t c).
      * split; [eapply (in_scope_child d t); [done|exact Hct|exact Hj]|].
        intros [(Cc & _)|Hcl]; [congruence|].
        apply closed_in_cases in Hcl as (c2 & Hc2 & Hj2 & Hcl2); [|done..].
        apply child_regions_elem in Hc2 as (c2' & [= <-] & _ & Lc2 & _); [|done..].
        assert (c = c2) as <- by (eapply child_unique; [|done|done]; congruence).
        done.
Qed.

Lemma reveals_closed_in d d' t j :
  reveals d d' -> closed_in d' t j <-> closed_in d t j.
Proof.
  intros (Hs & Hc & _). unfold closed_in.
  split; intros (c & H1 & H2 & H3 & H4 & H5); exists c.
  - apply (structure_in_scope d' d) in H1; [|done].
    rewrite (structure_trigger_of d' d) in H2 by done. rewrite Hc in H3.
    rewrite (structure_get_range d' d) in H5 by done. done.
  - apply (structure_in_scope d' d) in H1; [|done].
    rewrite <- (structure_trigger_of d' d) in H2 by done. rewrite <- Hc in H3.
    rewrite <- (structure_get_range d' d) in H5 by done. done.
Qed.

Lemma reveals_shown_by d d' c j :
  reveals d d' -> shown_by d' c j <-> shown_by d c j.
Proof.
  intros H. pose proof H as (Hs & Hc & _). unfold shown_by, closed_from.
  rewrite (structure_in_scope d' d) by done.
  rewrite (reveals_closed_in d d') by done.
  rewrite Hc, (structure_get_range d' d) by done. done.
Qed.

(** A collapsed child region: [unfold] of its parent shows its trigger line
and its trailing blank lines. *)
Lemma open_closed_region_opened d c :
  well_nested d = true -> (c < length d)%nat -> trigger_of d c = true ->
  collapsed_of d c = true ->
  opened d c (Scope.open_closed_region d (mkFoldScope (Blk c))).
Proof.
  intros W Hc Tc Cc.
  destruct (range_ends d c W Hc Tc) as (e & e' & Hu & Hr & Hin & He & Hel & Hb & _).
  assert (forall j, shown_by d c j <-> j = c \/ (e' < j <= e)%nat) as Hsh.
  { intros j. unfold shown_by. split.
    - intros [->|[Hj Hn]]; [by left|right]. apply Hin in Hj. split; [|lia].
      destruct (decide (e' < j)%nat); [done|]. exfalso. apply Hn. left.
      rewrite Hr. cbn [snd]. split; [done|]. split; lia.
    - intros [->|Hj]; [by left|right]. split; [apply Hin; lia|].
      intros [(_ & _ & Hle)|(g & Hg & Tg & Cg & Hgj & Hje)].
      + rewrite Hr in Hle. cbn [snd] in Hle. lia.
      + pose proof (trimmed_end_nested d c g W Hc Tc Hg Tg) as Hle.
        rewrite Hr in Hle. cbn [snd] in Hle. lia. }
  split; [apply reveals_open_closed_region|].
  split; intros j Hj; rewrite Hsh in Hj;
    rewrite !visible_of_lookup, (open_closed_region_lookup d c e e') by done.
  - rewrite decide_True by done. by destruct (d !! j).
  - by rewrite decide_False.
Qed.

Lemma unfold_regions_opened fuel d0 t (regions : list FoldScope) (d : document) :
  well_nested d0 = true -> (length d0 - t <= S fuel)%nat ->
  (forall d c,
     well_nested d = true -> (c < length d)%nat -> trigger_of d c = true ->
     (length d - c <= fuel)%nat -> collapsed_of d c = false ->
     exists d', Scope.unfold_rec fuel d (mkFoldScope (Blk c)) = Some d'
                /\ opened d c d') ->
  reveals d0 d ->
  (forall r, r ∈ regions ->
     exists c, r = mkFoldScope (Blk c) /\ in_scope d0 t c
               /\ trigger_of d0 c = true) ->
  exists d', Scope.unfold_regions (Scope.unfold_rec fuel) d regions = Some d'
    /\ reveals d d'
    /\ (forall j, (exists c, mkFoldScope (Blk c) ∈ regions /\ shown_by d0 c j) ->
          visible_of d' j = true)
    /\ (forall j, ~ (exists c, mkFoldScope (Blk c) ∈ regions /\ shown_by d0 c j) ->
          visible_of d' j = visible_of d j).
Proof.
  intros W Hf IH. revert d.
  induction regions as [|r regions IHr]; intros d Hd Hr.
  { exists d. split; [done|]. split; [apply reveals_refl|]. split; [|done].
    intros j (c & Hin & _). by apply elem_of_nil in Hin. }
  destruct (Hr r (list_elem_of_here _ _)) as (c & -> & Hct & Tc).
  pose proof Hct as [[Htc Hcl] _]. pose proof Hd as (Hs & Hcol & _).
  cbn [Scope.unfold_regions]. unfold Scope.collapsed. cbn [_trigger].
  fold (collapsed_of d c).
  assert (exists d1,
    (if negb (collapsed_of d c)
     then Scope.unfold_rec fuel d (mkFoldScope (Blk c))
     else Some (Scope.open_closed_region d (mkFoldScope (Blk c)))) = Some d1
    /\ opened d c d1) as (d1 & -> & Hr1 & Hsh1 & Hk1).
  { destruct (collapsed_of d c) eqn:Cc; cbn [negb].
    - eexists. split; [done|]. apply open_closed_region_opened.
      + by rewrite (structure_well_nested d d0).
      + by rewrite (structure_length d d0).
      + by rewrite (structure_trigger_of d d0).
      + done.
    - apply IH.
      + by rewrite (structure_well_nested d d0).
      + by rewrite (structure_length d d0).
      + by rewrite (structure_trigger_of d d0).
      + rewrite (structure_length d d0) by done. lia.
      + done. }
  cbn [mbind option_bind].
  destruct (IHr d1) as (d' & -> & Hr' & Hsh' & Hk').
  - by eapply reveals_trans.
  - intros r Hin. apply Hr. by apply list_elem_of_further.
  - exists d'. split; [done|]. split; [by eapply reveals_trans|]. split.
    + intros j (c' & Hin & Hj). apply elem_of_cons in Hin as [[= ->]|Hin].
      * apply (proj2 (proj2 Hr')). apply Hsh1. by apply (reveals_shown_by d0 d).
      * apply Hsh'. by exists c'.
    + intros j Hn. rewrite Hk', Hk1; [done| |].
      * intros Hs'. apply Hn. exists c. split; [apply list_elem_of_here|].
        by apply (reveals_shown_by d0 d).
      * intros (c' & Hin & Hj). apply Hn. exists c'.
        split; [by apply list_elem_of_further|done].
Qed.

(** [unfold] of an expanded scope opens its trigger line. *)
Lemma unfold_rec_opened fuel d t :
  well_nested d = true -> (t < length d)%nat -> trigger_of d t = true ->
  (length d - t <= fuel)%nat -> collapsed_of d t = false ->
  exists d', Scope.unfold_rec fuel d (mkFoldScope (Blk t)) = Some d'
    /\ opened d t d'.
Proof.
  revert d t. induction fuel as [|fuel IH]; intros d t W Ht Tt Hf Ct; [lia|].
  cbn [Scope.unfold_rec _trigger].
  set (d2 := TextBlockHelper.set_fold_trigger_state
               (QTextBlock.setVisible d (Blk t) true) (Some (Blk t)) false).
  assert (reveals d d2) as H12.
  { eapply reveals_trans; [apply reveals_setVisible|]. apply reveals_clear.
    fold (collapsed_of (QTextBlock.setVisible d (Blk t) true) t).
    by rewrite (proj1 (proj2 (reveals_setVisible d (Blk t)))). }
  pose proof H12 as (Hs2 & _).
  rewrite (structure_blocks d2 d) by done.
  set (bs := Scope.blocks d (mkFoldScope (Blk t)) false).
  set (d3 := foldl (fun d b => QTextBlock.setVisible d b true) d2 bs).
  pose proof (reveals_blocks bs d2) as H23. fold d3 in H23.
  pose proof (reveals_trans _ _ _ H12 H23) as H13.
  pose proof H13 as (Hs3 & _).
  rewrite (structure_child_regions d3 d) by done.
  destruct (unfold_regions_opened fuel d t
              (Scope.child_regions d (mkFoldScope (Blk t))) d3 W Hf
              (fun d c => IH d c) H13)
    as (d' & -> & H3 & Hsh & Hk).
  { intros r (c & -> & Hc & _ & Tc)%child_regions_elem; [|done..]. by exists c. }
  exists d'. split; [done|]. split; [by eapply reveals_trans|].
  assert (forall j, visible_of d3 j
            = if decide (j = t \/ Blk j ∈ bs) then true else visible_of d j)
    as Hv3.
  { intros j. rewrite !visible_of_lookup. unfold d3.
    rewrite foldl_setVisible_lookup. unfold d2. rewrite trigger_shown_lookup.
    destruct (decide (Blk t = Blk j)) as [[= <-]|Hne].
    - rewrite decide_True by (by left). by destruct (bool_decide _), (d !! t).
    - case_bool_decide.
      + rewrite decide_True by (by right). by destruct (d !! j).
      + rewrite decide_False; [done|]. intros [->|?]; done. }
  split; intros j Hj; rewrite (shown_by_cases d t j W Ht Tt Ct) in Hj.
  - destruct Hj as [->|[Hb|Hc]].
    + apply (proj2 (proj2 H3)). rewrite Hv3. by rewrite decide_True by (by left).
    + apply (proj2 (proj2 H3)). rewrite Hv3. by rewrite decide_True by (by right).
    + by apply Hsh.
  - rewrite Hk, Hv3.
    + rewrite decide_False; [done|].
      intros [->|Hb]; apply Hj; [by left|right; by left].
    + intros Hc. apply Hj. right. by right.
Qed.

(** The collapsed state of the trigger line makes no difference to
[unfold]. *)
Lemma unfold_rec_clear fuel (d : document) t :
  Scope.unfold_rec fuel
    (TextBlockHelper.set_fold_trigger_state d (Some (Blk t)) false)
    (mkFoldScope (Blk t))
  = Scope.unfold_rec fuel d (mkFoldScope (Blk t)).
Proof.
  destruct fuel as [|fuel]; [done|]. cbn [Scope.unfold_rec _trigger].
  assert (TextBlockHelper.set_fold_trigger_state
            (QTextBlock.setVisible
               (TextBlockHelper.set_fold_trigger_state d (Some (Blk t)) false)
               (Blk t) true) (Some (Blk t)) false
          = TextBlockHelper.set_fold_trigger_state
              (QTextBlock.setVisible d (Blk t) true) (Some (Blk t)) false)
    as ->; [|done].
  apply list_eq. intros j.
  rewrite !trigger_shown_lookup, set_fold_trigger_state_lookup.
  repeat case_decide; simplify_eq; destruct (d !! j); done.
Qed.

Lemma line_eq (d d' : document) j :
  structure d' = structure d -> collapsed_of d' j = collapsed_of d j ->
  visible_of d' j = visible_of d j -> d' !! j = d !! j.
Proof.
  intros Hs Hc Hv. pose proof (structure_lookup d' d j Hs) as H.
  rewrite !collapsed_of_lookup in Hc. rewrite !visible_of_lookup in Hv.
  destruct (d' !! j) as [[]|], (d !! j) as [[]|]; cbn in *; try done.
  destruct H as (-> & -> & ->). by subst.
Qed.

(** X21: [unfold] opens one level at a time.  In a well nested document,
[unfold] on the scope of a trigger line returns; it shows every line of the
scope that is not closed in it, that is, that no collapsed trigger of the
scope has in its range without the trailing blank lines; a line that is
closed in the scope stays as it is, hidden or not, and so does every line
outside of the scope but the trigger line. *)
Theorem unfold_one_level (d : document) (t : nat) :
  well_nested d = true -> (t < length d)%nat -> trigger_of d t = true ->
  exists d', Scope.unfold d (mkFoldScope (Blk t)) = Some d'
    /\ (forall j, in_scope d t j -> ~ closed_in d t j -> visible_of d' j = true)
    /\ (forall j, closed_in d t j -> d' !! j = d !! j)
    /\ (forall j, j <> t -> ~ in_scope d t j -> d' !! j = d !! j).
Proof.
  intros W Ht Tt.
  set (dc := TextBlockHelper.set_fold_trigger_state d (Some (Blk t)) false).
  assert (structure dc = structure d) as Hsc
    by apply set_fold_trigger_state_structure.
  assert (forall j, dc !! j
            = if decide (j = t) then with_collapsed false <$> d !! j
              else d !! j) as Hdc.
  { intros j. unfold dc. rewrite set_fold_trigger_state_lookup.
    repeat case_decide; simplify_eq; done. }
  assert (forall j, visible_of dc j = visible_of d j) as Hvc.
  { intros j. rewrite !visible_of_lookup, Hdc.
    case_decide; by destruct (d !! j). }
  assert (forall j, j <> t -> collapsed_of dc j = collapsed_of d j) as Hcc.
  { intros j Hj. rewrite !collapsed_of_lookup, Hdc. by rewrite decide_False. }
  assert (collapsed_of dc t = false) as Hct.
  { rewrite collapsed_of_lookup, Hdc, decide_True by done. by destruct (d !! t). }
  assert (forall j, closed_in dc t j <-> closed_in d t j) as Hcl.
  { intros j. unfold closed_in.
    split; intros (c & H1 & H2 & H3 & H4 & H5); exists c.
    - apply (structure_in_scope dc d) in H1; [|done].
      pose proof H1 as [[? ?] _].
      rewrite (structure_trigger_of dc d) in H2 by done.
      rewrite Hcc in H3 by lia.
      rewrite (structure_get_range dc d) in H5 by done. done.
    - pose proof H1 as [[? ?] _].
      apply (structure_in_scope dc d) in H1; [|done].
      rewrite <- (structure_trigger_of dc d) in H2 by done.
      rewrite <- Hcc in H3 by lia.
      rewrite <- (structure_get_range dc d) in H5 by done. done. }
  destruct (unfold_rec_opened (S (length d)) dc t)
    as (d' & Hd' & (Hs & Hc & Hv) & Hsh & Hk).
  - by rewrite (structure_well_nested dc d).
  - by rewrite (structure_length dc d).
  - by rewrite (structure_trigger_of dc d).
  - rewrite (structure_length dc d) by done. lia.
  - done.
  - unfold dc in Hd'. rewrite unfold_rec_clear in Hd'.
    exists d'. split; [exact Hd'|].
    assert (forall j, j <> t -> ~ shown_by dc t j -> d' !! j = d !! j) as Hsame.
    { intros j Hj Hn. apply line_eq.
      - congruence.
      - by rewrite Hc, Hcc.
      - by rewrite Hk, Hvc. }
    split; [|split].
    + intros j Hj Hn. apply Hsh. right.
      split; [by apply (structure_in_scope dc d)|].
      intros [(Cc & _)|H]; [congruence|]. by apply Hn, Hcl.
    + intros j Hj. pose proof Hj as (c & [[? ?] _] & _ & _ & ? & _).
      apply Hsame; [lia|]. intros [->|[_ Hn]]; [lia|].
      apply Hn. right. by apply Hcl.
    + intros j Hj Hn. apply Hsame; [done|]. intros [->|[Hin _]]; [done|].
      by apply Hn, (structure_in_scope dc d).
Qed.

Lemma unfold_one_level_witness :
  exists d', Scope.unfold closed_child scope0 = Some d'
    /\ visible_of d' 1 = true
    /\ d' !! 2%nat = closed_child !! 2%nat.
Proof.
  destruct (unfold_one_level closed_child 0%nat eq_refl
              ltac:(vm_compute; lia) eq_refl) as (d' & Hd' & H1 & H2 & _).
  exists d'. split; [exact Hd'|]. split.
  - apply H1.
    + split; [vm_compute; lia|]. intros i Hi.
      assert (i = 1%nat) as -> by lia. reflexivity.
    + intros (c & [[Hc _] _] & _ & _ & Hlt & _). lia.
  - apply H2. exists 1%nat. split.
    + split; [vm_compute; lia|]. intros i Hi.
      assert (i = 1%nat) as -> by lia. reflexivity.
    + split; [reflexivity|]. split; [reflexivity|]. split; [lia|].
      vm_compute. discriminate.
Defined.

(** * The document after a pass *)

Section PassWellNested.

Context {detector : FoldDetector}.
Variable d : document.
Hypothesis no_trigger : forall i, trigger_of d i = false.
Hypothesis no_repair : forall n,
  (n < length d)%nat -> is_blank (text_of d n) = false ->
  detected_at d n <= prev_level (rehighlight d) n + 1.

Lemma pass_prev_level_after_non_blank j :
  is_blank (text_of d j) = false ->
  prev_level (rehighlight d) (S j) = level_of (rehighlight d) j.
Proof.
  intros Bj. unfold prev_level, rehighlight. rewrite pass_find_prev by lia.
  cbn [find_prev_non_blank_block]. fold (text_of d j). by rewrite Bj.
Qed.

Lemma pass_prev_level_after_blank j :
  is_blank (text_of d j) = true ->
  prev_level (rehighlight d) (S j) = prev_level (rehighlight d) j.
Proof.
  intros Bj. unfold prev_level, rehighlight. rewrite !pass_find_prev by lia.
  cbn [find_prev_non_blank_block]. fold (text_of d j). by rewrite Bj.
Qed.

Lemma pass_prev_level_skip j m :
  (j < m)%nat -> is_blank (text_of d j) = true -> blank_between d j m ->
  prev_level (rehighlight d) m = prev_level (rehighlight d) j.
Proof.
  intros Hjm Bj Hb. unfold prev_level, rehighlight.
  rewrite !pass_find_prev by lia. by rewrite (find_prev_skip_blank d j m).
Qed.

Lemma pass_level_kept n :
  (n < length d)%nat -> is_blank (text_of d n) = false ->
  level_of (rehighlight d) n = detected_at d n
  /\ level_of (rehighlight d) n <= prev_level (rehighlight d) n + 1.
Proof.
  intros Hn Bn. pose proof (no_repair n Hn Bn) as Hr. unfold rehighlight in *.
  rewrite (pass_level_non_blank d (length d) n) by (done || lia).
  rewrite fixed_level_kept by done. done.
Qed.

(** The line after a blank line is not deeper than the blank line. *)
Lemma pass_after_blank j :
  (S j < length d)%nat -> is_blank (text_of d j) = true ->
  level_of (rehighlight d) (S j) <= level_of (rehighlight d) j.
Proof.
  intros Hj Bj.
  destruct (pass_level_blank d (length d) j ltac:(lia) ltac:(lia) Bj) as [H1 H2].
  fold (rehighlight d) in H1, H2.
  destruct (is_blank (text_of d (S j))) eqn:Bs.
  - destruct (pass_level_blank d (length d) (S j) ltac:(lia) ltac:(lia) Bs)
      as [H1' H2'].
    fold (rehighlight d) in H1', H2'.
    rewrite (pass_prev_level_after_blank j Bj) in H1', H2'.
    destruct (next_non_blank d (S j)) as [m|] eqn:E.
    + apply next_non_blank_Some in E as (Hm & Bm & Hb).
      pose proof (non_blank_valid _ _ Bm) as Hv.
      rewrite (H1' m), (H1 m); [lia|lia|done| |lia|done|done].
      intros i Hi. destruct (decide (i = S j)) as [->|]; [done|]. apply Hb. lia.
    + rewrite H2', H2; [lia| |].
      * intros i Hi. destruct (decide (i = S j)) as [->|]; [done|].
        eapply next_non_blank_None in E; [done|lia].
      * intros i Hi. eapply next_non_blank_None in E; [done|lia].
  - destruct (pass_level_kept (S j) Hj Bs) as [-> _].
    rewrite (H1 (S j)); [lia|lia|done|]. intros i Hi. lia.
Qed.

(** The line after a line that is not blank. *)
Lemma pass_after_non_blank j :
  (S j < length d)%nat -> is_blank (text_of d j) = false ->
  level_of (rehighlight d) (S j) <= level_of (rehighlight d) j + 1
  /\ trigger_of (rehighlight d) j
     = (level_of (rehighlight d) (S j) >? level_of (rehighlight d) j).
Proof.
  intros Hj Bj.
  destruct (pass_trigger d no_trigger (length d) j ltac:(lia)) as [_ Tn].
  destruct (Tn Bj) as [T1 T2]. fold (rehighlight d) in T1, T2.
  destruct (is_blank (text_of d (S j))) eqn:Bs.
  - destruct (pass_level_blank d (length d) (S j) ltac:(lia) ltac:(lia) Bs)
      as [H1 H2].
    fold (rehighlight d) in H1, H2.
    rewrite (pass_prev_level_after_non_blank j Bj) in H1, H2.
    destruct (next_non_blank d (S j)) as [m|] eqn:E.
    + apply next_non_blank_Some in E as (Hm & Bm & Hb).
      pose proof (non_blank_valid _ _ Bm) as Hv.
      destruct (pass_level_kept m Hv Bm) as [Lm Hle].
      rewrite (pass_prev_level_skip (S j) m), (pass_prev_level_after_non_blank j)
        in Hle by (done || lia).
      rewrite (H1 m) by (done || lia). rewrite <- Lm.
      rewrite (T1 m); [| lia | done |].
      * split; [lia|].
        destruct (Z.gtb_spec (level_of (rehighlight d) m) (level_of (rehighlight d) j)),
          (Z.gtb_spec (Z.max (level_of (rehighlight d) j) (level_of (rehighlight d) m))
             (level_of (rehighlight d) j)); (done || lia).
      * intros i Hi. destruct (decide (i = S j)) as [->|]; [done|]. apply Hb. lia.
    + rewrite H2.
      2:{ intros i Hi. eapply next_non_blank_None in E; [done|lia]. }
      split; [lia|]. rewrite T2.
      * by destruct (Z.gtb_spec (level_of (rehighlight d) j) (level_of (rehighlight d) j));
          [lia|].
      * intros i Hi. destruct (decide (i = S j)) as [->|]; [done|].
        eapply next_non_blank_None in E; [done|lia].
  - destruct (pass_level_kept (S j) Hj Bs) as [_ Hle].
    rewrite (pass_prev_level_after_non_blank j Bj) in Hle. split; [done|].
    apply T1; [lia|done|]. intros i Hi. lia.
Qed.

Lemma pass_well_nested_at j :
  (j < length d)%nat -> well_nested_at (rehighlight d) j = true.
Proof.
  intros Hj. unfold well_nested_at.
  assert (length (rehighlight d) = length d) as ->
    by (by apply highlight_upto_length).
  assert (text_of (rehighlight d) j = text_of d j) as ->
    by (by apply pass_text).
  destruct (pass_trigger d no_trigger (length d) j ltac:(lia)) as [Tb Tn].
  fold (rehighlight d) in Tb, Tn.
  destruct (decide (S j < length d)%nat) as [Hs|Hs].
  - rewrite (proj2 (Nat.ltb_lt _ _)) by done. cbn [andb].
    destruct (is_blank (text_of d j)) eqn:Bj.
    + pose proof (pass_after_blank j Hs Bj) as Hle.
      rewrite (Tb eq_refl). cbn [negb orb].
      rewrite (proj2 (Z.leb_le _ _)) by lia. rewrite orb_true_r.
      by destruct (Z.gtb_spec (level_of (rehighlight d) (S j))
                     (level_of (rehighlight d) j)); [lia|].
    + destruct (pass_after_non_blank j Hs Bj) as [Hle ->].
      rewrite (proj2 (Z.leb_le _ _)) by lia. rewrite orb_true_r, orb_true_r.
      by rewrite eqb_reflx.
  - rewrite (proj2 (Nat.leb_le _ _)) by lia.
    rewrite (proj2 (Nat.ltb_ge _ _)) by lia. cbn [orb andb].
    assert (trigger_of (rehighlight d) j = false) as ->; [|done].
    destruct (is_blank (text_of d j)) eqn:Bj; [by apply Tb|].
    apply (Tn eq_refl). intros i Hi. lia.
Qed.

End PassWellNested.

(** X22: the pass over a document without any trigger leaves a well nested
document (the fold level rises by one at most from a line to the next, the
triggers are the lines right before a deeper line, and no blank line is a
trigger), when no line is detected more than one level above the line before
it that is not blank. *)
Theorem rehighlight_well_nested `{FoldDetector} (d : document) :
  (forall i, trigger_of d i = false) ->
  (forall n, (n < length d)%nat -> is_blank (text_of d n) = false ->
     detected_at d n <= prev_level (rehighlight d) n + 1) ->
  well_nested (rehighlight d) = true.
Proof.
  intros H0 Hno. unfold well_nested. apply forallb_forall. intros j Hj.
  apply in_seq in Hj. apply pass_well_nested_at; [done|done|].
  unfold rehighlight in Hj. rewrite highlight_upto_length in Hj by lia. lia.
Qed.

Lemma rehighlight_well_nested_witness :
  well_nested (@rehighlight (IndentFoldDetector 4) dedent_by_two) = true.
Proof.
  apply (@rehighlight_well_nested (IndentFoldDetector 4) dedent_by_two).
  - intros i. apply new_document_no_trigger.
  - intros n Hn _.
    assert (n = 0 \/ n = 1 \/ n = 2 \/ n = 3)%nat as [->|[->|[->| ->]]]
      by (vm_compute in Hn; lia); vm_compute; discriminate.
Defined.

(** * The range of a scope in any document *)

Lemma scan_stop d ref_lvl fuel k last :
  level_of d k <= ref_lvl ->
  Scope.scan d ref_lvl fuel (Blk k) last = (Blk k, last).
Proof.
  intros Hl. destruct fuel as [|fuel]; [done|]. cbn [Scope.scan].
  fold (level_of d k).
  destruct (Z.gtb_spec (level_of d k) ref_lvl); [lia|]. by rewrite andb_false_r.
Qed.

(** X23: the range of a scope with its trailing blank lines, in any
document, when a line follows the trigger line.  The range starts on the
trigger line and ends after it.  When the line after the trigger line is
deeper than the trigger line, the range covers the lines after the trigger
line up to the first line that is not deeper than it; when that line has the
level of the trigger line (a zone set by hand), it covers the lines up to the
first line that is less deep than the trigger line; when that line is less
deep, it covers that line alone. *)
Theorem get_range_any_document (d : document) (t : nat) :
  (S t < length d)%nat ->
  exists e,
    Scope.get_range d (mkFoldScope (Blk t)) false = (Z.of_nat t, Z.of_nat e)
    /\ (t < e < length d)%nat
    /\ (level_of d (S t) > level_of d t ->
          (forall j, (t < j <= e)%nat -> level_of d j > level_of d t)
          /\ ((S e < length d)%nat -> level_of d (S e) <= level_of d t))
    /\ (level_of d (S t) = level_of d t ->
          (forall j, (t < j <= e)%nat -> level_of d j >= level_of d t)
          /\ ((S e < length d)%nat -> level_of d (S e) < level_of d t))
    /\ (level_of d (S t) < level_of d t -> e = S t).
Proof.
  intros Hs.
  unfold Scope.get_range, Scope.trigger_level, Scope.scope_level.
  cbn [_trigger andb]. rewrite next_block_at, (block_at_valid d (S t)) by done.
  fold (level_of d t). fold (level_of d (S t)).
  rewrite !blockNumber_valid by (done || lia).
  set (ref_lvl := if level_of d t =? level_of d (S t)
                  then level_of d t - 1 else level_of d t).
  destruct (decide (level_of d (S t) > ref_lvl)) as [Hgt|Hle].
  - rewrite <- (block_at_valid d (S t)) by done.
    destruct (scan_run d ref_lvl (length d) (S t) (Z.of_nat (S t))
                ltac:(lia) Hs Hgt) as (e & He & Hke & Hin & Hout).
    destruct (Scope.scan _ _ _ _ _) as [b last]. cbn [snd] in He. subst last.
    exists e. split; [done|]. split; [lia|]. subst ref_lvl.
    destruct (Z.eqb_spec (level_of d t) (level_of d (S t))) as [El|Nl].
    + split; [lia|]. split; [|lia]. intros _. split.
      * intros j Hj. specialize (Hin j ltac:(lia)). lia.
      * intros Hse. specialize (Hout Hse). lia.
    + split; [|split; [lia|lia]]. intros _. split.
      * intros j Hj. apply Hin. lia.
      * done.
  - rewrite scan_stop by lia. exists (S t). split; [done|]. split; [lia|].
    subst ref_lvl.
    destruct (Z.eqb_spec (level_of d t) (level_of d (S t))) as [El|Nl]; [lia|].
    split; [lia|]. split; [lia|done].
Qed.

Lemma get_range_any_document_witness :
  exists e,
    Scope.get_range scenario1 (mkFoldScope (Blk 0)) false = (0, Z.of_nat e)
    /\ (0 < e < 4)%nat.
Proof.
  destruct (get_range_any_document scenario1 0%nat ltac:(vm_compute; lia))
    as (e & He & Hb & _).
  exists e. split; [exact He|exact Hb].
Defined.

(** * The order of the blocks and of the child regions *)

Lemma walk_collect_sublist {A} (P : block -> bool) (h : block -> A)
    (d : document) last fuel k (acc : list A) :
  (length d - k <= fuel)%nat ->
  exists js,
    Scope.walk (fun acc b => if P b then (acc ++ [h b])%list else acc)
      d last fuel (block_at d k) acc
    = (acc ++ ((fun j => h (Blk j)) <$> js))%list
    /\ js `sublist_of` seq k (length d - k).
Proof.
  revert k acc. induction fuel as [|fuel IH]; intros k acc Hk.
  - exists []. cbn [Scope.walk fmap list_fmap]. rewrite app_nil_r.
    split; [done|apply sublist_nil_l].
  - cbn [Scope.walk]. rewrite blockNumber_block_at.
    destruct (decide (k < length d)%nat) as [Hlt|Hge].
    + rewrite block_at_valid by done.
      rewrite (proj2 (isValid_lt d k)) by done. rewrite andb_true_r.
      destruct (Z.leb_spec (Z.of_nat k) last) as [Hle|Hgt].
      * rewrite next_block_at.
        destruct (IH (S k) (if P (Blk k) then (acc ++ [h (Blk k)])%list else acc)
                    ltac:(lia)) as (js & -> & Hjs).
        replace (length d - k)%nat with (S (length d - S k)) by lia.
        cbn [seq]. destruct (P (Blk k)).
        -- exists (k :: js). split; [by rewrite <- app_assoc|].
           by apply sublist_skip.
        -- exists js. split; [done|]. by apply sublist_cons.
      * exists []. cbn [fmap list_fmap]. rewrite app_nil_r.
        split; [done|apply sublist_nil_l].
    + rewrite block_at_invalid by lia. cbn [QTextBlock.isValid QTextBlock.line].
      rewrite andb_false_r. exists []. cbn [fmap list_fmap]. rewrite app_nil_r.
      split; [done|apply sublist_nil_l].
Qed.

(** X24: in any document, [blocks] and [child_regions] yield lines after
the trigger line of the scope, in the order of the document, and none
twice. *)
Theorem regions_in_document_order (d : document) (t : nat)
    (ignore_blank_lines : bool) :
  (exists js,
     Scope.blocks d (mkFoldScope (Blk t)) ignore_blank_lines = Blk <$> js
     /\ js `sublist_of` seq (S t) (length d - S t))
  /\ (exists js,
        Scope.child_regions d (mkFoldScope (Blk t))
        = (fun j => mkFoldScope (Blk j)) <$> js
        /\ js `sublist_of` seq (S t) (length d - S t)).
Proof.
  split.
  - unfold Scope.blocks.
    destruct (Scope.get_range d (mkFoldScope (Blk t)) ignore_blank_lines)
      as [start last].
    cbn [_trigger]. rewrite next_block_at.
    destruct (walk_collect_sublist
                (fun b => (TextBlockHelper.get_fold_lvl d (Some b)
                           =? Scope.scope_level d (mkFoldScope (Blk t)))
                          && negb (TextBlockHelper.is_fold_trigger d (Some b)))
                (fun b => b) d last (length d) (S t) [] ltac:(lia))
      as (js & Hw & Hjs).
    exists js. split; [|done]. by rewrite Hw.
  - unfold Scope.child_regions.
    destruct (Scope.get_range d (mkFoldScope (Blk t)) true) as [start last].
    cbn [_trigger]. rewrite next_block_at.
    rewrite (walk_ext _ (fun acc b =>
      if (TextBlockHelper.get_fold_lvl d (Some b)
          =? Scope.scope_level d (mkFoldScope (Blk t)))
         && TextBlockHelper.is_fold_trigger d (Some b)
      then (acc ++ [mkFoldScope b])%list else acc)).
    2:{ intros a b. unfold Scope.init.
        destruct (_ =? _); cbn [andb]; [|done].
        by destruct (TextBlockHelper.is_fold_trigger d (Some b)). }
    destruct (walk_collect_sublist
                (fun b => (TextBlockHelper.get_fold_lvl d (Some b)
                           =? Scope.scope_level d (mkFoldScope (Blk t)))
                          && TextBlockHelper.is_fold_trigger d (Some b))
                mkFoldScope d last (length d) (S t) [] ltac:(lia))
      as (js & Hw & Hjs).
    exists js. split; [|done]. by rewrite Hw.
Qed.

(** X25: in a well nested document, [unfold] on a scope that [unfold] has
just opened changes nothing. *)
Theorem unfold_twice (d : document) (t : nat) :
  well_nested d = true -> (t < length d)%nat -> trigger_of d t = true ->
  exists d', Scope.unfold d (mkFoldScope (Blk t)) = Some d'
    /\ Scope.unfold d' (mkFoldScope (Blk t)) = Some d'.
Proof.
  intros W Ht Tt.
  set (dc := TextBlockHelper.set_fold_trigger_state d (Some (Blk t)) false).
  assert (structure dc = structure d) as Hsc
    by apply set_fold_trigger_state_structure.
  assert (collapsed_of dc t = false) as Hct.
  { rewrite collapsed_of_lookup. unfold dc.
    rewrite set_fold_trigger_state_lookup, decide_True by done.
    by destruct (d !! t). }
  destruct (unfold_rec_opened (S (length d)) dc t)
    as (d' & Hd' & H1 & Hsh1 & Hk1).
  - by rewrite (structure_well_nested dc d).
  - by rewrite (structure_length dc d).
  - by rewrite (structure_trigger_of dc d).
  - rewrite (structure_length dc d) by done. lia.
  - done.
  - unfold dc in Hd'. rewrite unfold_rec_clear in Hd'.
    exists d'. split; [exact Hd'|].
    pose proof H1 as (Hs1 & Hc1 & _).
    assert (length d' = length d) as Hlen.
    { rewrite (structure_length d' dc) by done.
      by rewrite (structure_length dc d). }
    destruct (unfold_rec_opened (S (length d')) d' t)
      as (d'' & Hd'' & (Hs2 & Hc2 & Hv2) & Hsh2 & Hk2).
    + rewrite (structure_well_nested d' dc) by done.
      by rewrite (structure_well_nested dc d).
    + lia.
    + rewrite (structure_trigger_of d' dc) by done.
      by rewrite (structure_trigger_of dc d).
    + lia.
    + by rewrite Hc1.
    + unfold Scope.unfold. rewrite Hd''. f_equal.
      apply list_eq. intros j. apply line_eq; [done|done|].
      destruct (visible_of d' j) eqn:Vj; [by apply Hv2|].
      rewrite Hk2; [done|]. intros Hj.
      apply (reveals_shown_by dc d') in Hj; [|done].
      rewrite (Hsh1 j Hj) in Vj. done.
Qed.

Lemma unfold_twice_witness :
  exists d', Scope.unfold closed_child scope0 = Some d'
    /\ Scope.unfold d' scope0 = Some d'.
Proof.
  exact (unfold_twice closed_child 0%nat eq_refl ltac:(vm_compute; lia) eq_refl).
Defined.

Lemma remove_decoration_first_occurrence_witness :
  Decoration.remove_decoration [mkDecoration 0 0] (mkDecoration 1 0)
  = ([mkDecoration 0 0], false).
Proof.
  apply (proj2 (remove_decoration_first_occurrence
                  [mkDecoration 0 0] (mkDecoration 1 0))).
  intros H. apply elem_of_cons in H as [H|H]; [discriminate H|].
  by apply elem_of_nil in H.
Defined.
